(** * Dress-Try-On: generation orchestration core

    A shallow embedding of [src/App.tsx] (combination engine, try-on / edit /
    video orchestration, classification queue) and of
    [src/services/geminiService.ts] (error normalisation, image calls, video
    poller), with the properties of the specification stated against it. *)

From Stdlib Require Import String Ascii List Arith NArith Bool Lia DecimalString.
From stdpp Require Import gmap strings.
Import ListNotations.

Local Open Scope string_scope.
Local Open Scope list_scope.

(** ** JavaScript string primitives used by the sources

    A string is a sequence of code units below 256, one [ascii] each. *)

Module Js.

(** [String.prototype.toLowerCase] on the ASCII range: [A]..[Z] move to
    [a]..[z], every other byte is kept. *)
Definition lowerAscii (c : ascii) : ascii :=
  let n := nat_of_ascii c in
  if ((65 <=? n) && (n <=? 90))%nat then ascii_of_nat (n + 32) else c.

Fixpoint toLowerCase (s : string) : string :=
  match s with
  | EmptyString => EmptyString
  | String c s' => String (lowerAscii c) (toLowerCase s')
  end.

(** [hay.includes(needle)]: [needle] occurs in [hay] as a contiguous run. *)
Fixpoint includes (needle hay : string) : bool :=
  String.prefix needle hay ||
  match hay with
  | EmptyString => false
  | String _ hay' => includes needle hay'
  end.

(** White space removed by [String.prototype.trim] (ASCII and Latin-1 part:
    TAB, LF, VT, FF, CR, SPACE, NBSP). *)
Definition isWhiteSpace (c : ascii) : bool :=
  let n := nat_of_ascii c in
  (((9 <=? n) && (n <=? 13)) || (n =? 32) || (n =? 160))%nat.

Fixpoint trimStart (s : string) : string :=
  match s with
  | EmptyString => EmptyString
  | String c s' => if isWhiteSpace c then trimStart s' else s
  end.

Fixpoint trimEnd (s : string) : string :=
  match s with
  | EmptyString => EmptyString
  | String c s' =>
      match trimEnd s' with
      | EmptyString => if isWhiteSpace c then EmptyString else String c EmptyString
      | t => String c t
      end
  end.

Definition trim (s : string) : string := trimEnd (trimStart s).

(** Truthiness of a string value: only the empty string is falsy. *)
Definition truthy (s : string) : bool :=
  match s with EmptyString => false | _ => true end.

(** Truthiness of a possibly [undefined] string. *)
Definition truthyOpt (o : option string) : bool :=
  match o with Some s => truthy s | None => false end.

(** The property names a plain object inherits from [Object.prototype].
    Read on an object that has no entry of its own under the name, each
    gives a function (for [__proto__]: the prototype object): a value that
    is truthy and is not iterable. *)
Definition objectPrototypeKeys : list string :=
  ["constructor"; "hasOwnProperty"; "isPrototypeOf"; "propertyIsEnumerable";
   "toLocaleString"; "toString"; "valueOf"; "__proto__";
   "__defineGetter__"; "__defineSetter__"; "__lookupGetter__"; "__lookupSetter__"].

Definition inherited (key : string) : bool :=
  existsb (String.eqb key) objectPrototypeKeys.

End Js.

(** ** Data model ([types.ts] as used by the sources) *)

Record UploadedImage := mkImage {
  base64 : string;
  mimeType : string;
  url : string;
  imgName : string
}.

Record FilterItem := mkItem {
  itemId : string;
  itemName : string;
  image : UploadedImage
}.

(** [{ ...item, category }] *)
Record TryOnItem := mkTryOn {
  baseItem : FilterItem;
  category : string
}.

(** [SelectedItems]: the object built from [initialSelected], which always
    carries the six category keys read by the engine. *)
Record SelectedItems := mkSelected {
  outfits : list FilterItem;
  tops : list FilterItem;
  bottoms : list FilterItem;
  footwear : list FilterItem;
  headwear : list FilterItem;
  accessories : list FilterItem
}.

(** ** [generateOutfitCombinations] (App.tsx, lines 17-47) *)

Module Engine.

(** [cartesian(...arrays)]: empty arrays are filtered out first; the reduce
    extends every partial combination [d] by every element [e] of the next
    array. *)
Definition cartesianStep {T} (acc : list (list T)) (val : list T) : list (list T) :=
  flat_map (fun d => map (fun e => d ++ [e]) val) acc.

Definition cartesian {T} (arrays : list (list T)) : list (list T) :=
  let nonEmptyArrays := List.filter (fun arr => (0 <? length arr)%nat) arrays in
  if (length nonEmptyArrays =? 0)%nat then [[]]
  else fold_left cartesianStep nonEmptyArrays [[]].

Definition toTryOnItem (item : FilterItem) (cat : string) : TryOnItem :=
  {| baseItem := item; category := cat |}.

(** The local [baseItems] array once lines 26-33 have run. *)
Definition baseItems (selectedItems : SelectedItems) : list (list TryOnItem) :=
  if (0 <? length (outfits selectedItems))%nat then
    map (fun item => [toTryOnItem item "outfits"]) (outfits selectedItems)
  else
    let tops' := map (fun item => toTryOnItem item "tops") (tops selectedItems) in
    let bottoms' := map (fun item => toTryOnItem item "bottoms") (bottoms selectedItems) in
    cartesian [tops'; bottoms'].

(** The local [accessoryCombos] array (lines 34-37). *)
Definition accessoryCombos (selectedItems : SelectedItems) : list (list TryOnItem) :=
  let footwear' := map (fun item => toTryOnItem item "footwear") (footwear selectedItems) in
  let headwear' := map (fun item => toTryOnItem item "headwear") (headwear selectedItems) in
  let accessories' := map (fun item => toTryOnItem item "accessories") (accessories selectedItems) in
  cartesian [footwear'; headwear'; accessories'].

Definition generateOutfitCombinations (selectedItems : SelectedItems) : list (list TryOnItem) :=
  let base := baseItems selectedItems in
  let combos := accessoryCombos selectedItems in
  if (length base =? 0)%nat then
    List.filter (fun combo => (0 <? length combo)%nat) combos
  else
    flat_map (fun b => map (fun combo => b ++ combo) combos) base.

End Engine.

(** ** Effects: external calls, exceptions, and the state they thread *)

(** A value caught by [catch (error)]: an [Error] instance with its
    [message], or any other thrown value. *)
Inductive Thrown :=
| ErrorObj (message : string)
| NonError.

(** Result of an external call as the caller sees it. *)
Inductive Completion (A : Type) :=
| Ok (a : A)
| Fail (e : Thrown).
Arguments Ok {A} a.
Arguments Fail {A} e.

(** *** Shapes exchanged with the generative service *)

Record InlineData := mkInline {
  data : option string;
  inlineMime : string
}.

Record Part := mkPart {
  inlineData : option InlineData;
  text : option string
}.

Record Content := mkContent { parts : option (list Part) }.
Record Candidate := mkCandidate { content : option Content }.

Record GenerateContentResponse := mkResponse {
  candidates : option (list Candidate);
  responseText : string
}.

Inductive ResponseConfig :=
| ImageModality
| CategoryJson.

Record GenerateContentRequest := mkRequest {
  model : string;
  contents : list Part;
  config : ResponseConfig
}.

Record VideoOperation := mkOperation {
  done : bool;
  uri : option string      (* [response?.generatedVideos?.[0]?.video?.uri] *)
}.

Record VideoRequest := mkVideoRequest {
  videoModel : string;
  videoPromptText : string;
  imageBytes : string;
  imageMime : string;
  resolution : string;
  aspectRatio : string
}.

Record Blob := mkBlob {
  blobBytes : list nat;
  blobType : string
}.

Record FetchResponse := mkFetch {
  ok : bool;
  statusText : string;
  body : Completion Blob    (* what [response.blob()] settles to *)
}.

Record File := mkFile {
  fileName : string;
  fileType : string
}.

(** What a [FileReader] reports for [readAsDataURL]. *)
Inductive FileReaderOutcome :=
| LoadEnd (result : string)     (* [onloadend] with a string [result] *)
| LoadEndNoString               (* [onloadend], [result] not a string *)
| ReadError.                    (* [onerror] *)

(** When React calls a functional updater handed to a [useState] setter.
    The setter queues the updater and React calls it when the component next
    renders, after the handler's current synchronous stretch; React calls it
    at once, inside the setter call, when no update is pending on the
    component (eager state computation), as is the case after every setter
    call on a legacy root that renders synchronously outside event
    handlers.  Either way the updater is taken to run once. *)
Inductive UpdaterRun :=
| DuringSetState
| DuringNextRender.

(** The world outside the two modules.  Calls of one API are numbered from
    0 in the order the program makes them. *)
Record World := mkWorld {
  API_KEY : string;
  generateContent : nat -> GenerateContentRequest -> Completion GenerateContentResponse;
  generateVideos : VideoRequest -> Completion VideoOperation;
  getVideosOperation : nat -> VideoOperation -> Completion VideoOperation;
  fetch : string -> Completion FetchResponse;
  parseCategory : string -> Completion (option string);   (* [JSON.parse(t).category] *)
  atob : string -> Completion string;
  createObjectURL : nat -> string;
  readAsDataURL : nat -> File -> FileReaderOutcome;
  dateNow : nat -> N;
  hasSelectedApiKey : bool;
  updaterRun : UpdaterRun
}.

Inductive Gender := female | male.
Inductive CreativeMode := TryOn | Edit | Video.
Inductive AspectRatio := Landscape | Portrait.   (* '16:9' | '9:16' *)

Record ClassifyingItem := mkClassifying {
  taskId : string;
  taskName : string;
  taskUrl : string;
  taskError : option string
}.

(** The component state of [App] read or written by the handlers. *)
Record AppState := mkApp {
  mode : CreativeMode;
  selectedImage : option UploadedImage;
  workspaceItems : list UploadedImage;
  generatedImages : list string;
  generatedVideoUrl : option string;
  isLoading : bool;
  error : option string;
  gender : Gender;
  classifyingItems : list ClassifyingItem;
  isApiKeySelected : bool;
  editPrompt : string;
  videoPrompt : string;
  videoAspectRatio : AspectRatio;
  femaleCatalogue : gmap string (list FilterItem);
  maleCatalogue : gmap string (list FilterItem);
  selectedItems : SelectedItems
}.

(** Calls to the outside and task transitions, in the order they happen. *)
Inductive Event :=
| EvGenerateContent (req : GenerateContentRequest)
| EvGenerateVideos (req : VideoRequest)
| EvGetVideosOperation (op : VideoOperation)
| EvSleep (ms : N)
| EvFetch (target : string)
| EvCreateObjectURL
| EvReadFile (f : File)
| EvHasSelectedApiKey
| EvOpenSelectKey
| EvTaskPending (id : string)
| EvTaskDone (id : string) (cat : string)
| EvTaskFailed (id : string) (msg : string).

(** The component state, the trace of the calls made, the counters that
    index the answers of the outside, and whether React has removed the
    component tree after a render that threw.  Once [unmounted] is set
    nothing displays the component state any more; [appState] then only
    records what the setters were asked to write. *)
Record Sys := mkSys {
  appState : AppState;
  log : list Event;
  nGenerate : nat;
  nPoll : nat;
  nUrl : nat;
  nRead : nat;
  nNow : nat;
  unmounted : bool
}.

(** How a piece of asynchronous code ends: it returns, it throws, or it is
    still waiting when the observation budget of its polling loop is spent. *)
Inductive Outcome (A : Type) :=
| Returned (a : A)
| Threw (e : Thrown)
| Waiting.
Arguments Returned {A} a.
Arguments Threw {A} e.
Arguments Waiting {A}.

Definition Exec (A : Type) : Type := Sys -> Outcome A * Sys.

Definition ret {A} (a : A) : Exec A := fun s => (Returned a, s).

Definition throw {A} (e : Thrown) : Exec A := fun s => (Threw e, s).

Definition throwError {A} (msg : string) : Exec A := throw (ErrorObj msg).

Definition bind {A B} (m : Exec A) (k : A -> Exec B) : Exec B :=
  fun s =>
    match m s with
    | (Returned a, s') => k a s'
    | (Threw e, s') => (Threw e, s')
    | (Waiting, s') => (Waiting, s')
    end.

(** [try { body } catch (error) { handler(error) }] *)
Definition tryCatch {A} (body : Exec A) (handler : Thrown -> Exec A) : Exec A :=
  fun s =>
    match body s with
    | (Threw e, s') => handler e s'
    | r => r
    end.

(** [try { body } finally { fin }] for a [fin] that does not throw. *)
Definition tryFinally {A} (body : Exec A) (fin : Exec unit) : Exec A :=
  fun s =>
    match body s with
    | (Waiting, s') => (Waiting, s')
    | (r, s') => (r, snd (fin s'))
    end.

Definition liftCompletion {A} (c : Completion A) : Exec A :=
  match c with
  | Ok a => ret a
  | Fail e => throw e
  end.

Definition emit (ev : Event) : Exec unit :=
  fun s => (Returned tt,
            {| appState := appState s; log := log s ++ [ev]; nGenerate := nGenerate s;
               nPoll := nPoll s; nUrl := nUrl s; nRead := nRead s; nNow := nNow s;
       unmounted := unmounted s |}).

Definition getApp : Exec AppState := fun s => (Returned (appState s), s).

Definition modifyApp (f : AppState -> AppState) : Exec unit :=
  fun s => (Returned tt,
            {| appState := f (appState s); log := log s; nGenerate := nGenerate s;
               nPoll := nPoll s; nUrl := nUrl s; nRead := nRead s; nNow := nNow s;
       unmounted := unmounted s |}).

(** A state updater has thrown.  The setter call itself returns; the
    error comes up in the render React runs for the update, and with no
    error boundary above [App] the tree is unmounted. *)
Definition unmount : Exec unit :=
  fun s => (Returned tt,
            {| appState := appState s; log := log s; nGenerate := nGenerate s;
               nPoll := nPoll s; nUrl := nUrl s; nRead := nRead s; nNow := nNow s;
               unmounted := true |}).

Declare Scope exec_scope.
Delimit Scope exec_scope with exec.
Notation "'do' x <- m ; k" := (bind m (fun x => k))
  (at level 10, x name, m at level 100, k at level 200) : exec_scope.
Notation "'run' m ; k" := (bind m (fun _ => k))
  (at level 10, m at level 100, k at level 200) : exec_scope.
Local Open Scope exec_scope.

(** ** [services/geminiService.ts] *)

Module GeminiService.

Definition configurationMessage : string :=
  "The AI service is not configured correctly. Please contact support.".
Definition credentialMessage : string :=
  "API Key not found or invalid. Please select a valid API key and try again.".
Definition quotaMessage : string :=
  "The AI service is currently experiencing high demand. Please try again in a few minutes.".
Definition unavailableMessage : string :=
  "The AI styling service is temporarily unavailable. Please try again later.".
Definition blockedMessage : string :=
  "The request was blocked by the AI. This can happen if an image is unsuitable for processing. Please try a different photo.".
Definition unexpectedMessage : string :=
  "An unexpected error occurred with the AI service. Please try again.".

Definition parseGeminiError (error : Thrown) : string :=
  match error with
  | ErrorObj msg =>
      let message := Js.toLowerCase msg in
      if Js.includes "api key not valid" message then configurationMessage
      else if Js.includes "requested entity was not found" message then credentialMessage
      else if Js.includes "quota" message then quotaMessage
      else if Js.includes "503" message || Js.includes "unavailable" message then unavailableMessage
      else if Js.includes "invalid argument" message || Js.includes "request was blocked" message
      then blockedMessage
      else unexpectedMessage
  | NonError => unexpectedMessage
  end.

(** The [catch] block shared by the four exported functions. *)
Definition rethrowFriendly {A} (error : Thrown) : Exec A :=
  throwError (parseGeminiError error).

(** One [ai.models.generateContent] call: logged, numbered, answered by the
    world. *)
Definition callGenerateContent (w : World) (req : GenerateContentRequest)
  : Exec GenerateContentResponse :=
  fun s =>
    let s' := {| appState := appState s; log := log s ++ [EvGenerateContent req];
                 nGenerate := S (nGenerate s); nPoll := nPoll s; nUrl := nUrl s;
                 nRead := nRead s; nNow := nNow s;
       unmounted := unmounted s |} in
    liftCompletion (generateContent w (nGenerate s) req) s'.

(** [response.candidates?.[0]?.content?.parts || []] *)
Definition responseParts (response : GenerateContentResponse) : list Part :=
  match candidates response with
  | Some (c :: _) =>
      match content c with
      | Some ct => match parts ct with Some ps => ps | None => [] end
      | None => []
      end
  | _ => []
  end.

(** The [for (const part of ...)] scan: the [data] of the first part that
    has an [inlineData], if any part has one. *)
Fixpoint firstInlineData (ps : list Part) : option (option string) :=
  match ps with
  | [] => None
  | part :: rest =>
      match inlineData part with
      | Some d => Some (data d)
      | None => firstInlineData rest
      end
  end.

(** A double quote, and [s] between double quotes. *)
Definition dquote : string := String (ascii_of_nat 34) EmptyString.
Definition quoted (s : string) : string := (dquote ++ s ++ dquote)%string.

Definition classifyPrompt : string :=
  ("Analyze the provided image of a clothing item. Your task is to determine its category. The category must be one of the following exact string values: "
   ++ quoted "outfits" ++ ", " ++ quoted "tops" ++ ", " ++ quoted "bottoms" ++ ", "
   ++ quoted "footwear" ++ ", " ++ quoted "headwear" ++ ", " ++ quoted "accessories"
   ++ ". An " ++ quoted "outfit"
   ++ " is a single item that covers both the top and bottom of the body, like a dress or a suit.")%string.

Definition classifyRequest (imageBase64 mime : string) : GenerateContentRequest :=
  {| model := "gemini-2.5-flash";
     contents := [ mkPart (Some (mkInline (Some imageBase64) mime)) None;
                   mkPart None (Some classifyPrompt) ];
     config := CategoryJson |}.

Definition noCategoryMessage : string := "AI could not determine a valid category.".

Definition classifyClothingItem (w : World) (imageBase64 : string) (mime : string)
  : Exec string :=
  tryCatch
    (do response <- callGenerateContent w (classifyRequest imageBase64 mime);
     do cat <- liftCompletion (parseCategory w (responseText response));
     match cat with
     | Some c => if Js.truthy c then ret c else throwError noCategoryMessage
     | None => throwError noCategoryMessage
     end)
    rethrowFriendly.

Definition genderWord (g : Gender) : string :=
  match g with female => "female" | male => "male" end.

Definition newline : string := String (ascii_of_nat 10) EmptyString.

Definition itemDescription (item : TryOnItem) : string :=
  ("- A '" ++ category item ++ "' item named '" ++ itemName (baseItem item) ++ "'")%string.

(** The instruction of [virtualTryOn], as far as the source spells it out. *)
Definition tryOnPrompt (catalogueItems : list TryOnItem) (g : Gender) : string :=
  ("Your mission is to perform a hyper-realistic virtual try-on. You will create a new, high-fidelity photorealistic image where the person from the first image (the user, a "
   ++ genderWord g
   ++ ") is wearing the provided clothing item(s). The original user image and the clothing items are provided as subsequent images:"
   ++ newline
   ++ String.concat newline (map itemDescription catalogueItems) ++ newline
   ++ "**CRITICAL INSTRUCTIONS...")%string.

Definition noImageTryOnMessage : string :=
  "The AI model did not return an image. This can happen if the input is unclear or violates safety policies. Please try a different photo.".

Definition noImageEditMessage : string :=
  "The AI model did not return an image. Please try a different prompt or image.".

Definition tryOnRequest (userImageBase64 userImageMimeType : string)
    (catalogueItems : list TryOnItem) (g : Gender) : GenerateContentRequest :=
  let catalogueParts :=
    map (fun item =>
           mkPart (Some (mkInline (Some (base64 (image (baseItem item))))
                                  (mimeType (image (baseItem item))))) None)
        catalogueItems in
  {| model := "gemini-2.5-flash-image";
     contents := mkPart (Some (mkInline (Some userImageBase64) userImageMimeType)) None
                   :: catalogueParts
                   ++ [ mkPart None (Some (tryOnPrompt catalogueItems g)) ];
     config := ImageModality |}.

Definition virtualTryOn (w : World) (userImageBase64 userImageMimeType : string)
    (catalogueItems : list TryOnItem) (g : Gender) : Exec (option string) :=
  tryCatch
    (do response <- callGenerateContent w
         (tryOnRequest userImageBase64 userImageMimeType catalogueItems g);
     match firstInlineData (responseParts response) with
     | Some d => ret d
     | None => throwError noImageTryOnMessage
     end)
    rethrowFriendly.

Definition editRequest (imageBase64 mime prompt : string) : GenerateContentRequest :=
  {| model := "gemini-2.5-flash-image";
     contents := [ mkPart (Some (mkInline (Some imageBase64) mime)) None;
                   mkPart None (Some prompt) ];
     config := ImageModality |}.

Definition editImage (w : World) (imageBase64 mime prompt : string) : Exec (option string) :=
  tryCatch
    (do response <- callGenerateContent w (editRequest imageBase64 mime prompt);
     match firstInlineData (responseParts response) with
     | Some d => ret d
     | None => throwError noImageEditMessage
     end)
    rethrowFriendly.

Definition callGetVideosOperation (w : World) (operation : VideoOperation)
  : Exec VideoOperation :=
  fun s =>
    let s' := {| appState := appState s; log := log s ++ [EvGetVideosOperation operation];
                 nGenerate := nGenerate s; nPoll := S (nPoll s); nUrl := nUrl s;
                 nRead := nRead s; nNow := nNow s;
       unmounted := unmounted s |} in
    liftCompletion (getVideosOperation w (nPoll s) operation) s'.

Definition callCreateObjectURL (w : World) : Exec string :=
  fun s =>
    (Returned (createObjectURL w (nUrl s)),
     {| appState := appState s; log := log s ++ [EvCreateObjectURL];
        nGenerate := nGenerate s; nPoll := nPoll s; nUrl := S (nUrl s);
        nRead := nRead s; nNow := nNow s;
       unmounted := unmounted s |}).

(** [while (!operation.done) { await sleep(10000); operation = await
    getVideosOperation(...) }], observed for at most [budget] rounds. *)
Fixpoint pollUntilDone (w : World) (budget : nat) (operation : VideoOperation)
  : Exec VideoOperation :=
  if done operation then ret operation
  else
    match budget with
    | O => fun s => (Waiting, s)
    | S budget' =>
        run emit (EvSleep 10000%N);
        do operation' <- callGetVideosOperation w operation;
        pollUntilDone w budget' operation'
    end.

Definition aspectRatioText (a : AspectRatio) : string :=
  match a with Landscape => "16:9" | Portrait => "9:16" end.

Definition noDownloadLinkMessage : string :=
  "Video generation completed, but no download link was found.".

Definition videoRequest (imageBase64 mime prompt : string) (ratio : AspectRatio)
    (res : string) : VideoRequest :=
  {| videoModel := "veo-3.1-fast-generate-preview";
     videoPromptText := prompt; imageBytes := imageBase64; imageMime := mime;
     resolution := res; aspectRatio := aspectRatioText ratio |}.

Definition downloadTarget (w : World) (downloadLink : string) : string :=
  (downloadLink ++ "&key=" ++ API_KEY w)%string.

(** Lines 211-224: what [generateVideo] does with the completed
    operation. *)
Definition download (w : World) (operation : VideoOperation) : Exec string :=
  match uri operation with
  | Some downloadLink =>
      if Js.truthy downloadLink then
        run emit (EvFetch (downloadTarget w downloadLink));
        do response <- liftCompletion (fetch w (downloadTarget w downloadLink));
        if ok response then
          do videoBlob <- liftCompletion (body response);
          do videoUrl <- callCreateObjectURL w;
          ret videoUrl
        else throwError ("Failed to download video: " ++ statusText response)%string
      else throwError noDownloadLinkMessage
  | None => throwError noDownloadLinkMessage
  end.

Definition generateVideo (w : World) (budget : nat) (imageBase64 mime prompt : string)
    (ratio : AspectRatio) (res : string) : Exec string :=
  tryCatch
    (let req := videoRequest imageBase64 mime prompt ratio res in
     run emit (EvGenerateVideos req);
     do operation0 <- liftCompletion (generateVideos w req);
     do operation <- pollUntilDone w budget operation0;
     download w operation)
    rethrowFriendly.

End GeminiService.

(** ** [utils/imageUtils.ts] *)

Module ImageUtils.

(** [s.split(sep)] for a one-character separator. *)
Fixpoint split (sep : ascii) (s : string) : list string :=
  match s with
  | EmptyString => [EmptyString]
  | String c s' =>
      if Ascii.eqb c sep then EmptyString :: split sep s'
      else match split sep s' with
           | seg :: segs => String c seg :: segs
           | [] => [String c EmptyString]
           end
  end.

(** [readFileAsBase64]: the part of the data URL after its first comma
    ([split(',')[1]]; where the URL has no comma the JavaScript value is
    [undefined], kept here as the empty string, which is falsy as well). *)
Definition readFileAsBase64 (w : World) (file : File) : Exec string :=
  fun s =>
    let s' := {| appState := appState s; log := log s ++ [EvReadFile file];
                 nGenerate := nGenerate s; nPoll := nPoll s; nUrl := nUrl s;
                 nRead := S (nRead s); nNow := nNow s;
       unmounted := unmounted s |} in
    match readAsDataURL w (nRead s) file with
    | LoadEnd result => ret (nth 1 (split "," result) EmptyString) s'
    | LoadEndNoString => throwError "Failed to read file as a data URL string." s'
    | ReadError => throwError "There was an error reading the file." s'
    end.

(** [base64ToBlob]: [atob] throws on input that is not base64. *)
Definition base64ToBlob (w : World) (b64 mime : string) : Exec Blob :=
  do byteCharacters <- liftCompletion (atob w b64);
  let byteNumbers := map nat_of_ascii (list_ascii_of_string byteCharacters) in
  ret {| blobBytes := byteNumbers; blobType := mime |}.

End ImageUtils.

(** ** [App.tsx]: handlers *)

Module App.

Import Engine GeminiService ImageUtils.

(** The state setters of [useState].  A setter given a value stores it; a
    setter given an updater stores the updater's result on the previous
    value. *)
Definition withSelectedImage (v : option UploadedImage) (st : AppState) : AppState :=
  {| mode := mode st; selectedImage := v; workspaceItems := workspaceItems st;
     generatedImages := generatedImages st; generatedVideoUrl := generatedVideoUrl st;
     isLoading := isLoading st; error := error st; gender := gender st;
     classifyingItems := classifyingItems st; isApiKeySelected := isApiKeySelected st;
     editPrompt := editPrompt st; videoPrompt := videoPrompt st;
     videoAspectRatio := videoAspectRatio st; femaleCatalogue := femaleCatalogue st;
     maleCatalogue := maleCatalogue st; selectedItems := selectedItems st |}.

Definition setSelectedImage (v : option UploadedImage) : Exec unit := modifyApp (withSelectedImage v).

Definition withWorkspaceItems (v : list UploadedImage) (st : AppState) : AppState :=
  {| mode := mode st; selectedImage := selectedImage st; workspaceItems := v;
     generatedImages := generatedImages st; generatedVideoUrl := generatedVideoUrl st;
     isLoading := isLoading st; error := error st; gender := gender st;
     classifyingItems := classifyingItems st; isApiKeySelected := isApiKeySelected st;
     editPrompt := editPrompt st; videoPrompt := videoPrompt st;
     videoAspectRatio := videoAspectRatio st; femaleCatalogue := femaleCatalogue st;
     maleCatalogue := maleCatalogue st; selectedItems := selectedItems st |}.

Definition setWorkspaceItems (f : list UploadedImage -> list UploadedImage) : Exec unit :=
  modifyApp (fun st => withWorkspaceItems (f (workspaceItems st)) st).

Definition withGeneratedImages (v : list string) (st : AppState) : AppState :=
  {| mode := mode st; selectedImage := selectedImage st;
     workspaceItems := workspaceItems st; generatedImages := v;
     generatedVideoUrl := generatedVideoUrl st; isLoading := isLoading st;
     error := error st; gender := gender st; classifyingItems := classifyingItems st;
     isApiKeySelected := isApiKeySelected st; editPrompt := editPrompt st;
     videoPrompt := videoPrompt st; videoAspectRatio := videoAspectRatio st;
     femaleCatalogue := femaleCatalogue st; maleCatalogue := maleCatalogue st;
     selectedItems := selectedItems st |}.

Definition setGeneratedImages (v : list string) : Exec unit := modifyApp (withGeneratedImages v).

Definition withGeneratedVideoUrl (v : option string) (st : AppState) : AppState :=
  {| mode := mode st; selectedImage := selectedImage st;
     workspaceItems := workspaceItems st; generatedImages := generatedImages st;
     generatedVideoUrl := v; isLoading := isLoading st; error := error st;
     gender := gender st; classifyingItems := classifyingItems st;
     isApiKeySelected := isApiKeySelected st; editPrompt := editPrompt st;
     videoPrompt := videoPrompt st; videoAspectRatio := videoAspectRatio st;
     femaleCatalogue := femaleCatalogue st; maleCatalogue := maleCatalogue st;
     selectedItems := selectedItems st |}.

Definition setGeneratedVideoUrl (v : option string) : Exec unit := modifyApp (withGeneratedVideoUrl v).

Definition withIsLoading (v : bool) (st : AppState) : AppState :=
  {| mode := mode st; selectedImage := selectedImage st;
     workspaceItems := workspaceItems st; generatedImages := generatedImages st;
     generatedVideoUrl := generatedVideoUrl st; isLoading := v; error := error st;
     gender := gender st; classifyingItems := classifyingItems st;
     isApiKeySelected := isApiKeySelected st; editPrompt := editPrompt st;
     videoPrompt := videoPrompt st; videoAspectRatio := videoAspectRatio st;
     femaleCatalogue := femaleCatalogue st; maleCatalogue := maleCatalogue st;
     selectedItems := selectedItems st |}.

Definition setIsLoading (v : bool) : Exec unit := modifyApp (withIsLoading v).

Definition withError (v : option string) (st : AppState) : AppState :=
  {| mode := mode st; selectedImage := selectedImage st;
     workspaceItems := workspaceItems st; generatedImages := generatedImages st;
     generatedVideoUrl := generatedVideoUrl st; isLoading := isLoading st; error := v;
     gender := gender st; classifyingItems := classifyingItems st;
     isApiKeySelected := isApiKeySelected st; editPrompt := editPrompt st;
     videoPrompt := videoPrompt st; videoAspectRatio := videoAspectRatio st;
     femaleCatalogue := femaleCatalogue st; maleCatalogue := maleCatalogue st;
     selectedItems := selectedItems st |}.

Definition setError (v : option string) : Exec unit := modifyApp (withError v).

Definition withClassifyingItems (v : list ClassifyingItem) (st : AppState) : AppState :=
  {| mode := mode st; selectedImage := selectedImage st;
     workspaceItems := workspaceItems st; generatedImages := generatedImages st;
     generatedVideoUrl := generatedVideoUrl st; isLoading := isLoading st;
     error := error st; gender := gender st; classifyingItems := v;
     isApiKeySelected := isApiKeySelected st; editPrompt := editPrompt st;
     videoPrompt := videoPrompt st; videoAspectRatio := videoAspectRatio st;
     femaleCatalogue := femaleCatalogue st; maleCatalogue := maleCatalogue st;
     selectedItems := selectedItems st |}.

Definition setClassifyingItems (f : list ClassifyingItem -> list ClassifyingItem) : Exec unit :=
  modifyApp (fun st => withClassifyingItems (f (classifyingItems st)) st).

Definition withIsApiKeySelected (v : bool) (st : AppState) : AppState :=
  {| mode := mode st; selectedImage := selectedImage st;
     workspaceItems := workspaceItems st; generatedImages := generatedImages st;
     generatedVideoUrl := generatedVideoUrl st; isLoading := isLoading st;
     error := error st; gender := gender st; classifyingItems := classifyingItems st;
     isApiKeySelected := v; editPrompt := editPrompt st; videoPrompt := videoPrompt st;
     videoAspectRatio := videoAspectRatio st; femaleCatalogue := femaleCatalogue st;
     maleCatalogue := maleCatalogue st; selectedItems := selectedItems st |}.

Definition setIsApiKeySelected (v : bool) : Exec unit := modifyApp (withIsApiKeySelected v).

Definition withFemaleCatalogue (v : gmap string (list FilterItem)) (st : AppState) : AppState :=
  {| mode := mode st; selectedImage := selectedImage st;
     workspaceItems := workspaceItems st; generatedImages := generatedImages st;
     generatedVideoUrl := generatedVideoUrl st; isLoading := isLoading st;
     error := error st; gender := gender st; classifyingItems := classifyingItems st;
     isApiKeySelected := isApiKeySelected st; editPrompt := editPrompt st;
     videoPrompt := videoPrompt st; videoAspectRatio := videoAspectRatio st;
     femaleCatalogue := v; maleCatalogue := maleCatalogue st;
     selectedItems := selectedItems st |}.

(** The catalogue setters take an updater; an updater that throws gives
    [None]. *)
Definition setFemaleCatalogue
    (f : gmap string (list FilterItem) -> option (gmap string (list FilterItem)))
  : Exec unit :=
  do st <- getApp;
  match f (femaleCatalogue st) with
  | Some next => modifyApp (withFemaleCatalogue next)
  | None => unmount
  end.

Definition withMaleCatalogue (v : gmap string (list FilterItem)) (st : AppState) : AppState :=
  {| mode := mode st; selectedImage := selectedImage st;
     workspaceItems := workspaceItems st; generatedImages := generatedImages st;
     generatedVideoUrl := generatedVideoUrl st; isLoading := isLoading st;
     error := error st; gender := gender st; classifyingItems := classifyingItems st;
     isApiKeySelected := isApiKeySelected st; editPrompt := editPrompt st;
     videoPrompt := videoPrompt st; videoAspectRatio := videoAspectRatio st;
     femaleCatalogue := femaleCatalogue st; maleCatalogue := v;
     selectedItems := selectedItems st |}.

Definition setMaleCatalogue
    (f : gmap string (list FilterItem) -> option (gmap string (list FilterItem)))
  : Exec unit :=
  do st <- getApp;
  match f (maleCatalogue st) with
  | Some next => modifyApp (withMaleCatalogue next)
  | None => unmount
  end.

Definition natText (n : nat) : string := NilEmpty.string_of_uint (Nat.to_uint n).
Definition numText (n : N) : string := NilEmpty.string_of_uint (N.to_uint n).

Definition callDateNow (w : World) : Exec N :=
  fun s =>
    (Returned (dateNow w (nNow s)),
     {| appState := appState s; log := log s; nGenerate := nGenerate s; nPoll := nPoll s;
        nUrl := nUrl s; nRead := nRead s; nNow := S (nNow s);
       unmounted := unmounted s |}).

(** The updater of [handleItemAdd],
    [{...prevCatalogue, [category]: [...(prevCatalogue[category] || []), item]}].
    The catalogue is a plain object, its entries the map.  Where it has an
    entry under [category], [prevCatalogue[category]] is that array (truthy
    also when empty).  Where it has none the read goes to the prototype:
    for a name of [Object.prototype] it gives a value that is truthy and not
    iterable, so that the spread throws a [TypeError]; for any other name it
    gives [undefined] and the array starts empty. *)
Definition addToCatalogue (item : FilterItem) (cat : string)
    (prevCatalogue : gmap string (list FilterItem))
  : option (gmap string (list FilterItem)) :=
  match prevCatalogue !! cat with
  | Some entries => Some (<[cat := entries ++ [item]]> prevCatalogue)
  | None =>
      if Js.inherited cat then None
      else Some (<[cat := [item]]> prevCatalogue)
  end.

(** [handleItemAdd]: the catalogue of the gender the callback was built
    for gets [item] appended under [category]. *)
Definition handleItemAdd (g : Gender) (item : FilterItem) (cat : string) : Exec unit :=
  match g with
  | female => setFemaleCatalogue (addToCatalogue item cat)
  | male => setMaleCatalogue (addToCatalogue item cat)
  end.

(** [file.name.split('.').slice(0, -1).join('.') || 'Style Item'] *)
Definition styleName (name : string) : string :=
  let stem := String.concat "." (removelast (split "." name)) in
  if Js.truthy stem then stem else "Style Item".

Definition errorMessageOr (fallback : string) (err : Thrown) : string :=
  match err with
  | ErrorObj message => message
  | NonError => fallback
  end.

(** The body of the [for (const file of files)] loop of
    [handleStyleUpload]. *)
Definition processFile (w : World) (g : Gender) (file : File) : Exec unit :=
  do now <- callDateNow w;
  let tempId := (numText now ++ "-" ++ fileName file)%string in
  do fileUrl <- callCreateObjectURL w;
  run setClassifyingItems (fun prev => prev ++ [mkClassifying tempId (fileName file) fileUrl None]);
  run emit (EvTaskPending tempId);
  run tryCatch
    (do base64String <- readFileAsBase64 w file;
     do cat <- classifyClothingItem w base64String (fileType file);
     let uploadedImage :=
       {| base64 := base64String; mimeType := fileType file; url := fileUrl;
          imgName := fileName file |} in
     let newItem :=
       {| itemId := tempId; itemName := styleName (fileName file); image := uploadedImage |} in
     run handleItemAdd g newItem cat;
     run setClassifyingItems
       (List.filter (fun item => negb (String.eqb (taskId item) tempId)));
     emit (EvTaskDone tempId cat))
    (fun err =>
       let errorMessage := errorMessageOr "Classification failed." err in
       run setClassifyingItems
         (map (fun item =>
                 if String.eqb (taskId item) tempId
                 then mkClassifying (taskId item) (taskName item) (taskUrl item)
                                    (Some errorMessage)
                 else item));
       emit (EvTaskFailed tempId errorMessage));
  emit (EvSleep 4500%N).

Fixpoint uploadLoop (w : World) (g : Gender) (files : list File) : Exec unit :=
  match files with
  | [] => ret tt
  | file :: rest => run processFile w g file; uploadLoop w g rest
  end.

Definition handleStyleUpload (w : World) (files : list File) : Exec unit :=
  do st <- getApp;
  uploadLoop w (gender st) files.

Definition handleImageAdd (img : UploadedImage) : Exec unit :=
  run setWorkspaceItems (fun prev => img :: prev);
  run setSelectedImage (Some img);
  run setGeneratedImages [];
  run setGeneratedVideoUrl None;
  setError None.

(** The render loop of the try-on branch (lines 192-199); [results] is the
    local array. *)
Fixpoint tryOnLoop (w : World) (img : UploadedImage) (g : Gender)
    (outfitsToTry : list (list TryOnItem)) (results : list string) : Exec (list string) :=
  match outfitsToTry with
  | [] => ret results
  | outfit :: rest =>
      do result <- virtualTryOn w (base64 img) (mimeType img) outfit g;
      match result with
      | Some r =>
          if Js.truthy r then
            let results' := results ++ [r] in
            run setGeneratedImages results';
            tryOnLoop w img g rest results'
          else tryOnLoop w img g rest results
      | None => tryOnLoop w img g rest results
      end
  end.

(** The loop over [results.entries()] (lines 203-213); [index] counts from
    0 and [newItems] is the local array. *)
Fixpoint materialize (w : World) (img : UploadedImage) (results : list string)
    (index : nat) (newItems : list UploadedImage) : Exec (list UploadedImage) :=
  match results with
  | [] => ret newItems
  | result :: rest =>
      do blob <- base64ToBlob w result "image/png";
      do itemUrl <- callCreateObjectURL w;
      let newItem :=
        {| base64 := result; mimeType := "image/png"; url := itemUrl;
           imgName := ("try-on-" ++ natText (index + 1) ++ "-" ++ imgName img)%string |} in
      materialize w img rest (S index) (newItems ++ [newItem])
  end.

(** Lines 214-217.  The updater [prev => [...newItems.reverse(), ...prev]]
    reverses the array [newItems] in place when React calls it; line 216
    then reads [newItems[0]] from the same array, reversed already or not
    yet.  (After a successful last render the call follows the
    [setGeneratedImages] of line 197 with no [await] in between, so an update
    is pending on the component when it is made.) *)
Definition publishNewItems (w : World) (newItems : list UploadedImage) : Exec unit :=
  let reversed := rev newItems in
  run setWorkspaceItems (fun prev => reversed ++ prev);
  let newItemsAtRead :=
    match updaterRun w with
    | DuringSetState => reversed
    | DuringNextRender => newItems
    end in
  match newItemsAtRead with
  | first :: _ => setSelectedImage (Some first)
  | [] => ret tt
  end.

Definition tryOnBranch (w : World) (st : AppState) (img : UploadedImage) : Exec unit :=
  let outfitsToTry := generateOutfitCombinations (selectedItems st) in
  if (length outfitsToTry =? 0)%nat then
    throwError "Please select at least one clothing item."
  else if existsb (fun item => negb (Js.truthy (base64 (image (baseItem item)))))
                  (concat outfitsToTry) then
    throwError "A selected style is a placeholder. Please upload real clothing items."
  else
    do results <- tryOnLoop w img (gender st) outfitsToTry [];
    if (0 <? length results)%nat then
      do newItems <- materialize w img results 0 [];
      publishNewItems w newItems
    else ret tt.

Definition editBranch (w : World) (st : AppState) (img : UploadedImage) : Exec unit :=
  if negb (Js.truthy (Js.trim (editPrompt st))) then
    throwError "Please enter an edit description."
  else
    do result <- editImage w (base64 img) (mimeType img) (editPrompt st);
    match result with
    | Some r =>
        if Js.truthy r then
          run setGeneratedImages [r];
          do blob <- base64ToBlob w r "image/png";
          do itemUrl <- callCreateObjectURL w;
          let newItem :=
            {| base64 := r; mimeType := "image/png"; url := itemUrl;
               imgName := ("edit-" ++ String.substring 0 20 (imgName img))%string |} in
          run setWorkspaceItems (fun prev => newItem :: prev);
          setSelectedImage (Some newItem)
        else ret tt
    | None => ret tt
    end.

Definition retryMessage : string :=
  "API Key selected. Please click 'Generate Video' again to proceed.".

Definition videoBranch (w : World) (budget : nat) (st : AppState) (img : UploadedImage)
  : Exec unit :=
  if negb (Js.truthy (Js.trim (videoPrompt st))) then
    throwError "Please enter a video description."
  else
    run emit EvHasSelectedApiKey;
    if negb (hasSelectedApiKey w) then
      run emit EvOpenSelectKey;
      run setIsApiKeySelected true;
      throwError retryMessage
    else
      tryCatch
        (do videoUrl <- generateVideo w budget (base64 img) (mimeType img) (videoPrompt st)
                          (videoAspectRatio st) "720p";
         setGeneratedVideoUrl (Some videoUrl))
        (fun videoError =>
           run match videoError with
               | ErrorObj message =>
                   if Js.includes "API Key not found" message
                   then setIsApiKeySelected false else ret tt
               | NonError => ret tt
               end;
           throw videoError).

(** [handleGenerate]; the values it reads ([mode], [selectedImage], the
    prompts, the selection) are those of the render that built the
    handler.  The wall-clock bracket ([setElapsedTime]) is left out. *)
Definition handleGenerate (w : World) (budget : nat) : Exec unit :=
  do st <- getApp;
  match selectedImage st with
  | None => setError (Some "Please select a photo from the workspace first.")
  | Some img =>
      run setIsLoading true;
      run setGeneratedImages [];
      run setGeneratedVideoUrl None;
      run setError None;
      tryFinally
        (tryCatch
           match mode st with
           | TryOn => tryOnBranch w st img
           | Edit => editBranch w st img
           | Video => videoBranch w budget st img
           end
           (fun err => setError (Some (errorMessageOr "An unknown error occurred." err))))
        (setIsLoading false)
  end.

End App.

(** ** Vocabulary of the specification *)

Module Spec.

Import Engine GeminiService ImageUtils App.

(** The cartesian product [xs × ys], first component major; empty as soon
    as one side is. *)
Definition product {T} (xs ys : list T) : list (list T) :=
  flat_map (fun x => map (fun y => [x; y]) ys) xs.

Definition asTops (sel : SelectedItems) : list TryOnItem :=
  map (fun item => toTryOnItem item "tops") (tops sel).
Definition asBottoms (sel : SelectedItems) : list TryOnItem :=
  map (fun item => toTryOnItem item "bottoms") (bottoms sel).

(** Section 4.1, step 1, second sentence, at one selection. *)
Definition baseLayerAsSpecified (sel : SelectedItems) : Prop :=
  outfits sel = [] -> baseItems sel = product (asTops sel) (asBottoms sel).

(** The same selection with other tops and bottoms. *)
Definition withTopsBottoms (ts bs : list FilterItem) (sel : SelectedItems) : SelectedItems :=
  {| outfits := outfits sel; tops := ts; bottoms := bs; footwear := footwear sel;
     headwear := headwear sel; accessories := accessories sel |}.

Definition isAccessoryCategory (c : string) : bool :=
  String.eqb c "footwear" || String.eqb c "headwear" || String.eqb c "accessories".

(** Section 4.5: the categories and the ordered rule list. *)
Inductive ErrorCategory :=
| ConfigurationError
| CredentialError
| QuotaError
| ServiceUnavailableError
| ValidationError
| UnknownError.

Definition categoryMessage (c : ErrorCategory) : string :=
  match c with
  | ConfigurationError => configurationMessage
  | CredentialError => credentialMessage
  | QuotaError => quotaMessage
  | ServiceUnavailableError => unavailableMessage
  | ValidationError => blockedMessage
  | UnknownError => unexpectedMessage
  end.

Definition rules : list (list string * ErrorCategory) :=
  [ (["api key not valid"], ConfigurationError);
    (["requested entity was not found"], CredentialError);
    (["quota"], QuotaError);
    (["503"; "unavailable"], ServiceUnavailableError);
    (["invalid argument"; "request was blocked"], ValidationError) ].

(** [raw] contains [pattern], letter case ignored. *)
Definition containsCI (pattern raw : string) : bool :=
  Js.includes pattern (Js.toLowerCase raw).

Definition ruleMatches (raw : string) (rule : list string * ErrorCategory) : bool :=
  existsb (fun pattern => containsCI pattern raw) (fst rule).

(** Ordered first-match scan of the rule list, as section 4.5 words it. *)
Definition normalize (raw : string) : ErrorCategory :=
  match List.find (ruleMatches raw) rules with
  | Some rule => snd rule
  | None => UnknownError
  end.

(** *** Render calls *)

(** The state right after one [generateContent] call. *)
Definition afterGenerate (req : GenerateContentRequest) (s : Sys) : Sys :=
  {| appState := appState s; log := log s ++ [EvGenerateContent req];
     nGenerate := S (nGenerate s); nPoll := nPoll s; nUrl := nUrl s;
     nRead := nRead s; nNow := nNow s;
       unmounted := unmounted s |}.

(** The service's answer makes the image call hand back the image [r]. *)
Definition returnsImage (c : Completion GenerateContentResponse) (r : string) : bool :=
  match c with
  | Ok response =>
      match firstInlineData (responseParts response) with
      | Some (Some d) => String.eqb d r && Js.truthy r
      | _ => false
      end
  | Fail _ => false
  end.

(** The error raised inside an image call, before its [catch] rewrites it:
    the service's own, or the missing-image error the call raises. *)
Definition rawFailure (noImage : string) (c : Completion GenerateContentResponse)
  : option Thrown :=
  match c with
  | Fail e => Some e
  | Ok response =>
      match firstInlineData (responseParts response) with
      | None => Some (ErrorObj noImage)
      | Some _ => None
      end
  end.

(** What an image call ends with, given the service's answer. *)
Definition imageCallOutcome (noImage : string) (c : Completion GenerateContentResponse)
  : Outcome (option string) :=
  match c with
  | Ok response =>
      match firstInlineData (responseParts response) with
      | Some d => Returned d
      | None => Threw (ErrorObj (parseGeminiError (ErrorObj noImage)))
      end
  | Fail e => Threw (ErrorObj (parseGeminiError e))
  end.

Definition renderRequest (img : UploadedImage) (g : Gender) (outfit : list TryOnItem)
  : GenerateContentRequest :=
  tryOnRequest (base64 img) (mimeType img) outfit g.

(** The render calls for [outfits], numbered from [i] on, hand back the
    images [imgs], one per outfit. *)
Fixpoint rendersImages (w : World) (i : nat) (img : UploadedImage) (g : Gender)
    (outfits : list (list TryOnItem)) (imgs : list string) : bool :=
  match outfits, imgs with
  | [], [] => true
  | outfit :: os, r :: rs =>
      returnsImage (generateContent w i (renderRequest img g outfit)) r
      && rendersImages w (S i) img g os rs
  | _, _ => false
  end.

(** A render call succeeds: it returns, handing back the data [d] of the
    first inline part of the answer (possibly no data at all). *)
Definition returnsData (c : Completion GenerateContentResponse) (d : option string) : Prop :=
  exists response, c = Ok response /\ firstInlineData (responseParts response) = Some d.

(** The render calls for [outfits], numbered from [i] on, succeed and hand
    back [datas], one per outfit. *)
Fixpoint rendersData (w : World) (i : nat) (img : UploadedImage) (g : Gender)
    (outfits : list (list TryOnItem)) (datas : list (option string)) : Prop :=
  match outfits, datas with
  | [], [] => True
  | outfit :: os, d :: ds =>
      returnsData (generateContent w i (renderRequest img g outfit)) d
      /\ rendersData w (S i) img g os ds
  | _, _ => False
  end.

(** The results the loop keeps: [if (result)]. *)
Fixpoint kept (datas : list (option string)) : list string :=
  match datas with
  | [] => []
  | Some r :: ds => if Js.truthy r then r :: kept ds else kept ds
  | None :: ds => kept ds
  end.

Definition noPlaceholder (outfitsToTry : list (list TryOnItem)) : bool :=
  negb (existsb (fun item => negb (Js.truthy (base64 (image (baseItem item)))))
                (concat outfitsToTry)).

(** The component state once lines 179-183 have run. *)
Definition started (st : AppState) : AppState :=
  withError None (withGeneratedVideoUrl None (withGeneratedImages [] (withIsLoading true st))).

(** The state after the render calls for [outfits] have all handed back an
    image, [published] being the buffer last given to [setGeneratedImages]. *)
Definition afterRenders (img : UploadedImage) (g : Gender) (outfits : list (list TryOnItem))
    (published : list string) (s : Sys) : Sys :=
  {| appState := withGeneratedImages published (appState s);
     log := log s ++ map (fun o => EvGenerateContent (renderRequest img g o)) outfits;
     nGenerate := nGenerate s + length outfits; nPoll := nPoll s; nUrl := nUrl s;
     nRead := nRead s; nNow := nNow s;
       unmounted := unmounted s |}.

(** C1 as stated, for a run on state [s]: with the combinations
    [before ++ failing :: after], the calls for [before] succeeding (none of
    them throws) and the call for [failing] throwing, the run makes
    [length before + 1] calls, the result buffer holds [length before]
    images, and the error is the normalised message of the failing call. *)
Definition failFastAsSpecified (w : World) (budget : nat) (s : Sys) : Prop :=
  forall img before failing after raw,
    selectedImage (appState s) = Some img ->
    mode (appState s) = TryOn ->
    generateOutfitCombinations (selectedItems (appState s)) = before ++ failing :: after ->
    (forall i outfit,
       nth_error before i = Some outfit ->
       rawFailure noImageTryOnMessage
         (generateContent w (nGenerate s + i)
            (renderRequest img (gender (appState s)) outfit)) = None) ->
    rawFailure noImageTryOnMessage
      (generateContent w (nGenerate s + length before)
         (renderRequest img (gender (appState s)) failing)) = Some raw ->
    let end_ := handleGenerate w budget s in
    nGenerate (snd end_) = nGenerate s + (length before + 1) /\
    length (generatedImages (appState (snd end_))) = length before /\
    error (appState (snd end_)) = Some (parseGeminiError raw).

(** *** Workspace entries *)

(** The entry built for the result at [index] (from 0), its object URL
    being the [urlIndex]-th one minted. *)
Definition workspaceEntry (w : World) (img : UploadedImage) (index urlIndex : nat)
    (result : string) : UploadedImage :=
  {| base64 := result; mimeType := "image/png"; url := createObjectURL w urlIndex;
     imgName := ("try-on-" ++ natText (index + 1) ++ "-" ++ imgName img)%string |}.

Fixpoint workspaceEntries (w : World) (img : UploadedImage) (index urlIndex : nat)
    (results : list string) : list UploadedImage :=
  match results with
  | [] => []
  | r :: rs =>
      workspaceEntry w img index urlIndex r
        :: workspaceEntries w img (S index) (S urlIndex) rs
  end.

(** Every result is accepted by [atob]. *)
Definition decodable (w : World) (results : list string) : bool :=
  forallb (fun r => match atob w r with Ok _ => true | Fail _ => false end) results.

Definition afterMaterialize (results : list string) (s : Sys) : Sys :=
  {| appState := appState s; log := log s ++ repeat EvCreateObjectURL (length results);
     nGenerate := nGenerate s; nPoll := nPoll s; nUrl := nUrl s + length results;
     nRead := nRead s; nNow := nNow s;
       unmounted := unmounted s |}.

Definition withAppOf (f : AppState -> AppState) (s : Sys) : Sys :=
  {| appState := f (appState s); log := log s; nGenerate := nGenerate s; nPoll := nPoll s;
     nUrl := nUrl s; nRead := nRead s; nNow := nNow s;
       unmounted := unmounted s |}.

(** The component state once lines 214-217 have run on the new-entry array
    [entries] and React has rendered. *)
Definition published (w : World) (entries : list UploadedImage) (st : AppState) : AppState :=
  let st' := withWorkspaceItems (rev entries ++ workspaceItems st) st in
  match match updaterRun w with
        | DuringSetState => rev entries
        | DuringNextRender => entries
        end with
  | first :: _ => withSelectedImage (Some first) st'
  | [] => st'
  end.

(** C6 as stated, read on the state a run ends in: every image of the
    result buffer has a workspace entry carrying it. *)
Definition allMaterialized (st : AppState) : Prop :=
  forall r, In r (generatedImages st) ->
            exists entry, In entry (workspaceItems st) /\ base64 entry = r.

(** C10 as stated, on the state a run ends in: the selected image carries
    the last image of the result buffer. *)
Definition selectsLastResult (st : AppState) : Prop :=
  exists entry r,
    selectedImage st = Some entry /\
    nth_error (generatedImages st) (length (generatedImages st) - 1) = Some r /\
    base64 entry = r.

(** *** The video poller *)

(** The operations the poller sees: it holds [cur]; each entry of [next]
    is the answer to the poll made with the operation before it; every
    operation polled is not done and the last one reached is. *)
Fixpoint pollChain (w : World) (i : nat) (cur : VideoOperation)
    (next : list VideoOperation) : Prop :=
  match next with
  | [] => done cur = true
  | op :: rest =>
      done cur = false /\ getVideosOperation w i cur = Ok op /\ pollChain w (S i) op rest
  end.

Fixpoint reached (cur : VideoOperation) (next : list VideoOperation) : VideoOperation :=
  match next with
  | [] => cur
  | op :: rest => reached op rest
  end.

(** The operations handed to [getVideosOperation], in order. *)
Fixpoint polled (cur : VideoOperation) (next : list VideoOperation) : list VideoOperation :=
  match next with
  | [] => []
  | op :: rest => cur :: polled op rest
  end.

Definition pollEvents (ops : list VideoOperation) : list Event :=
  flat_map (fun op => [EvSleep 10000%N; EvGetVideosOperation op]) ops.

Definition afterPolls (cur : VideoOperation) (next : list VideoOperation) (s : Sys) : Sys :=
  {| appState := appState s; log := log s ++ pollEvents (polled cur next);
     nGenerate := nGenerate s; nPoll := nPoll s + length next; nUrl := nUrl s;
     nRead := nRead s; nNow := nNow s;
       unmounted := unmounted s |}.

(** Section 4.4, last clause, as stated: a completed operation that carries
    a download reference makes the call return a URL. *)
Definition returnsUrlWhenLinked (w : World) (budget : nat) (b m prompt : string)
    (ratio : AspectRatio) (res : string) (s : Sys) : Prop :=
  forall op link,
    generateVideos w (videoRequest b m prompt ratio res) = Ok op ->
    done op = true -> uri op = Some link -> Js.truthy link = true ->
    exists videoUrl, fst (generateVideo w budget b m prompt ratio res s) = Returned videoUrl.

(** *** The credential gate *)

(** The state in which [generateVideo] is called: lines 179-183 have run
    and the credential check has been made. *)
Definition afterKeyCheck (s : Sys) : Sys :=
  {| appState := started (appState s); log := log s ++ [EvHasSelectedApiKey];
     nGenerate := nGenerate s; nPoll := nPoll s; nUrl := nUrl s;
     nRead := nRead s; nNow := nNow s;
       unmounted := unmounted s |}.

(** Section 4.3, video, as stated for a non-empty prompt. *)
Definition credentialGateAsSpecified (w : World) (budget : nat) (s : Sys) : Prop :=
  mode (appState s) = Video ->
  videoPrompt (appState s) <> EmptyString ->
  hasSelectedApiKey w = false ->
  let end_ := handleGenerate w budget s in
  In EvOpenSelectKey (log (snd end_)) /\
  isApiKeySelected (appState (snd end_)) = true /\
  error (appState (snd end_)) = Some retryMessage.

(** *** The classification queue *)

Definition cooldown : Event := EvSleep 4500%N.

(** The events of one file of a batch: its task becomes pending, the file
    is read, at most one classification request is sent, the task reaches
    [Done] or [Failed], and the cooldown is waited for. *)
Inductive FileSegment (file : File) (id : string) : list Event -> Prop :=
| SegmentClassified (cat : string) (req : GenerateContentRequest) :
    FileSegment file id
      [EvCreateObjectURL; EvTaskPending id; EvReadFile file; EvGenerateContent req;
       EvTaskDone id cat; cooldown]
| SegmentClassifyFailed (msg : string) (req : GenerateContentRequest) :
    FileSegment file id
      [EvCreateObjectURL; EvTaskPending id; EvReadFile file; EvGenerateContent req;
       EvTaskFailed id msg; cooldown]
| SegmentReadFailed (msg : string) :
    FileSegment file id
      [EvCreateObjectURL; EvTaskPending id; EvReadFile file;
       EvTaskFailed id msg; cooldown].

(** The events of a batch: the segments of its files, one after the other,
    in submission order. *)
Inductive BatchTrace : list File -> list Event -> Prop :=
| BatchDone : BatchTrace [] []
| BatchNext (file : File) (id : string) (files : list File) (seg rest : list Event) :
    FileSegment file id seg -> BatchTrace files rest ->
    BatchTrace (file :: files) (seg ++ rest).

(** The task transitions into [Done] and [Failed]. *)
Definition terminalEvent (ev : Event) : bool :=
  match ev with
  | EvTaskDone _ _ | EvTaskFailed _ _ => true
  | _ => false
  end.

(** The identifier given to [file] when it is taken up in state [s]. *)
Definition tempIdAt (w : World) (s : Sys) (file : File) : string :=
  (numText (dateNow w (nNow s)) ++ "-" ++ fileName file)%string.

(** The task of [file], taken up in state [s], with [msg] attached. *)
Definition failedTask (w : World) (s : Sys) (file : File) (msg : string) : ClassifyingItem :=
  {| taskId := tempIdAt w s file; taskName := fileName file;
     taskUrl := createObjectURL w (nUrl s); taskError := Some msg |}.

End Spec.

(** ** Concrete data for the examples *)

Module Sample.

Import Engine GeminiService ImageUtils App.

Definition imgOf (n : string) : UploadedImage :=
  {| base64 := "aGk="; mimeType := "image/png"; url := ("blob:" ++ n)%string;
     imgName := (n ++ ".png")%string |}.

Definition itA : FilterItem := mkItem "1-a.png" "a" (imgOf "a").
Definition itB : FilterItem := mkItem "2-b.png" "b" (imgOf "b").
Definition itC : FilterItem := mkItem "3-c.png" "c" (imgOf "c").

Definition photo : UploadedImage :=
  {| base64 := "cGhvdG8="; mimeType := "image/jpeg"; url := "blob:photo";
     imgName := "me.jpg" |}.

Definition topsOnly : SelectedItems := mkSelected [] [itA; itB] [] [] [] [].
Definition twoTopsOneBottom : SelectedItems := mkSelected [] [itA; itB] [itC] [] [] [].

(** A response carrying one text part and one image part. *)
Definition imageResponse (d : string) : GenerateContentResponse :=
  mkResponse
    (Some [mkCandidate (Some (mkContent (Some
       [mkPart None (Some "Here you go"); mkPart (Some (mkInline (Some d) "image/png")) None])))])
    "".

(** A response with a text part only. *)
Definition textOnlyResponse : GenerateContentResponse :=
  mkResponse (Some [mkCandidate (Some (mkContent (Some [mkPart None (Some "Sorry")])))]) "".

(** A response whose image part has no data. *)
Definition hollowResponse : GenerateContentResponse :=
  mkResponse
    (Some [mkCandidate (Some (mkContent (Some
       [mkPart (Some (mkInline None "image/png")) None])))])
    "".

Definition emptyCatalogue : gmap string (list FilterItem) := ∅.

Definition appWith (m : CreativeMode) (sel : SelectedItems) (prompt : string) : AppState :=
  {| mode := m; selectedImage := Some photo; workspaceItems := [photo];
     generatedImages := []; generatedVideoUrl := None; isLoading := false;
     error := None; gender := female; classifyingItems := [];
     isApiKeySelected := false; editPrompt := prompt; videoPrompt := prompt;
     videoAspectRatio := Portrait; femaleCatalogue := emptyCatalogue;
     maleCatalogue := emptyCatalogue; selectedItems := sel |}.

Definition sysOf (a : AppState) : Sys :=
  {| appState := a; log := []; nGenerate := 0; nPoll := 0; nUrl := 0; nRead := 0; nNow := 0;
     unmounted := false |}.

Definition objectUrl (i : nat) : string := ("blob:generated-" ++ natText i)%string.

(** A world whose image service answers the calls of one handler run from a
    script: call [i] gets the [i]-th entry, later calls are rejected. *)
Definition scriptedWorld (script : list (Completion GenerateContentResponse))
    (timing : UpdaterRun) : World :=
  {| API_KEY := "k";
     generateContent := fun i _ => nth i script (Fail (ErrorObj "503 Service Unavailable"));
     generateVideos := fun _ => Fail (ErrorObj "Requested entity was not found.");
     getVideosOperation := fun _ op => Ok op;
     fetch := fun _ => Fail NonError;
     parseCategory := fun t => if Js.truthy t then Ok (Some t) else Ok None;
     atob := fun b => Ok b;
     createObjectURL := objectUrl;
     readAsDataURL := fun _ f => LoadEnd ("data:" ++ fileType f ++ ";base64,aGk=")%string;
     dateNow := fun i => (1700000000000 + 5000 * N.of_nat i)%N;
     hasSelectedApiKey := false;
     updaterRun := timing |}.

(** A world for the video workflow: the answer to the submission, the
    answers to the successive polls, the answer to the download. *)
Definition videoWorld (first : Completion VideoOperation)
    (polls : list (Completion VideoOperation)) (fetched : Completion FetchResponse)
    (hasKey : bool) : World :=
  {| API_KEY := "k";
     generateContent := fun _ _ => Fail NonError;
     generateVideos := fun _ => first;
     getVideosOperation := fun i _ => nth i polls (Fail (ErrorObj "503 Service Unavailable"));
     fetch := fun _ => fetched;
     parseCategory := fun _ => Ok None;
     atob := fun b => Ok b;
     createObjectURL := objectUrl;
     readAsDataURL := fun _ _ => ReadError;
     dateNow := fun i => (1700000000000 + 5000 * N.of_nat i)%N;
     hasSelectedApiKey := hasKey;
     updaterRun := DuringNextRender |}.

Definition pendingOp : VideoOperation := {| done := false; uri := None |}.
Definition finishedOp : VideoOperation := {| done := true; uri := Some "https://video/1?alt=media" |}.
Definition emptyOp : VideoOperation := {| done := true; uri := None |}.

Definition videoBytes : Blob := {| blobBytes := [0; 0; 0; 24]; blobType := "video/mp4" |}.
Definition okDownload : FetchResponse :=
  {| ok := true; statusText := "OK"; body := Ok videoBytes |}.
Definition forbiddenDownload : FetchResponse :=
  {| ok := false; statusText := "Forbidden"; body := Ok videoBytes |}.

(** A world for uploads: the outcome of reading each file and the answer
    to each classification request, by position. *)
Definition uploadWorld (reads : list FileReaderOutcome)
    (answers : list (Completion GenerateContentResponse)) : World :=
  {| API_KEY := "k";
     generateContent := fun i _ => nth i answers (Fail (ErrorObj "503 Service Unavailable"));
     generateVideos := fun _ => Fail NonError;
     getVideosOperation := fun _ op => Ok op;
     fetch := fun _ => Fail NonError;
     parseCategory := fun t => if Js.truthy t then Ok (Some t) else Ok None;
     atob := fun b => Ok b;
     createObjectURL := objectUrl;
     readAsDataURL := fun i _ => nth i reads ReadError;
     dateNow := fun i => (1700000000000 + 5000 * N.of_nat i)%N;
     hasSelectedApiKey := false;
     updaterRun := DuringNextRender |}.

Definition categoryResponse (cat : string) : GenerateContentResponse :=
  mkResponse (Some [mkCandidate (Some (mkContent (Some [mkPart None (Some cat)])))]) cat.

Definition dressFile : File := mkFile "dress.png" "image/png".
Definition hatFile : File := mkFile "hat.jpg" "image/jpeg".
Definition bootsFile : File := mkFile "boots.png" "image/png".

End Sample.

(** ** [App.tsx], lines 266-268, and [components/ResultDisplay.tsx] *)

Module Ui.

Import Engine GeminiService ImageUtils App.

(** [Object.values(selectedItems).flat()], the keys in the order of
    [initialSelected]. *)
Definition itemsToTryOn (sel : SelectedItems) : list FilterItem :=
  outfits sel ++ tops sel ++ bottoms sel ++ footwear sel ++ headwear sel
    ++ accessories sel.

Definition isGenerateDisabled (st : AppState) : bool :=
  isLoading st
  || match selectedImage st with Some _ => false | None => true end
  || (match mode st with TryOn => true | _ => false end
      && (length (itemsToTryOn (selectedItems st)) =? 0)%nat).

(** What [ResultDisplay] renders (the elapsed-time footer left out). *)
Inductive View :=
| Spinner (loadingText subText : string)
| ErrorPanel (message : string)
| VideoPlayer (src : string)
| ImageGrid (images : list string) (generatingMore : bool)
| Placeholder.

Definition ResultDisplay (st : AppState) : View :=
  let hasImageResults := (0 <? length (generatedImages st))%nat in
  let hasVideoResult := Js.truthyOpt (generatedVideoUrl st) in
  if isLoading st && negb hasImageResults && negb hasVideoResult then
    match mode st with
    | Video => Spinner "Generating your video..."
                       "This can take a few minutes. Please be patient."
    | Edit => Spinner "Applying your edit..." "This may take a moment."
    | TryOn => Spinner "Styling your look(s)..." "This may take a moment."
    end
  else if Js.truthyOpt (error st) then
    match error st with
    | Some message => ErrorPanel message
    | None => Placeholder
    end
  else
    match generatedVideoUrl st with
    | Some src =>
        if Js.truthy src then VideoPlayer src
        else if hasImageResults then ImageGrid (generatedImages st) (isLoading st)
        else Placeholder
    | None =>
        if hasImageResults then ImageGrid (generatedImages st) (isLoading st)
        else Placeholder
    end.

End Ui.

(** ** [App.tsx], lines 155-171: the gender and mode switches *)

Module Switches.

Import App.

Definition withMode (v : CreativeMode) (st : AppState) : AppState :=
  {| mode := v; selectedImage := selectedImage st; workspaceItems := workspaceItems st;
     generatedImages := generatedImages st; generatedVideoUrl := generatedVideoUrl st;
     isLoading := isLoading st; error := error st; gender := gender st;
     classifyingItems := classifyingItems st; isApiKeySelected := isApiKeySelected st;
     editPrompt := editPrompt st; videoPrompt := videoPrompt st;
     videoAspectRatio := videoAspectRatio st; femaleCatalogue := femaleCatalogue st;
     maleCatalogue := maleCatalogue st; selectedItems := selectedItems st |}.

Definition setMode (v : CreativeMode) : Exec unit := modifyApp (withMode v).

Definition withGender (v : Gender) (st : AppState) : AppState :=
  {| mode := mode st; selectedImage := selectedImage st; workspaceItems := workspaceItems st;
     generatedImages := generatedImages st; generatedVideoUrl := generatedVideoUrl st;
     isLoading := isLoading st; error := error st; gender := v;
     classifyingItems := classifyingItems st; isApiKeySelected := isApiKeySelected st;
     editPrompt := editPrompt st; videoPrompt := videoPrompt st;
     videoAspectRatio := videoAspectRatio st; femaleCatalogue := femaleCatalogue st;
     maleCatalogue := maleCatalogue st; selectedItems := selectedItems st |}.

Definition setGender (v : Gender) : Exec unit := modifyApp (withGender v).

Definition withSelectedItems (v : SelectedItems) (st : AppState) : AppState :=
  {| mode := mode st; selectedImage := selectedImage st; workspaceItems := workspaceItems st;
     generatedImages := generatedImages st; generatedVideoUrl := generatedVideoUrl st;
     isLoading := isLoading st; error := error st; gender := gender st;
     classifyingItems := classifyingItems st; isApiKeySelected := isApiKeySelected st;
     editPrompt := editPrompt st; videoPrompt := videoPrompt st;
     videoAspectRatio := videoAspectRatio st; femaleCatalogue := femaleCatalogue st;
     maleCatalogue := maleCatalogue st; selectedItems := v |}.

Definition setSelectedItems (v : SelectedItems) : Exec unit := modifyApp (withSelectedItems v).

Definition initialSelected : SelectedItems := mkSelected [] [] [] [] [] [].

Definition sameGender (a b : Gender) : bool :=
  match a, b with
  | female, female | male, male => true
  | _, _ => false
  end.

Definition sameMode (a b : CreativeMode) : bool :=
  match a, b with
  | TryOn, TryOn | Edit, Edit | Video, Video => true
  | _, _ => false
  end.

Definition handleGenderChange (newGender : Gender) : Exec unit :=
  do st <- getApp;
  if negb (sameGender (gender st) newGender) then
    run setGender newGender;
    run setSelectedItems initialSelected;
    setError None
  else ret tt.

(** [handleModeChange]; [setElapsedTime] is left out, as in
    [handleGenerate]. *)
Definition handleModeChange (newMode : CreativeMode) : Exec unit :=
  do st <- getApp;
  if negb (sameMode (mode st) newMode) then
    run setMode newMode;
    run setGeneratedImages [];
    run setGeneratedVideoUrl None;
    setError None
  else ret tt.

End Switches.

(** ** Further vocabulary for the statements *)

Module Notions.

Import Engine GeminiService ImageUtils App Spec.

(** The arrays [cartesian] keeps. *)
Definition nonEmptyArrays {T} (arrays : list (list T)) : list (list T) :=
  List.filter (fun arr => (0 <? length arr)%nat) arrays.

(** [picks] takes one element from each array, in order. *)
Definition oneFromEach {T} (picks : list T) (arrays : list (list T)) : Prop :=
  Forall2 (fun x arr => In x arr) picks arrays.

(** The number of choices a category offers: its size, or one when it is
    empty and hence skipped. *)
Definition choices {T} (arr : list T) : nat := Nat.max 1 (length arr).

Definition tagIf {T} (arr : list T) (tag : string) : list string :=
  match arr with [] => [] | _ :: _ => [tag] end.

(** The categories of the items of a combination, in order. *)
Definition signature (sel : SelectedItems) : list string :=
  match outfits sel with
  | _ :: _ => ["outfits"]
  | [] => tagIf (tops sel) "tops" ++ tagIf (bottoms sel) "bottoms"
  end
  ++ tagIf (footwear sel) "footwear" ++ tagIf (headwear sel) "headwear"
  ++ tagIf (accessories sel) "accessories".

(** The six messages of [parseGeminiError]. *)
Definition friendlyMessages : list string :=
  [configurationMessage; credentialMessage; quotaMessage; unavailableMessage;
   blockedMessage; unexpectedMessage].


Definition isSleep (ev : Event) : bool :=
  match ev with EvSleep _ => true | _ => false end.

Definition isRequest (ev : Event) : bool :=
  match ev with EvGenerateContent _ => true | _ => false end.

Definition isReadOk (o : FileReaderOutcome) : bool :=
  match o with LoadEnd _ => true | _ => false end.

(** No character of [s] is [c]. *)
Fixpoint lacks (c : ascii) (s : string) : bool :=
  match s with
  | EmptyString => true
  | String x s' => negb (Ascii.eqb x c) && lacks c s'
  end.

(** The catalogue [handleItemAdd] writes to, and the other one. *)
Definition catalogueOf (g : Gender) (st : AppState) : gmap string (list FilterItem) :=
  match g with female => femaleCatalogue st | male => maleCatalogue st end.

Definition otherGender (g : Gender) : Gender :=
  match g with female => male | male => female end.

(** The item [processFile] files for [file] taken up in state [s], its data
    being [b64]. *)
Definition uploadedItem (w : World) (s : Sys) (file : File) (b64 : string) : FilterItem :=
  {| itemId := tempIdAt w s file; itemName := styleName (fileName file);
     image := {| base64 := b64; mimeType := fileType file;
                 url := createObjectURL w (nUrl s); imgName := fileName file |} |}.

(** What the reader hands to [handleStyleUpload]: the part of the data URL
    after its first comma, or the message of the rejection. *)
Definition readAnswer (o : FileReaderOutcome) : string + string :=
  match o with
  | LoadEnd result => inl (nth 1 (split "," result) EmptyString)
  | LoadEndNoString => inr "Failed to read file as a data URL string."
  | ReadError => inr "There was an error reading the file."
  end.

(** What a classification call ends with, given the service's answer: the
    category returned, or the message of the error thrown. *)
Definition classifyAnswer (w : World) (c : Completion GenerateContentResponse)
  : string + string :=
  match c with
  | Ok response =>
      match parseCategory w (responseText response) with
      | Ok (Some cat) =>
          if Js.truthy cat then inl cat
          else inr (parseGeminiError (ErrorObj noCategoryMessage))
      | Ok None => inr (parseGeminiError (ErrorObj noCategoryMessage))
      | Fail e => inr (parseGeminiError e)
      end
  | Fail e => inr (parseGeminiError e)
  end.

(** The task [handleStyleUpload] opens for [file] taken up in state [s]. *)
Definition pendingTask (w : World) (s : Sys) (file : File) : ClassifyingItem :=
  {| taskId := tempIdAt w s file; taskName := fileName file;
     taskUrl := createObjectURL w (nUrl s); taskError := None |}.

(** The two updates of the pending set: the message attached to the tasks
    named [id], and the tasks named [id] dropped. *)
Definition attachError (id msg : string) (tasks : list ClassifyingItem)
  : list ClassifyingItem :=
  map (fun item =>
         if String.eqb (taskId item) id
         then mkClassifying (taskId item) (taskName item) (taskUrl item) (Some msg)
         else item) tasks.

Definition dropTask (id : string) (tasks : list ClassifyingItem) : list ClassifyingItem :=
  List.filter (fun item => negb (String.eqb (taskId item) id)) tasks.

(** The component state with [next] for the catalogue of [g]. *)
Definition withCatalogue (g : Gender) (next : gmap string (list FilterItem))
    (st : AppState) : AppState :=
  match g with
  | female => withFemaleCatalogue next st
  | male => withMaleCatalogue next st
  end.

(** [category] can be filed in [catalogue]: it has an entry of its own
    there, or it is no property name of [Object.prototype]. *)
Definition fileable (cat : string) (catalogue : gmap string (list FilterItem)) : bool :=
  match catalogue !! cat with
  | Some _ => true
  | None => negb (Js.inherited cat)
  end.

(** The state [processFile] leaves: [calls] are the classification requests
    sent, [st'] the component state, [final] the terminal transition, and
    [gone] tells whether the tree is unmounted. *)
Definition uploadEnd (w : World) (s : Sys) (file : File)
    (calls : list GenerateContentRequest) (st' : AppState) (final : Event)
    (gone : bool) : Sys :=
  {| appState := st';
     log := log s ++ [EvCreateObjectURL; EvTaskPending (tempIdAt w s file); EvReadFile file]
                  ++ map EvGenerateContent calls ++ [final; cooldown];
     nGenerate := nGenerate s + length calls; nPoll := nPoll s; nUrl := S (nUrl s);
     nRead := S (nRead s); nNow := S (nNow s);
       unmounted := gone |}.

(** The component state after a failed and after a successful upload of
    [file], taken up in state [s]. *)
Definition failedUpload (w : World) (s : Sys) (file : File) (msg : string) : AppState :=
  withClassifyingItems
    (attachError (tempIdAt w s file) msg
       (classifyingItems (appState s) ++ [pendingTask w s file]))
    (appState s).

Definition filedUpload (w : World) (g : Gender) (s : Sys) (file : File)
    (next : gmap string (list FilterItem)) : AppState :=
  withClassifyingItems
    (dropTask (tempIdAt w s file)
       (classifyingItems (appState s) ++ [pendingTask w s file]))
    (withCatalogue g next (appState s)).

(** What the handlers have written when the updater of the catalogue
    threw: the task dropped, the catalogues as they were. *)
Definition unfiledUpload (w : World) (s : Sys) (file : File) : AppState :=
  withClassifyingItems
    (dropTask (tempIdAt w s file)
       (classifyingItems (appState s) ++ [pendingTask w s file]))
    (appState s).

(** The state one file of a batch leaves, read off the reader and the
    service. *)
Definition afterFile (w : World) (g : Gender) (file : File) (s : Sys) : Sys :=
  match readAnswer (readAsDataURL w (nRead s) file) with
  | inl b64 =>
      let req := classifyRequest b64 (fileType file) in
      match classifyAnswer w (generateContent w (nGenerate s) req) with
      | inl cat =>
          match addToCatalogue (uploadedItem w s file b64) cat
                  (catalogueOf g (appState s)) with
          | Some next =>
              uploadEnd w s file [req] (filedUpload w g s file next)
                (EvTaskDone (tempIdAt w s file) cat) (unmounted s)
          | None =>
              uploadEnd w s file [req] (unfiledUpload w s file)
                (EvTaskDone (tempIdAt w s file) cat) true
          end
      | inr msg =>
          uploadEnd w s file [req] (failedUpload w s file msg)
            (EvTaskFailed (tempIdAt w s file) msg) (unmounted s)
      end
  | inr msg =>
      uploadEnd w s file [] (failedUpload w s file msg)
        (EvTaskFailed (tempIdAt w s file) msg) (unmounted s)
  end.

(** What a batch of [n] files may change between [s] and [s']: the
    catalogue of [g] grows at the end of its entries, by at most [n] items
    per category; the other catalogue and the state of the generation runs
    stay; one object URL is minted and one cooldown waited per file. *)
Definition uploadFrame (g : Gender) (n : nat) (s s' : Sys) : Prop :=
  catalogueOf (otherGender g) (appState s') = catalogueOf (otherGender g) (appState s) /\
  (forall k, exists added,
      default [] (catalogueOf g (appState s') !! k)
      = default [] (catalogueOf g (appState s) !! k) ++ added /\
      length added <= n) /\
  (workspaceItems (appState s') = workspaceItems (appState s) /\
   selectedImage (appState s') = selectedImage (appState s) /\
   generatedImages (appState s') = generatedImages (appState s) /\
   selectedItems (appState s') = selectedItems (appState s) /\
   error (appState s') = error (appState s)) /\
  nGenerate s' <= nGenerate s + n /\
  nUrl s' = nUrl s + n /\
  length (List.filter isSleep (log s')) = length (List.filter isSleep (log s)) + n.

(** [s'] has the log of [s], followed by further events. *)
Definition extends (s s' : Sys) : Prop := exists evs, log s' = log s ++ evs.

End Notions.

(** ** Further concrete data *)

Module Scenario.

Import Engine GeminiService ImageUtils App Spec Sample.

Definition placeholderItem : FilterItem :=
  mkItem "p-1" "Placeholder dress"
    {| base64 := ""; mimeType := "image/png"; url := "/placeholder.png";
       imgName := "placeholder.png" |}.

Definition nothingSelected : SelectedItems := mkSelected [] [] [] [] [] [].

(** A world like [scriptedWorld] whose [atob] refuses the string [bad]. *)
Definition pickyWorld (script : list (Completion GenerateContentResponse)) (bad : string)
  : World :=
  {| API_KEY := "k";
     generateContent := fun i _ => nth i script (Fail (ErrorObj "503 Service Unavailable"));
     generateVideos := fun _ => Fail NonError;
     getVideosOperation := fun _ op => Ok op;
     fetch := fun _ => Fail NonError;
     parseCategory := fun t => if Js.truthy t then Ok (Some t) else Ok None;
     atob := fun b => if String.eqb b bad
                      then Fail (ErrorObj "The string to be decoded is not correctly encoded.")
                      else Ok b;
     createObjectURL := objectUrl;
     readAsDataURL := fun _ _ => ReadError;
     dateNow := fun i => (1700000000000 + 5000 * N.of_nat i)%N;
     hasSelectedApiKey := false;
     updaterRun := DuringNextRender |}.

(** A world whose video operation never completes. *)
Definition stuckWorld : World :=
  {| API_KEY := "k";
     generateContent := fun _ _ => Fail NonError;
     generateVideos := fun _ => Ok pendingOp;
     getVideosOperation := fun _ _ => Ok pendingOp;
     fetch := fun _ => Fail NonError;
     parseCategory := fun _ => Ok None;
     atob := fun b => Ok b;
     createObjectURL := objectUrl;
     readAsDataURL := fun _ _ => ReadError;
     dateNow := fun i => (1700000000000 + 5000 * N.of_nat i)%N;
     hasSelectedApiKey := true;
     updaterRun := DuringNextRender |}.

End Scenario.

(** * Properties *)

Import Engine GeminiService ImageUtils App Spec Sample.

(** ** The combination engine *)

Section Cartesian.

Context {T : Type}.

Lemma cartesianStep_singletons (val : list T) :
  cartesianStep [[]] val = map (fun e => [e]) val.
Proof.
  unfold cartesianStep. simpl. now rewrite app_nil_r.
Qed.

Lemma cartesianStep_after_singletons (xs ys : list T) :
  cartesianStep (map (fun e => [e]) xs) ys = product xs ys.
Proof.
  unfold cartesianStep, product.
  induction xs as [|x xs IH]; simpl; [reflexivity|].
  now rewrite IH.
Qed.

Lemma cartesian_two_nonempty (xs ys : list T) :
  xs <> [] -> ys <> [] -> cartesian [xs; ys] = product xs ys.
Proof.
  intros Hx Hy.
  destruct xs as [|x xs]; [congruence|].
  destruct ys as [|y ys]; [congruence|].
  unfold cartesian. cbn [List.filter length Nat.ltb Nat.leb Nat.eqb fold_left].
  rewrite cartesianStep_singletons.
  apply cartesianStep_after_singletons.
Qed.

Lemma cartesian_left_only (xs : list T) :
  xs <> [] -> cartesian [xs; []] = map (fun e => [e]) xs.
Proof.
  intros Hx. destruct xs as [|x xs]; [congruence|].
  unfold cartesian. cbn [List.filter length Nat.ltb Nat.leb Nat.eqb fold_left].
  apply cartesianStep_singletons.
Qed.

Lemma cartesian_right_only (ys : list T) :
  ys <> [] -> cartesian [[]; ys] = map (fun e => [e]) ys.
Proof.
  intros Hy. destruct ys as [|y ys]; [congruence|].
  unfold cartesian. cbn [List.filter length Nat.ltb Nat.leb Nat.eqb fold_left].
  apply cartesianStep_singletons.
Qed.

(** Every element of a combination comes from one of the arrays (or from
    the seed combinations of the fold). *)
Lemma fold_cartesianStep_In (arrays : list (list T)) :
  forall (acc : list (list T)) (combo : list T) (x : T),
    In combo (fold_left cartesianStep arrays acc) -> In x combo ->
    (exists arr, In arr arrays /\ In x arr) \/ (exists d, In d acc /\ In x d).
Proof.
  induction arrays as [|val arrays IH]; intros acc combo x Hc Hx; simpl in Hc.
  - right. exists combo. split; assumption.
  - destruct (IH _ _ _ Hc Hx) as [[arr [Ha Hxa]] | [d [Hd Hxd]]].
    + left. exists arr. split; [right; assumption | assumption].
    + unfold cartesianStep in Hd. apply in_flat_map in Hd.
      destruct Hd as [d0 [Hd0 Hd]]. apply in_map_iff in Hd.
      destruct Hd as [e [<- He]]. apply in_app_or in Hxd.
      destruct Hxd as [Hxd | [<- | []]].
      * right. exists d0. split; assumption.
      * left. exists val. split; [left; reflexivity | assumption].
Qed.

Lemma cartesian_In (arrays : list (list T)) (combo : list T) (x : T) :
  In combo (cartesian arrays) -> In x combo -> exists arr, In arr arrays /\ In x arr.
Proof.
  unfold cartesian. intros Hc Hx.
  destruct (length _ =? 0)%nat.
  - destruct Hc as [<- | []]. destruct Hx.
  - destruct (fold_cartesianStep_In _ _ _ _ Hc Hx) as [[arr [Ha Hxa]] | [d [Hd Hxd]]].
    + exists arr. split; [|assumption]. apply filter_In in Ha. tauto.
    + destruct Hd as [<- | []]. destruct Hxd.
Qed.

End Cartesian.

Section BaseLayer.

Lemma outfits_test_false (sel : SelectedItems) :
  outfits sel = [] -> (0 <? length (outfits sel))%nat = false.
Proof. intros ->. reflexivity. Qed.

Lemma outfits_test_true (sel : SelectedItems) :
  outfits sel <> [] -> (0 <? length (outfits sel))%nat = true.
Proof. destruct (outfits sel); [congruence | reflexivity]. Qed.

Lemma map_nonempty {A B} (f : A -> B) (l : list A) : l <> [] -> map f l <> [].
Proof. destruct l; [congruence | discriminate]. Qed.

(** With only tops selected the base candidates are the tops, one each:
    the branch does produce base candidates although [bottoms] is empty. *)
Example baseItems_tops_only :
  baseItems topsOnly = [[toTryOnItem itA "tops"]; [toTryOnItem itB "tops"]].
Proof. reflexivity. Qed.

(** With neither tops nor bottoms selected the branch yields one candidate,
    the empty combination, and so does the engine when nothing at all is
    selected. *)
Example baseItems_nothing_selected :
  baseItems (mkSelected [] [] [] [] [] []) = [[]] /\
  generateOutfitCombinations (mkSelected [] [] [] [] [] []) = [[]].
Proof. split; reflexivity. Qed.

(** C2, as stated, fails: with [tops = [A; B]] and no bottoms the
    specified product is empty, the base candidates computed are not. *)
Lemma C2_base_layer_counterexample : ~ baseLayerAsSpecified topsOnly.
Proof.
  unfold baseLayerAsSpecified. intros H.
  specialize (H eq_refl). rewrite baseItems_tops_only in H. discriminate H.
Qed.

(** C2, amended: when [outfits] is empty, the base candidates are the
    product tops × bottoms, top-major, if both are non-empty (so
    [tops = [a; b]], [bottoms = [c]] and nothing else selected gives exactly
    [[a, c], [b, c]]); if exactly one of the two is empty they are the items
    of the other one, one candidate each, in selection order. *)
Theorem C2_base_layer (sel : SelectedItems) :
  outfits sel = [] ->
  (tops sel <> [] -> bottoms sel <> [] ->
     baseItems sel = product (asTops sel) (asBottoms sel)) /\
  (tops sel <> [] -> bottoms sel = [] ->
     baseItems sel = map (fun t => [t]) (asTops sel)) /\
  (tops sel = [] -> bottoms sel <> [] ->
     baseItems sel = map (fun b => [b]) (asBottoms sel)) /\
  (forall a b c,
     tops sel = [a; b] -> bottoms sel = [c] ->
     footwear sel = [] -> headwear sel = [] -> accessories sel = [] ->
     generateOutfitCombinations sel
     = [[toTryOnItem a "tops"; toTryOnItem c "bottoms"];
        [toTryOnItem b "tops"; toTryOnItem c "bottoms"]]).
Proof.
  intros Ho.
  assert (Hbase : baseItems sel = cartesian [asTops sel; asBottoms sel]).
  { unfold baseItems. now rewrite (outfits_test_false _ Ho). }
  repeat split.
  - intros Ht Hb. rewrite Hbase.
    apply cartesian_two_nonempty; apply map_nonempty; assumption.
  - intros Ht Hb. rewrite Hbase. unfold asBottoms. rewrite Hb. simpl map at 2.
    apply cartesian_left_only, map_nonempty, Ht.
  - intros Ht Hb. rewrite Hbase. unfold asTops. rewrite Ht. simpl map at 1.
    apply cartesian_right_only, map_nonempty, Hb.
  - intros a b c Ht Hb Hf Hh Ha.
    unfold generateOutfitCombinations, accessoryCombos.
    rewrite Hbase. unfold asTops, asBottoms. rewrite Ht, Hb, Hf, Hh, Ha.
    reflexivity.
Qed.

Lemma C2_base_layer_witness :
  outfits twoTopsOneBottom = [] /\
  generateOutfitCombinations twoTopsOneBottom
  = [[toTryOnItem itA "tops"; toTryOnItem itC "bottoms"];
     [toTryOnItem itB "tops"; toTryOnItem itC "bottoms"]].
Proof.
  split; [reflexivity|].
  exact (proj2 (proj2 (proj2 (C2_base_layer twoTopsOneBottom eq_refl)))
           itA itB itC eq_refl eq_refl eq_refl eq_refl eq_refl).
Defined.

End BaseLayer.

Section OutfitsExclusive.

Lemma accessoryCombos_categories (sel : SelectedItems) (combo : list TryOnItem) :
  In combo (accessoryCombos sel) ->
  Forall (fun it => isAccessoryCategory (category it) = true) combo.
Proof.
  intros Hc. apply List.Forall_forall. intros it Hit.
  destruct (cartesian_In _ _ _ Hc Hit) as [arr [Harr Hin]].
  destruct Harr as [<- | [<- | [<- | []]]];
    apply in_map_iff in Hin; destruct Hin as [item [<- _]]; reflexivity.
Qed.

Lemma accessoryCombos_withTopsBottoms (ts bs : list FilterItem) (sel : SelectedItems) :
  accessoryCombos (withTopsBottoms ts bs sel) = accessoryCombos sel.
Proof. reflexivity. Qed.

Lemma baseItems_outfits (sel : SelectedItems) :
  outfits sel <> [] ->
  baseItems sel = map (fun item => [toTryOnItem item "outfits"]) (outfits sel).
Proof.
  intros Ho. unfold baseItems. now rewrite (outfits_test_true _ Ho).
Qed.

Lemma generate_with_outfits (sel : SelectedItems) :
  outfits sel <> [] ->
  generateOutfitCombinations sel
  = flat_map (fun item => map (fun combo => toTryOnItem item "outfits" :: combo)
                              (accessoryCombos sel))
             (outfits sel).
Proof.
  intros Ho. unfold generateOutfitCombinations.
  rewrite (baseItems_outfits _ Ho).
  replace (length (map (fun item => [toTryOnItem item "outfits"]) (outfits sel)) =? 0)%nat
    with false by (destruct (outfits sel); [congruence | reflexivity]).
  clear Ho. induction (outfits sel) as [|x l IH]; simpl; [reflexivity|].
  now rewrite IH.
Qed.

(** C3: when [outfits] is non-empty, the base candidates are the outfits
    alone, one each, in selection order; every combination returned is one
    outfit item followed only by footwear, headwear or accessories items, the
    combinations of one outfit coming before those of the next; and the
    result is the same whatever [tops] and [bottoms] contain. *)
Theorem C3_outfits_exclusive (sel : SelectedItems) :
  outfits sel <> [] ->
  baseItems sel = map (fun item => [toTryOnItem item "outfits"]) (outfits sel) /\
  generateOutfitCombinations sel
  = flat_map (fun item => map (fun combo => toTryOnItem item "outfits" :: combo)
                              (accessoryCombos sel))
             (outfits sel) /\
  (forall combo, In combo (generateOutfitCombinations sel) ->
     exists item rest,
       combo = toTryOnItem item "outfits" :: rest /\ In item (outfits sel) /\
       Forall (fun it => isAccessoryCategory (category it) = true) rest /\
       Forall (fun it => category it <> "tops" /\ category it <> "bottoms") combo) /\
  (forall ts bs,
     generateOutfitCombinations (withTopsBottoms ts bs sel)
     = generateOutfitCombinations sel).
Proof.
  intros Ho. split; [apply baseItems_outfits, Ho|].
  split; [apply generate_with_outfits, Ho|].
  split.
  - intros combo Hc. rewrite (generate_with_outfits _ Ho) in Hc.
    apply in_flat_map in Hc. destruct Hc as [item [Hitem Hc]].
    apply in_map_iff in Hc. destruct Hc as [rest [<- Hrest]].
    exists item, rest. split; [reflexivity|]. split; [assumption|].
    pose proof (accessoryCombos_categories _ _ Hrest) as Hcat.
    split; [assumption|].
    constructor.
    + simpl. split; discriminate.
    + eapply List.Forall_impl; [|exact Hcat]. intros it Hit.
      unfold isAccessoryCategory in Hit.
      split; intros E; rewrite E in Hit; discriminate Hit.
  - intros ts bs.
    rewrite (generate_with_outfits (withTopsBottoms ts bs sel) Ho).
    rewrite (generate_with_outfits sel Ho).
    reflexivity.
Qed.

Lemma C3_outfits_exclusive_witness :
  outfits (mkSelected [itC] [itA; itB] [itA] [itB] [] []) <> [] /\
  generateOutfitCombinations (mkSelected [itC] [itA; itB] [itA] [itB] [] [])
  = [[toTryOnItem itC "outfits"; toTryOnItem itB "footwear"]].
Proof.
  assert (H : outfits (mkSelected [itC] [itA; itB] [itA] [itB] [] []) <> [])
    by discriminate.
  split; [exact H|].
  rewrite (proj1 (proj2 (C3_outfits_exclusive _ H))). reflexivity.
Defined.

End OutfitsExclusive.

(** ** The error normaliser *)

Section ErrorNormalizer.

(** [parseGeminiError] is the first-match scan of the rule list. *)
Lemma parseGeminiError_first_match (raw : string) :
  parseGeminiError (ErrorObj raw) = categoryMessage (normalize raw).
Proof.
  unfold parseGeminiError, normalize, rules.
  cbn [List.find ruleMatches existsb fst snd].
  unfold containsCI.
  destruct (Js.includes "api key not valid" (Js.toLowerCase raw)); [reflexivity|].
  destruct (Js.includes "requested entity was not found" (Js.toLowerCase raw));
    [reflexivity|].
  destruct (Js.includes "quota" (Js.toLowerCase raw)); [reflexivity|].
  destruct (Js.includes "503" (Js.toLowerCase raw)); [reflexivity|].
  destruct (Js.includes "unavailable" (Js.toLowerCase raw)); [reflexivity|].
  destruct (Js.includes "invalid argument" (Js.toLowerCase raw)); [reflexivity|].
  destruct (Js.includes "request was blocked" (Js.toLowerCase raw)); reflexivity.
Qed.

Lemma find_first_match {A} (f : A -> bool) (l : list A) (x : A) :
  List.find f l = Some x ->
  exists before after,
    l = before ++ x :: after /\ f x = true /\ forallb (fun y => negb (f y)) before = true.
Proof.
  induction l as [|y l IH]; simpl; [discriminate|].
  destruct (f y) eqn:E.
  - intros [= <-]. exists [], l. repeat split. exact E.
  - intros H. destruct (IH H) as [before [after [-> [Hx Hb]]]].
    exists (y :: before), after. repeat split; [exact Hx|].
    simpl. now rewrite E, Hb.
Qed.

Lemma find_none_forall {A} (f : A -> bool) (l : list A) :
  List.find f l = None -> forallb (fun y => negb (f y)) l = true.
Proof.
  induction l as [|y l IH]; simpl; [reflexivity|].
  destruct (f y); [discriminate|]. exact IH.
Qed.

(** A message that matches rule 1 as well as rules 3 and 4 gets the message
    of rule 1. *)
Example normalize_quota_503_key :
  parseGeminiError (ErrorObj "503 quota exceeded: API key not valid")
  = configurationMessage.
Proof. reflexivity. Qed.

(** C4, as stated, fails on its two instances: a message can contain both
    "quota" and "503", or "requested entity was not found", and still be
    caught by an earlier rule. *)
Lemma C4_first_match_counterexample :
  (containsCI "quota" "503 quota exceeded: API key not valid" = true /\
   containsCI "503" "503 quota exceeded: API key not valid" = true /\
   parseGeminiError (ErrorObj "503 quota exceeded: API key not valid") <> quotaMessage) /\
  (containsCI "requested entity was not found"
              "API key not valid: Requested entity was not found" = true /\
   parseGeminiError (ErrorObj "API key not valid: Requested entity was not found")
   <> credentialMessage).
Proof.
  repeat split; try reflexivity; vm_compute; discriminate.
Qed.

(** C4, amended: the normaliser is an ordered, case-insensitive, first-match
    substring scan: the message returned is that of the first rule of the
    list with a pattern contained in the lower-cased raw message, and the
    fallback when no rule has one.  In particular a message containing both
    "quota" and "503" and matching neither rule 1 nor rule 2 gets the
    quota message, and a message containing "requested entity was not found"
    in any letter case and not matching rule 1 gets the credential message,
    which is not the fallback. *)
Theorem C4_first_match :
  (forall raw,
     parseGeminiError (ErrorObj raw) = categoryMessage (normalize raw)) /\
  (forall raw rule,
     List.find (ruleMatches raw) rules = Some rule ->
     exists before after,
       rules = before ++ rule :: after /\ ruleMatches raw rule = true /\
       forallb (fun r => negb (ruleMatches raw r)) before = true /\
       parseGeminiError (ErrorObj raw) = categoryMessage (snd rule)) /\
  (forall raw,
     List.find (ruleMatches raw) rules = None ->
     forallb (fun r => negb (ruleMatches raw r)) rules = true /\
     parseGeminiError (ErrorObj raw) = unexpectedMessage) /\
  (forall raw raw',
     Js.toLowerCase raw = Js.toLowerCase raw' ->
     parseGeminiError (ErrorObj raw) = parseGeminiError (ErrorObj raw')) /\
  (forall raw,
     containsCI "quota" raw = true -> containsCI "503" raw = true ->
     containsCI "api key not valid" raw = false ->
     containsCI "requested entity was not found" raw = false ->
     parseGeminiError (ErrorObj raw) = quotaMessage) /\
  (forall raw,
     containsCI "requested entity was not found" raw = true ->
     containsCI "api key not valid" raw = false ->
     parseGeminiError (ErrorObj raw) = credentialMessage /\
     parseGeminiError (ErrorObj raw) <> unexpectedMessage).
Proof.
  split; [exact parseGeminiError_first_match|].
  split.
  { intros raw rule Hf.
    destruct (find_first_match _ _ _ Hf) as [before [after [E [Hm Hb]]]].
    exists before, after. repeat split; try assumption.
    rewrite parseGeminiError_first_match. unfold normalize. now rewrite Hf. }
  split.
  { intros raw Hf. split; [apply find_none_forall, Hf|].
    rewrite parseGeminiError_first_match. unfold normalize. now rewrite Hf. }
  split.
  { intros raw raw' E. unfold parseGeminiError. now rewrite E. }
  split.
  { intros raw Hq _ Hk He. unfold containsCI in *. unfold parseGeminiError.
    now rewrite Hk, He, Hq. }
  intros raw He Hk. unfold containsCI in *. unfold parseGeminiError.
  rewrite Hk, He. split; [reflexivity|]. vm_compute. discriminate.
Qed.

Lemma C4_first_match_witness :
  parseGeminiError (ErrorObj "Error: Requested entity was not found")
  = credentialMessage /\
  parseGeminiError (ErrorObj "Quota exceeded (HTTP 503)") = quotaMessage.
Proof.
  split.
  - exact (proj1 (proj2 (proj2 (proj2 (proj2 (proj2 C4_first_match))))
                    "Error: Requested entity was not found" eq_refl eq_refl)).
  - exact (proj1 (proj2 (proj2 (proj2 (proj2 C4_first_match))))
             "Quota exceeded (HTTP 503)" eq_refl eq_refl eq_refl eq_refl).
Defined.

End ErrorNormalizer.

(** ** Image calls *)

Section ImageCalls.

Variable w : World.

Lemma virtualTryOn_run (b m : string) (outfit : list TryOnItem) (g : Gender) (s : Sys) :
  virtualTryOn w b m outfit g s
  = (imageCallOutcome noImageTryOnMessage
       (generateContent w (nGenerate s) (tryOnRequest b m outfit g)),
     afterGenerate (tryOnRequest b m outfit g) s).
Proof.
  unfold virtualTryOn, tryCatch, bind, callGenerateContent, liftCompletion,
    imageCallOutcome, afterGenerate, rethrowFriendly, throwError, throw, ret.
  destruct (generateContent w (nGenerate s) (tryOnRequest b m outfit g)) as [resp|e];
    [|reflexivity].
  destruct (firstInlineData (responseParts resp)); reflexivity.
Qed.

Lemma editImage_run (b m prompt : string) (s : Sys) :
  editImage w b m prompt s
  = (imageCallOutcome noImageEditMessage
       (generateContent w (nGenerate s) (editRequest b m prompt)),
     afterGenerate (editRequest b m prompt) s).
Proof.
  unfold editImage, tryCatch, bind, callGenerateContent, liftCompletion,
    imageCallOutcome, afterGenerate, rethrowFriendly, throwError, throw, ret.
  destruct (generateContent w (nGenerate s) (editRequest b m prompt)) as [resp|e];
    [|reflexivity].
  destruct (firstInlineData (responseParts resp)); reflexivity.
Qed.

Lemma missing_image_normalised :
  parseGeminiError (ErrorObj noImageTryOnMessage) = unexpectedMessage /\
  parseGeminiError (ErrorObj noImageEditMessage) = unexpectedMessage.
Proof. split; reflexivity. Qed.

End ImageCalls.

(** C5 (the code departs from it): when the service answers an image call
    with a response that has no inline image among its parts, [virtualTryOn]
    and [editImage] do fail, but the error that leaves them is the generic
    fallback of the normaliser: the "did not return an image" error is
    raised inside the [try] block and rewritten by its [catch]. *)
Theorem C5_missing_image_error (w : World) (s : Sys) (response : GenerateContentResponse) :
  firstInlineData (responseParts response) = None ->
  (forall b m outfit g,
     generateContent w (nGenerate s) (tryOnRequest b m outfit g) = Ok response ->
     fst (virtualTryOn w b m outfit g s) = Threw (ErrorObj unexpectedMessage)) /\
  (forall b m prompt,
     generateContent w (nGenerate s) (editRequest b m prompt) = Ok response ->
     fst (editImage w b m prompt s) = Threw (ErrorObj unexpectedMessage)) /\
  unexpectedMessage <> noImageTryOnMessage /\
  unexpectedMessage <> noImageEditMessage.
Proof.
  intros Hnone. repeat split.
  - intros b m outfit g Hc. rewrite virtualTryOn_run, Hc. simpl.
    now rewrite Hnone.
  - intros b m prompt Hc. rewrite editImage_run, Hc. simpl.
    now rewrite Hnone.
  - vm_compute. discriminate.
  - vm_compute. discriminate.
Qed.

Lemma C5_missing_image_error_witness :
  fst (virtualTryOn (scriptedWorld [Ok textOnlyResponse] DuringNextRender)
         (base64 photo) (mimeType photo) [toTryOnItem itA "tops"] female
         (sysOf (appWith TryOn topsOnly "")))
  = Threw (ErrorObj unexpectedMessage) /\
  fst (editImage (scriptedWorld [Ok textOnlyResponse] DuringNextRender)
         (base64 photo) (mimeType photo) "Add a hat"
         (sysOf (appWith TryOn topsOnly "")))
  = Threw (ErrorObj unexpectedMessage).
Proof.
  pose proof (C5_missing_image_error
                (scriptedWorld [Ok textOnlyResponse] DuringNextRender)
                (sysOf (appWith TryOn topsOnly "")) textOnlyResponse eq_refl) as H.
  split.
  - exact (proj1 H (base64 photo) (mimeType photo) [toTryOnItem itA "tops"] female eq_refl).
  - exact (proj1 (proj2 H) (base64 photo) (mimeType photo) "Add a hat" eq_refl).
Defined.
(** ** The try-on branch of [handleGenerate] *)

Section TryOnRun.

Variable w : World.
Variable img : UploadedImage.
Variable g : Gender.


Lemma withGeneratedImages_same (v : list string) (st : AppState) :
  generatedImages st = v -> withGeneratedImages v st = st.
Proof. intros <-. destruct st; reflexivity. Qed.

Lemma returnsImage_outcome (c : Completion GenerateContentResponse) (r : string) :
  returnsImage c r = true ->
  imageCallOutcome noImageTryOnMessage c = Returned (Some r) /\ Js.truthy r = true.
Proof.
  unfold returnsImage, imageCallOutcome.
  destruct c as [resp|e]; [|discriminate].
  destruct (firstInlineData (responseParts resp)) as [[d|]|]; try discriminate.
  intros H. apply andb_prop in H. destruct H as [Hd Ht].
  apply String.eqb_eq in Hd. subst d. split; [reflexivity | exact Ht].
Qed.

Lemma tryOnLoop_images (before : list (list TryOnItem)) :
  forall (imgs : list string) (rest : list (list TryOnItem)) (results : list string) (s : Sys),
    generatedImages (appState s) = results ->
    rendersImages w (nGenerate s) img g before imgs = true ->
    tryOnLoop w img g (before ++ rest) results s
    = tryOnLoop w img g rest (results ++ imgs) (afterRenders img g before (results ++ imgs) s).
Proof.
  induction before as [|outfit before IH]; intros imgs rest results s Hinv Hr.
  - destruct imgs; [|discriminate]. cbn [app]. rewrite app_nil_r.
    f_equal. unfold afterRenders. simpl.
    rewrite (withGeneratedImages_same _ _ Hinv), app_nil_r, Nat.add_0_r.
    destruct s; reflexivity.
  - destruct imgs as [|r rs]; [discriminate|].
    simpl in Hr. apply andb_prop in Hr. destruct Hr as [Hr1 Hr2].
    apply returnsImage_outcome in Hr1. destruct Hr1 as [Hout Htruthy].
    cbn [app tryOnLoop]. unfold bind at 1.
    rewrite virtualTryOn_run. fold (renderRequest img g outfit). rewrite Hout.
    rewrite Htruthy. unfold bind at 1. cbn [setGeneratedImages modifyApp].
    rewrite (IH rs rest (results ++ [r])); [| reflexivity | exact Hr2].
    rewrite <- app_assoc. cbn [app].
    f_equal. unfold afterRenders, afterGenerate. cbn.
    rewrite <- app_assoc. cbn [app].
    now rewrite Nat.add_succ_r.
Qed.

Lemma tryOnLoop_throws (outfit : list TryOnItem) (rest : list (list TryOnItem))
    (results : list string) (s : Sys) (raw : Thrown) :
  rawFailure noImageTryOnMessage
    (generateContent w (nGenerate s) (renderRequest img g outfit)) = Some raw ->
  tryOnLoop w img g (outfit :: rest) results s
  = (Threw (ErrorObj (parseGeminiError raw)), afterGenerate (renderRequest img g outfit) s).
Proof.
  intros Hraw. cbn [tryOnLoop]. unfold bind.
  rewrite virtualTryOn_run. fold (renderRequest img g outfit).
  unfold rawFailure in Hraw. unfold imageCallOutcome.
  destruct (generateContent w (nGenerate s) (renderRequest img g outfit)) as [resp|e].
  - destruct (firstInlineData (responseParts resp)); [discriminate|].
    now injection Hraw as <-.
  - now injection Hraw as <-.
Qed.

Lemma afterRenders_cons (outfit : list TryOnItem) (os : list (list TryOnItem))
    (published : list string) (s : Sys) :
  afterRenders img g os published (afterGenerate (renderRequest img g outfit) s)
  = afterRenders img g (outfit :: os) published s.
Proof.
  unfold afterRenders, afterGenerate. cbn.
  rewrite <- app_assoc. cbn [app]. now rewrite Nat.add_succ_r.
Qed.

(** The loop over calls that succeed: what each hands back is kept when it
    is a non-empty string, and passed over otherwise. *)
Lemma tryOnLoop_answered (before : list (list TryOnItem)) :
  forall (datas : list (option string)) (rest : list (list TryOnItem))
         (results : list string) (s : Sys),
    generatedImages (appState s) = results ->
    rendersData w (nGenerate s) img g before datas ->
    tryOnLoop w img g (before ++ rest) results s
    = tryOnLoop w img g rest (results ++ kept datas)
        (afterRenders img g before (results ++ kept datas) s).
Proof.
  induction before as [|outfit os IH]; intros datas rest results s Hinv Hr.
  - destruct datas; [|contradiction]. cbn [app kept]. rewrite app_nil_r.
    f_equal. unfold afterRenders. simpl.
    rewrite (withGeneratedImages_same _ _ Hinv), app_nil_r, Nat.add_0_r.
    destruct s; reflexivity.
  - destruct datas as [|d ds]; [contradiction|].
    destruct Hr as [(resp & Hc & Hd) Hrest].
    cbn [app tryOnLoop]. unfold bind at 1.
    rewrite virtualTryOn_run. fold (renderRequest img g outfit).
    rewrite Hc. unfold imageCallOutcome. rewrite Hd.
    assert (Hskip :
      tryOnLoop w img g (os ++ rest) results (afterGenerate (renderRequest img g outfit) s)
      = tryOnLoop w img g rest (results ++ kept ds)
          (afterRenders img g (outfit :: os) (results ++ kept ds) s)).
    { rewrite (IH ds rest results); [| exact Hinv | exact Hrest].
      now rewrite afterRenders_cons. }
    destruct d as [r|]; [| exact Hskip].
    cbn [kept]. destruct (Js.truthy r); [| exact Hskip].
    unfold bind at 1. cbn [setGeneratedImages modifyApp].
    rewrite (IH ds rest (results ++ [r])); [| reflexivity | exact Hrest].
    rewrite <- app_assoc. cbn [app].
    f_equal. unfold afterRenders, afterGenerate. cbn.
    rewrite <- app_assoc. cbn [app]. now rewrite Nat.add_succ_r.
Qed.

Lemma materialize_run (results : list string) :
  forall (index : nat) (newItems : list UploadedImage) (s : Sys),
    decodable w results = true ->
    materialize w img results index newItems s
    = (Returned (newItems ++ workspaceEntries w img index (nUrl s) results),
       afterMaterialize results s).
Proof.
  induction results as [|r rs IH]; intros index newItems s Hd.
  - cbn. rewrite app_nil_r. unfold afterMaterialize. cbn.
    rewrite app_nil_r, Nat.add_0_r. destruct s; reflexivity.
  - cbn in Hd. apply andb_prop in Hd. destruct Hd as [Hr Hrs].
    cbn [materialize]. unfold bind at 1. unfold base64ToBlob, bind at 1.
    destruct (atob w r) as [bytes|e]; [|discriminate].
    cbn [liftCompletion ret]. unfold bind at 1. cbn [callCreateObjectURL].
    rewrite IH by exact Hrs. cbn [nUrl workspaceEntries].
    rewrite <- app_assoc. cbn [app]. unfold workspaceEntry.
    f_equal. unfold afterMaterialize. cbn.
    rewrite <- app_assoc. cbn [app]. now rewrite Nat.add_succ_r.
Qed.

End TryOnRun.

Section Generate.

Variable w : World.
Variable budget : nat.

Lemma handleGenerate_selected (s : Sys) (img : UploadedImage) :
  selectedImage (appState s) = Some img ->
  handleGenerate w budget s
  = tryFinally
      (tryCatch
         match mode (appState s) with
         | TryOn => tryOnBranch w (appState s) img
         | Edit => editBranch w (appState s) img
         | Video => videoBranch w budget (appState s) img
         end
         (fun err => setError (Some (errorMessageOr "An unknown error occurred." err))))
      (setIsLoading false)
      (withAppOf started s).
Proof.
  intros Hsel. unfold handleGenerate. unfold bind at 1. cbn [getApp].
  rewrite Hsel. reflexivity.
Qed.

End Generate.

Section GenerateTryOn.

Variable w : World.
Variable budget : nat.

Lemma tryOnBranch_loop (st : AppState) (img : UploadedImage) (s : Sys) :
  generateOutfitCombinations (selectedItems st) <> [] ->
  noPlaceholder (generateOutfitCombinations (selectedItems st)) = true ->
  tryOnBranch w st img s
  = bind (tryOnLoop w img (gender st) (generateOutfitCombinations (selectedItems st)) [])
      (fun results =>
         if (0 <? length results)%nat then
           bind (materialize w img results 0 []) (fun newItems => publishNewItems w newItems)
         else ret tt) s.
Proof.
  intros Hne Hp. unfold tryOnBranch.
  destruct (generateOutfitCombinations (selectedItems st)) as [|c cs] eqn:E; [congruence|].
  cbn [length Nat.eqb].
  unfold noPlaceholder in Hp. apply negb_true_iff in Hp. rewrite Hp. reflexivity.
Qed.

Lemma handleGenerate_fail_fast (s : Sys) (img : UploadedImage)
    (before : list (list TryOnItem)) (failing : list TryOnItem)
    (after : list (list TryOnItem)) (imgs : list string) (raw : Thrown) :
  selectedImage (appState s) = Some img ->
  mode (appState s) = TryOn ->
  generateOutfitCombinations (selectedItems (appState s)) = before ++ failing :: after ->
  noPlaceholder (before ++ failing :: after) = true ->
  rendersImages w (nGenerate s) img (gender (appState s)) before imgs = true ->
  rawFailure noImageTryOnMessage
    (generateContent w (nGenerate s + length before)
       (renderRequest img (gender (appState s)) failing)) = Some raw ->
  handleGenerate w budget s
  = (Returned tt,
     withAppOf (withIsLoading false)
       (withAppOf (withError (Some (parseGeminiError raw)))
          (afterGenerate (renderRequest img (gender (appState s)) failing)
             (afterRenders img (gender (appState s)) before imgs (withAppOf started s))))).
Proof.
  intros Hsel Hmode Hc Hp Hr Hraw.
  rewrite (handleGenerate_selected _ _ _ _ Hsel), Hmode.
  unfold tryFinally, tryCatch.
  rewrite tryOnBranch_loop; [| rewrite Hc; now destruct before | now rewrite Hc].
  rewrite Hc. unfold bind at 1.
  rewrite (tryOnLoop_images w img (gender (appState s)) before imgs (failing :: after) []);
    [| reflexivity | exact Hr].
  cbn [app].
  rewrite (tryOnLoop_throws w img _ failing after imgs _ raw); [reflexivity|].
  exact Hraw.
Qed.

Lemma handleGenerate_stopped (s : Sys) (img : UploadedImage)
    (before : list (list TryOnItem)) (failing : list TryOnItem)
    (after : list (list TryOnItem)) (datas : list (option string)) (raw : Thrown) :
  selectedImage (appState s) = Some img ->
  mode (appState s) = TryOn ->
  generateOutfitCombinations (selectedItems (appState s)) = before ++ failing :: after ->
  noPlaceholder (before ++ failing :: after) = true ->
  rendersData w (nGenerate s) img (gender (appState s)) before datas ->
  rawFailure noImageTryOnMessage
    (generateContent w (nGenerate s + length before)
       (renderRequest img (gender (appState s)) failing)) = Some raw ->
  handleGenerate w budget s
  = (Returned tt,
     withAppOf (withIsLoading false)
       (withAppOf (withError (Some (parseGeminiError raw)))
          (afterGenerate (renderRequest img (gender (appState s)) failing)
             (afterRenders img (gender (appState s)) before (kept datas)
                (withAppOf started s))))).
Proof.
  intros Hsel Hmode Hc Hp Hr Hraw.
  rewrite (handleGenerate_selected _ _ _ _ Hsel), Hmode.
  unfold tryFinally, tryCatch.
  rewrite tryOnBranch_loop; [| rewrite Hc; now destruct before | now rewrite Hc].
  rewrite Hc. unfold bind at 1.
  rewrite (tryOnLoop_answered w img (gender (appState s)) before datas (failing :: after) []);
    [| reflexivity | exact Hr].
  cbn [app].
  rewrite (tryOnLoop_throws w img _ failing after (kept datas) _ raw); [reflexivity|].
  exact Hraw.
Qed.

End GenerateTryOn.

Lemma rendersImages_length (w : World) (img : UploadedImage) (g : Gender)
    (outfits : list (list TryOnItem)) :
  forall (i : nat) (imgs : list string),
    rendersImages w i img g outfits imgs = true -> length imgs = length outfits.
Proof.
  induction outfits as [|o os IH]; intros i [|r rs] H; try discriminate; [reflexivity|].
  cbn in H. apply andb_prop in H. destruct H as [_ H].
  cbn. f_equal. eapply IH, H.
Qed.

Lemma kept_length (datas : list (option string)) : length (kept datas) <= length datas.
Proof.
  induction datas as [|[r|] ds IH]; cbn; [lia | | lia].
  destruct (Js.truthy r); cbn; lia.
Qed.

Lemma kept_all (imgs : list string) :
  Forall (fun r => Js.truthy r = true) imgs -> kept (map Some imgs) = imgs.
Proof.
  induction 1 as [|r rs Hr _ IH]; [reflexivity|]. cbn. now rewrite Hr, IH.
Qed.

Lemma rendersData_length (w : World) (img : UploadedImage) (g : Gender)
    (outfits : list (list TryOnItem)) :
  forall (i : nat) (datas : list (option string)),
    rendersData w i img g outfits datas -> length datas = length outfits.
Proof.
  induction outfits as [|o os IH]; intros i [|d ds] H; try contradiction; [reflexivity|].
  destruct H as [_ H]. cbn. f_equal. eapply IH, H.
Qed.

(** A first call that succeeds without handing back data, then a call that
    throws: the run stops after two calls with an empty result buffer. *)
Example dataless_success_leaves_no_image :
  let w := scriptedWorld [Ok hollowResponse; Fail (ErrorObj "Quota exceeded")]
             DuringNextRender in
  let end_ := handleGenerate w 0 (sysOf (appWith TryOn twoTopsOneBottom "")) in
  virtualTryOn w (base64 photo) (mimeType photo)
    [toTryOnItem itA "tops"; toTryOnItem itC "bottoms"] female
    (sysOf (appWith TryOn twoTopsOneBottom ""))
  = (Returned None,
     afterGenerate (renderRequest photo female
                      [toTryOnItem itA "tops"; toTryOnItem itC "bottoms"])
       (sysOf (appWith TryOn twoTopsOneBottom ""))) /\
  generatedImages (appState (snd end_)) = [] /\
  nGenerate (snd end_) = 2 /\
  error (appState (snd end_)) = Some quotaMessage.
Proof. vm_compute. repeat split. Qed.

(** C1, as stated, fails when one of the first [k-1] calls succeeds without
    handing back an image: the loop passes it over, and the result buffer
    holds fewer than [k-1] images. *)
Lemma C1_fail_fast_counterexample :
  ~ failFastAsSpecified
      (scriptedWorld [Ok hollowResponse; Fail (ErrorObj "Quota exceeded")] DuringNextRender)
      0 (sysOf (appWith TryOn twoTopsOneBottom "")).
Proof.
  intros H.
  destruct dataless_success_leaves_no_image as (_ & Hg & _). cbv zeta in Hg.
  specialize (H photo [[toTryOnItem itA "tops"; toTryOnItem itC "bottoms"]]
                [toTryOnItem itB "tops"; toTryOnItem itC "bottoms"] []
                (ErrorObj "Quota exceeded") eq_refl eq_refl eq_refl).
  assert (Hbefore : forall i outfit,
            nth_error [[toTryOnItem itA "tops"; toTryOnItem itC "bottoms"]] i = Some outfit ->
            rawFailure noImageTryOnMessage
              (generateContent
                 (scriptedWorld [Ok hollowResponse; Fail (ErrorObj "Quota exceeded")]
                    DuringNextRender)
                 (nGenerate (sysOf (appWith TryOn twoTopsOneBottom "")) + i)
                 (renderRequest photo
                    (gender (appState (sysOf (appWith TryOn twoTopsOneBottom "")))) outfit))
            = None).
  { intros [|[|i]] outfit Hi; cbn in Hi; try discriminate Hi. reflexivity. }
  destruct (H Hbefore eq_refl) as (_ & Hlen & _).
  rewrite Hg in Hlen. discriminate Hlen.
Qed.

(** C1, amended: in a try-on run whose combination list is [before ++
    failing :: after] (so [n = length before + 1 + length after]
    combinations and [k = length before + 1]), if the first [k-1] render
    calls succeed, handing back [datas], and the [k]-th throws, raw error
    [raw] being the one raised inside it, then the run makes exactly those
    [k] render calls and none for [after], ends with the result buffer equal
    to the non-empty images among [datas], in combination order (at most
    [k-1] of them, and exactly the [k-1] images when every one of the calls
    handed back a non-empty image), and reports the job failed with the
    normalised message of [raw]. *)
Theorem C1_fail_fast (w : World) (budget : nat) (s : Sys) (img : UploadedImage)
    (before : list (list TryOnItem)) (failing : list TryOnItem)
    (after : list (list TryOnItem)) (datas : list (option string)) (raw : Thrown) :
  selectedImage (appState s) = Some img ->
  mode (appState s) = TryOn ->
  generateOutfitCombinations (selectedItems (appState s)) = before ++ failing :: after ->
  noPlaceholder (before ++ failing :: after) = true ->
  rendersData w (nGenerate s) img (gender (appState s)) before datas ->
  rawFailure noImageTryOnMessage
    (generateContent w (nGenerate s + length before)
       (renderRequest img (gender (appState s)) failing)) = Some raw ->
  let end_ := handleGenerate w budget s in
  fst end_ = Returned tt /\
  log (snd end_)
  = log s ++ map (fun o => EvGenerateContent (renderRequest img (gender (appState s)) o))
                 (before ++ [failing]) /\
  nGenerate (snd end_) = nGenerate s + (length before + 1) /\
  generatedImages (appState (snd end_)) = kept datas /\
  length (kept datas) <= length before /\
  (forall imgs,
     datas = map Some imgs ->
     Forall (fun r => Js.truthy r = true) imgs ->
     generatedImages (appState (snd end_)) = imgs /\ length imgs = length before) /\
  error (appState (snd end_)) = Some (parseGeminiError raw) /\
  isLoading (appState (snd end_)) = false /\
  workspaceItems (appState (snd end_)) = workspaceItems (appState s).
Proof.
  intros Hsel Hmode Hc Hp Hr Hraw end_. subst end_.
  rewrite (handleGenerate_stopped w budget s img before failing after datas raw)
    by assumption.
  pose proof (rendersData_length _ _ _ _ _ _ Hr) as Hlen.
  cbn [fst snd].
  split; [reflexivity|].
  split; [cbn; rewrite map_app, <- app_assoc; reflexivity|].
  split; [cbn; lia|].
  split; [reflexivity|].
  split; [rewrite <- Hlen; apply kept_length|].
  split; [|repeat split].
  intros imgs -> Himgs. rewrite (kept_all imgs Himgs).
  split; [reflexivity|]. now rewrite <- Hlen, length_map.
Qed.

Lemma C1_fail_fast_witness :
  let w := scriptedWorld [Ok (imageResponse "r1"); Fail (ErrorObj "Quota exceeded")]
             DuringNextRender in
  let end_ := handleGenerate w 0 (sysOf (appWith TryOn twoTopsOneBottom "")) in
  generatedImages (appState (snd end_)) = ["r1"] /\
  error (appState (snd end_)) = Some quotaMessage /\
  length (log (snd end_)) = 2.
Proof.
  intros w end_.
  assert (Hr : rendersData w 0 photo female
                 [[toTryOnItem itA "tops"; toTryOnItem itC "bottoms"]] [Some "r1"]).
  { cbn. split; [|exact I]. eexists. split; reflexivity. }
  pose proof (C1_fail_fast w 0 (sysOf (appWith TryOn twoTopsOneBottom "")) photo
                [[toTryOnItem itA "tops"; toTryOnItem itC "bottoms"]]
                [toTryOnItem itB "tops"; toTryOnItem itC "bottoms"] []
                [Some "r1"] (ErrorObj "Quota exceeded")
                eq_refl eq_refl eq_refl eq_refl Hr eq_refl) as H.
  cbv zeta in H. destruct H as (_ & Hlog & _ & Himgs & _ & _ & Herr & _).
  split; [exact Himgs|]. split; [exact Herr|].
  subst end_. rewrite Hlog. reflexivity.
Defined.

Section TryOnCompleted.

Variable w : World.
Variable budget : nat.

Lemma publishNewItems_run (entries : list UploadedImage) (s : Sys) :
  publishNewItems w entries s = (Returned tt, withAppOf (published w entries) s).
Proof.
  unfold publishNewItems, published, bind.
  cbn [setWorkspaceItems modifyApp].
  destruct (updaterRun w).
  - destruct (rev entries); reflexivity.
  - destruct entries; reflexivity.
Qed.

Lemma published_workspace (entries : list UploadedImage) (st : AppState) :
  workspaceItems (published w entries st) = rev entries ++ workspaceItems st.
Proof.
  unfold published.
  destruct (match updaterRun w with
            | DuringSetState => rev entries
            | DuringNextRender => entries
            end); reflexivity.
Qed.

Lemma published_generatedImages (entries : list UploadedImage) (st : AppState) :
  generatedImages (published w entries st) = generatedImages st.
Proof.
  unfold published.
  destruct (match updaterRun w with
            | DuringSetState => rev entries
            | DuringNextRender => entries
            end); reflexivity.
Qed.

Lemma published_error (entries : list UploadedImage) (st : AppState) :
  error (published w entries st) = error st.
Proof.
  unfold published.
  destruct (match updaterRun w with
            | DuringSetState => rev entries
            | DuringNextRender => entries
            end); reflexivity.
Qed.

Lemma published_selected (entries : list UploadedImage) (st : AppState) :
  entries <> [] ->
  selectedImage (published w entries st)
  = match updaterRun w with
    | DuringSetState => nth_error entries (length entries - 1)
    | DuringNextRender => nth_error entries 0
    end.
Proof.
  intros Hne. unfold published. destruct (updaterRun w).
  - destruct (rev entries) as [|x xs] eqn:E.
    + apply (f_equal (@rev _)) in E. rewrite rev_involutive in E. now subst.
    + cbn. apply (f_equal (@rev _)) in E. rewrite rev_involutive in E. subst entries.
      cbn [rev]. rewrite List.length_app. cbn [length].
      replace (length (rev xs) + 1 - 1) with (length (rev xs)) by lia.
      rewrite nth_error_app2 by lia. now rewrite Nat.sub_diag.
  - destruct entries; [congruence | reflexivity].
Qed.

Lemma workspaceEntries_length (img : UploadedImage) (results : list string) :
  forall index u, length (workspaceEntries w img index u results) = length results.
Proof.
  induction results as [|r rs IH]; intros index u; cbn; [reflexivity | now rewrite IH].
Qed.

Lemma workspaceEntries_base64 (img : UploadedImage) (results : list string) :
  forall index u, map base64 (workspaceEntries w img index u results) = results.
Proof.
  induction results as [|r rs IH]; intros index u; cbn; [reflexivity | now rewrite IH].
Qed.

Lemma workspaceEntries_nth (img : UploadedImage) (results : list string) :
  forall index u i r,
    nth_error results i = Some r ->
    nth_error (workspaceEntries w img index u results) i
    = Some (workspaceEntry w img (index + i) (u + i) r).
Proof.
  induction results as [|x xs IH]; intros index u [|i] r H; try discriminate.
  - cbn in H. injection H as ->. cbn. now rewrite !Nat.add_0_r.
  - cbn in H. cbn. rewrite (IH _ _ _ _ H). now rewrite !Nat.add_succ_r.
Qed.

Lemma handleGenerate_all_rendered (s : Sys) (img : UploadedImage) (imgs : list string) :
  selectedImage (appState s) = Some img ->
  mode (appState s) = TryOn ->
  generateOutfitCombinations (selectedItems (appState s)) <> [] ->
  noPlaceholder (generateOutfitCombinations (selectedItems (appState s))) = true ->
  rendersImages w (nGenerate s) img (gender (appState s))
    (generateOutfitCombinations (selectedItems (appState s))) imgs = true ->
  decodable w imgs = true ->
  handleGenerate w budget s
  = (Returned tt,
     withAppOf (withIsLoading false)
       (withAppOf (published w (workspaceEntries w img 0 (nUrl s) imgs))
          (afterMaterialize imgs
             (afterRenders img (gender (appState s))
                (generateOutfitCombinations (selectedItems (appState s))) imgs
                (withAppOf started s))))).
Proof.
  intros Hsel Hmode Hne Hp Hr Hd.
  rewrite (handleGenerate_selected _ _ _ _ Hsel), Hmode.
  unfold tryFinally, tryCatch.
  rewrite tryOnBranch_loop by assumption.
  unfold bind at 1.
  pose proof (tryOnLoop_images w img (gender (appState s))
                (generateOutfitCombinations (selectedItems (appState s))) imgs []
                [] (withAppOf started s) eq_refl Hr) as Hloop.
  rewrite app_nil_r in Hloop. cbn [withAppOf appState] in Hloop.
  cbn [withAppOf appState]. rewrite Hloop. cbn [app tryOnLoop ret].
  assert (Hlen : (0 <? length imgs)%nat = true).
  { apply Nat.ltb_lt. rewrite (rendersImages_length _ _ _ _ _ _ Hr).
    destruct (generateOutfitCombinations (selectedItems (appState s)));
      [congruence | cbn; lia]. }
  rewrite Hlen. unfold bind at 1.
  rewrite materialize_run by exact Hd.
  cbn [app]. rewrite publishNewItems_run. reflexivity.
Qed.

End TryOnCompleted.

Section Workspace.

Lemma nth_error_rev_front {A} (l prev : list A) (i : nat) (x : A) :
  nth_error l i = Some x ->
  nth_error (rev l ++ prev) (length l - 1 - i) = Some x.
Proof.
  intros H.
  assert (Hi : i < length l) by (apply nth_error_Some; congruence).
  rewrite nth_error_app1 by (rewrite length_rev; lia).
  rewrite nth_error_rev.
  replace (length l - 1 - i <? length l)%nat with true
    by (symmetry; apply Nat.ltb_lt; lia).
  replace (length l - S (length l - 1 - i)) with i by lia.
  exact H.
Qed.

(** In a run whose second render fails, the first image stays in the result
    buffer and the workspace is left as it was. *)
Example partial_results_not_in_workspace :
  let w := scriptedWorld [Ok (imageResponse "r1"); Fail (ErrorObj "Quota exceeded")]
             DuringNextRender in
  let st := appState (snd (handleGenerate w 0 (sysOf (appWith TryOn twoTopsOneBottom "")))) in
  generatedImages st = ["r1"] /\ workspaceItems st = [photo] /\
  error st = Some quotaMessage.
Proof. vm_compute. repeat split. Qed.

(** C6, as stated, fails on the failure path: the image rendered before the
    failed call is in the result buffer and has no workspace entry. *)
Lemma C6_materialization_counterexample :
  ~ allMaterialized
      (appState
         (snd (handleGenerate
                 (scriptedWorld [Ok (imageResponse "r1"); Fail (ErrorObj "Quota exceeded")]
                    DuringNextRender)
                 0 (sysOf (appWith TryOn twoTopsOneBottom ""))))).
Proof.
  destruct partial_results_not_in_workspace as (Hg & Hw & _).
  cbv zeta in Hg, Hw. unfold allMaterialized. rewrite Hg, Hw.
  intros H. destruct (H "r1" (or_introl eq_refl)) as [entry [[<- | []] Hb]].
  discriminate Hb.
Qed.

(** C6, amended: when the render loop completes, every call having handed
    back an image that decodes, each image of the loop is materialised as a
    new workspace entry, entry [i] carrying image [i] and the name
    [try-on-<i+1>-<photo name>], and the entries are put in front of the
    workspace in reverse combination order; when a render fails, the images
    rendered before it stay in the result buffer and no workspace entry is
    made. *)
Theorem C6_materialization (w : World) (budget : nat) (s : Sys) (img : UploadedImage) :
  selectedImage (appState s) = Some img ->
  mode (appState s) = TryOn ->
  noPlaceholder (generateOutfitCombinations (selectedItems (appState s))) = true ->
  (forall imgs,
     generateOutfitCombinations (selectedItems (appState s)) <> [] ->
     rendersImages w (nGenerate s) img (gender (appState s))
       (generateOutfitCombinations (selectedItems (appState s))) imgs = true ->
     decodable w imgs = true ->
     let st' := appState (snd (handleGenerate w budget s)) in
     let entries := workspaceEntries w img 0 (nUrl s) imgs in
     generatedImages st' = imgs /\
     error st' = None /\
     workspaceItems st' = rev entries ++ workspaceItems (appState s) /\
     map base64 entries = imgs /\
     (forall i r, nth_error imgs i = Some r ->
                  nth_error entries i = Some (workspaceEntry w img i (nUrl s + i) r)) /\
     allMaterialized st') /\
  (forall before failing after imgs raw,
     generateOutfitCombinations (selectedItems (appState s)) = before ++ failing :: after ->
     rendersImages w (nGenerate s) img (gender (appState s)) before imgs = true ->
     rawFailure noImageTryOnMessage
       (generateContent w (nGenerate s + length before)
          (renderRequest img (gender (appState s)) failing)) = Some raw ->
     let st' := appState (snd (handleGenerate w budget s)) in
     generatedImages st' = imgs /\
     workspaceItems st' = workspaceItems (appState s) /\
     selectedImage st' = Some img).
Proof.
  intros Hsel Hmode Hp. split.
  - intros imgs Hne Hr Hd st' entries. subst st'.
    rewrite (handleGenerate_all_rendered w budget s img imgs) by assumption.
    cbn [snd withAppOf appState afterMaterialize afterRenders].
    fold entries.
    assert (Hws : workspaceItems
                    (withIsLoading false
                       (published w entries
                          (withGeneratedImages imgs (started (appState s)))))
                  = rev entries ++ workspaceItems (appState s)).
    { cbn [withIsLoading workspaceItems]. now rewrite published_workspace. }
    assert (Hgi : generatedImages
                    (withIsLoading false
                       (published w entries
                          (withGeneratedImages imgs (started (appState s)))))
                  = imgs).
    { cbn [withIsLoading generatedImages]. now rewrite published_generatedImages. }
    split; [exact Hgi|]. split.
    { cbn [withIsLoading error]. now rewrite published_error. }
    split; [exact Hws|].
    split; [apply workspaceEntries_base64|].
    split; [intros i r Hi; apply (workspaceEntries_nth w img imgs 0 (nUrl s) i r Hi)|].
    unfold allMaterialized. rewrite Hgi, Hws. intros r Hin.
    apply In_nth_error in Hin. destruct Hin as [i Hi].
    exists (workspaceEntry w img (0 + i) (nUrl s + i) r). split; [|reflexivity].
    apply in_or_app. left. apply -> in_rev.
    eapply nth_error_In. apply (workspaceEntries_nth w img imgs 0 (nUrl s) i r Hi).
  - intros before failing after imgs raw Hc Hr Hraw st'. subst st'.
    rewrite Hc in Hp.
    rewrite (handleGenerate_fail_fast w budget s img before failing after imgs raw)
      by assumption.
    cbn. repeat split. exact Hsel.
Qed.

Lemma C6_materialization_witness :
  let w := scriptedWorld [Ok (imageResponse "r1"); Ok (imageResponse "r2")]
             DuringNextRender in
  map base64
    (workspaceItems (appState (snd (handleGenerate w 0
                                      (sysOf (appWith TryOn twoTopsOneBottom ""))))))
  = ["r2"; "r1"; base64 photo].
Proof.
  intros w.
  pose proof (proj1 (C6_materialization w 0 (sysOf (appWith TryOn twoTopsOneBottom ""))
                       photo eq_refl eq_refl eq_refl)
                ["r1"; "r2"] ltac:(discriminate) eq_refl eq_refl) as H.
  cbv zeta in H. destruct H as (_ & _ & Hws & _).
  rewrite Hws. reflexivity.
Defined.

End Workspace.

Section NewEntries.

(** With the updater deferred to the next render, the entry selected after
    two successful renders is the one of the first combination. *)
Example deferred_updater_selects_first :
  let w := scriptedWorld [Ok (imageResponse "r1"); Ok (imageResponse "r2")]
             DuringNextRender in
  let st := appState (snd (handleGenerate w 0 (sysOf (appWith TryOn twoTopsOneBottom "")))) in
  generatedImages st = ["r1"; "r2"] /\
  map base64 (workspaceItems st) = ["r2"; "r1"; base64 photo] /\
  option_map base64 (selectedImage st) = Some "r1".
Proof. vm_compute. repeat split. Qed.

(** C10, as stated, fails where React defers the updater: the selected
    image is then the first combination's result, not the last one's. *)
Lemma C10_new_entries_counterexample :
  ~ selectsLastResult
      (appState
         (snd (handleGenerate
                 (scriptedWorld [Ok (imageResponse "r1"); Ok (imageResponse "r2")]
                    DuringNextRender)
                 0 (sysOf (appWith TryOn twoTopsOneBottom ""))))).
Proof.
  destruct deferred_updater_selects_first as (Hg & _ & Hsel).
  cbv zeta in Hg, Hsel. unfold selectsLastResult. rewrite Hg.
  intros (entry & r & He & Hr & Hb).
  rewrite He in Hsel. cbn in Hr, Hsel. congruence.
Qed.

(** C10, amended: after a try-on run in which all [n >= 1] renders hand
    back an image that decodes, the [n] new entries sit at the front of the
    workspace in reverse combination order (entry [i], counted from 0, at
    position [n-1-i]).  The image selected is the first element of the
    new-entry array as line 216 finds it: the last combination's entry where
    React has already run the reversing updater inside the setter call, the
    first combination's entry where React runs the updater at the next
    render. *)
Theorem C10_new_entries (w : World) (budget : nat) (s : Sys) (img : UploadedImage)
    (imgs : list string) :
  selectedImage (appState s) = Some img ->
  mode (appState s) = TryOn ->
  generateOutfitCombinations (selectedItems (appState s)) <> [] ->
  noPlaceholder (generateOutfitCombinations (selectedItems (appState s))) = true ->
  rendersImages w (nGenerate s) img (gender (appState s))
    (generateOutfitCombinations (selectedItems (appState s))) imgs = true ->
  decodable w imgs = true ->
  let st' := appState (snd (handleGenerate w budget s)) in
  let entries := workspaceEntries w img 0 (nUrl s) imgs in
  let n := length (generateOutfitCombinations (selectedItems (appState s))) in
  length entries = n /\ 1 <= n /\
  map base64 entries = imgs /\
  workspaceItems st' = rev entries ++ workspaceItems (appState s) /\
  (forall i entry, nth_error entries i = Some entry ->
                   nth_error (workspaceItems st') (n - 1 - i) = Some entry) /\
  selectedImage st'
  = match updaterRun w with
    | DuringSetState => nth_error entries (n - 1)
    | DuringNextRender => nth_error entries 0
    end.
Proof.
  intros Hsel Hmode Hne Hp Hr Hd st' entries n. subst st'.
  rewrite (handleGenerate_all_rendered w budget s img imgs) by assumption.
  cbn [snd withAppOf appState afterMaterialize afterRenders]. fold entries.
  assert (Hlen : length entries = n).
  { unfold entries. rewrite workspaceEntries_length.
    apply (rendersImages_length _ _ _ _ _ _ Hr). }
  assert (Hn : 1 <= n).
  { unfold n. destruct (generateOutfitCombinations (selectedItems (appState s)));
      [congruence | cbn; lia]. }
  assert (Hws : workspaceItems
                  (withIsLoading false
                     (published w entries
                        (withGeneratedImages imgs (started (appState s)))))
                = rev entries ++ workspaceItems (appState s)).
  { cbn [withIsLoading workspaceItems]. now rewrite published_workspace. }
  split; [exact Hlen|]. split; [exact Hn|].
  split; [apply workspaceEntries_base64|].
  split; [exact Hws|]. split.
  - intros i entry Hi. rewrite Hws, <- Hlen. now apply nth_error_rev_front.
  - cbn [withIsLoading selectedImage]. rewrite published_selected.
    + now rewrite Hlen.
    + intros E. rewrite E in Hlen. cbn in Hlen. lia.
Qed.

Lemma C10_new_entries_witness :
  let w := scriptedWorld [Ok (imageResponse "r1"); Ok (imageResponse "r2")]
             DuringSetState in
  let st := appState (snd (handleGenerate w 0 (sysOf (appWith TryOn twoTopsOneBottom "")))) in
  option_map base64 (selectedImage st) = Some "r2" /\
  map base64 (workspaceItems st) = ["r2"; "r1"; base64 photo].
Proof.
  intros w st.
  pose proof (C10_new_entries w 0 (sysOf (appWith TryOn twoTopsOneBottom "")) photo
                ["r1"; "r2"] eq_refl eq_refl ltac:(discriminate) eq_refl eq_refl eq_refl)
    as H.
  cbv zeta in H. destruct H as (_ & _ & _ & Hws & _ & Hsel).
  subst st. rewrite Hsel, Hws. split; reflexivity.
Defined.

End NewEntries.

(** ** The video poller *)

Section Poller.

Variable w : World.

Lemma pollUntilDone_done (budget : nat) (operation : VideoOperation) (s : Sys) :
  done operation = true -> pollUntilDone w budget operation s = (Returned operation, s).
Proof.
  intros Hd. destruct budget; cbn [pollUntilDone]; rewrite Hd; reflexivity.
Qed.

Lemma pollUntilDone_chain (next : list VideoOperation) :
  forall (cur : VideoOperation) (budget : nat) (s : Sys),
    pollChain w (nPoll s) cur next ->
    length next <= budget ->
    pollUntilDone w budget cur s = (Returned (reached cur next), afterPolls cur next s).
Proof.
  induction next as [|op rest IH]; intros cur budget s Hc Hb.
  - cbn in Hc. rewrite (pollUntilDone_done _ _ _ Hc). cbn [reached].
    unfold afterPolls. cbn. rewrite app_nil_r, Nat.add_0_r. destruct s; reflexivity.
  - destruct Hc as (Hnd & Hpoll & Hrest).
    destruct budget as [|budget]; [cbn in Hb; lia|].
    cbn [pollUntilDone]. rewrite Hnd.
    unfold bind at 1. cbn [emit]. unfold bind at 1.
    unfold callGetVideosOperation. cbn [nPoll]. rewrite Hpoll. cbn [liftCompletion ret].
    rewrite IH; [| exact Hrest | cbn in Hb; lia].
    cbn [reached]. f_equal. unfold afterPolls, pollEvents. cbn.
    rewrite <- !app_assoc. cbn [app]. now rewrite Nat.add_succ_r.
Qed.

Lemma pollChain_reached_done (next : list VideoOperation) :
  forall i cur, pollChain w i cur next -> done (reached cur next) = true.
Proof.
  induction next as [|op rest IH]; intros i cur Hc; [exact Hc|].
  destruct Hc as (_ & _ & Hrest). exact (IH _ _ Hrest).
Qed.

(** A completed operation with a download reference whose download is
    refused: the call throws. *)
Example refused_download_throws :
  fst (generateVideo (videoWorld (Ok finishedOp) [] (Ok forbiddenDownload) true) 1
         (base64 photo) (mimeType photo) "walk" Portrait "720p"
         (sysOf (appWith Video topsOnly "walk")))
  = Threw (ErrorObj unexpectedMessage).
Proof. reflexivity. Qed.

End Poller.

(** C9, as stated, fails in its last clause: a download reference can be
    present and the call still return no URL. *)
Lemma C9_video_poller_counterexample :
  ~ returnsUrlWhenLinked (videoWorld (Ok finishedOp) [] (Ok forbiddenDownload) true) 1
      (base64 photo) (mimeType photo) "walk" Portrait "720p"
      (sysOf (appWith Video topsOnly "walk")).
Proof.
  intros H.
  destruct (H finishedOp "https://video/1?alt=media" eq_refl eq_refl eq_refl eq_refl)
    as [videoUrl Hu].
  rewrite refused_download_throws in Hu. discriminate Hu.
Qed.

(** C9, amended: [generateVideo] waits 10000 ms and re-fetches the
    operation, again and again, until an operation reports completion.  If
    that operation carries no download reference the call fails, without a
    download; if it carries one, the reference (with the key appended) is
    fetched, and the call returns the object URL made for the blob when the
    response is ok and its body can be read; when the response is not ok the
    call fails. *)
Theorem C9_video_poller (w : World) (budget : nat) (b m prompt : string)
    (ratio : AspectRatio) (res : string) (s : Sys)
    (op0 : VideoOperation) (next : list VideoOperation) :
  generateVideos w (videoRequest b m prompt ratio res) = Ok op0 ->
  pollChain w (nPoll s) op0 next ->
  length next <= budget ->
  let final := reached op0 next in
  let r := generateVideo w budget b m prompt ratio res s in
  let polling :=
    log s ++ EvGenerateVideos (videoRequest b m prompt ratio res)
          :: pollEvents (polled op0 next) in
  done final = true /\
  Forall (fun op => done op = false) (polled op0 next) /\
  (Js.truthyOpt (uri final) = false ->
     (exists msg, fst r = Threw (ErrorObj msg)) /\ log (snd r) = polling) /\
  (forall link,
     uri final = Some link -> Js.truthy link = true ->
     (forall response blob,
        fetch w (downloadTarget w link) = Ok response ->
        ok response = true -> body response = Ok blob ->
        fst r = Returned (createObjectURL w (nUrl s)) /\
        log (snd r) = polling ++ [EvFetch (downloadTarget w link); EvCreateObjectURL]) /\
     (forall response,
        fetch w (downloadTarget w link) = Ok response ->
        ok response = false ->
        (exists msg, fst r = Threw (ErrorObj msg)) /\
        log (snd r) = polling ++ [EvFetch (downloadTarget w link)])).
Proof.
  intros Hgen Hchain Hbudget final r polling.
  assert (Hrun : r = tryCatch (download w final) rethrowFriendly
                       (afterPolls op0 next
                          (snd (emit (EvGenerateVideos (videoRequest b m prompt ratio res)) s)))).
  { subst r. unfold generateVideo, tryCatch. unfold bind at 1. cbn [emit].
    unfold bind at 1. rewrite Hgen. cbn [liftCompletion ret]. unfold bind at 1.
    rewrite (pollUntilDone_chain w next op0 budget); [reflexivity | exact Hchain | exact Hbudget]. }
  assert (Hlog : log (afterPolls op0 next
                        (snd (emit (EvGenerateVideos (videoRequest b m prompt ratio res)) s)))
                 = polling).
  { subst polling. cbn. now rewrite <- app_assoc. }
  split; [exact (pollChain_reached_done w _ _ _ Hchain)|].
  split.
  { clear -Hchain. revert Hchain. generalize (nPoll s). revert op0.
    induction next as [|op rest IH]; intros cur i Hc; [constructor|].
    destruct Hc as (Hnd & _ & Hrest). constructor; [exact Hnd | exact (IH _ _ Hrest)]. }
  split.
  - intros Hfalsy.
    enough (exists msg s', r = (Threw (ErrorObj msg), s') /\ log s' = polling)
      as (msg & s' & -> & Hl) by (split; [eauto | exact Hl]).
    rewrite Hrun. unfold tryCatch, download.
    destruct (uri final) as [link|].
    + cbn in Hfalsy. rewrite Hfalsy. cbn. eauto.
    + cbn. eauto.
  - intros link Hlink Htruthy. split.
    + intros response blob Hfetch Hok Hbody.
      enough (exists s', r = (Returned (createObjectURL w (nUrl s)), s') /\
                         log s' = polling ++ [EvFetch (downloadTarget w link); EvCreateObjectURL])
        as (s' & -> & Hl) by (split; [reflexivity | exact Hl]).
      rewrite Hrun. unfold tryCatch, download.
      rewrite Hlink, Htruthy. unfold bind at 1. cbn [emit]. unfold bind at 1.
      rewrite Hfetch. cbn [liftCompletion ret]. rewrite Hok. unfold bind at 1.
      rewrite Hbody. cbn [liftCompletion ret]. unfold bind at 1. cbn.
      eexists. split; [reflexivity|]. subst polling. cbn. rewrite <- !app_assoc. reflexivity.
    + intros response Hfetch Hok.
      enough (exists msg s', r = (Threw (ErrorObj msg), s') /\
                             log s' = polling ++ [EvFetch (downloadTarget w link)])
        as (msg & s' & -> & Hl) by (split; [eauto | exact Hl]).
      rewrite Hrun. unfold tryCatch, download.
      rewrite Hlink, Htruthy. unfold bind at 1. cbn [emit]. unfold bind at 1.
      rewrite Hfetch. cbn [liftCompletion ret]. rewrite Hok. cbn.
      eexists. eexists. split; [reflexivity|]. subst polling. cbn.
      rewrite <- !app_assoc. reflexivity.
Qed.

Lemma C9_video_poller_witness :
  let w := videoWorld (Ok pendingOp) [Ok pendingOp; Ok finishedOp] (Ok okDownload) true in
  let r := generateVideo w 2 (base64 photo) (mimeType photo) "walk" Portrait "720p"
             (sysOf (appWith Video topsOnly "walk")) in
  fst r = Returned "blob:generated-0" /\ length (log (snd r)) = 7.
Proof.
  intros w r.
  pose proof (C9_video_poller w 2 (base64 photo) (mimeType photo) "walk" Portrait "720p"
                (sysOf (appWith Video topsOnly "walk")) pendingOp [pendingOp; finishedOp]
                eq_refl
                (conj eq_refl (conj eq_refl (conj eq_refl (conj eq_refl eq_refl))))
                (le_n 2)) as H.
  cbv zeta in H. destruct H as (_ & _ & _ & Hlink).
  destruct (Hlink "https://video/1?alt=media" eq_refl eq_refl) as [Hok _].
  destruct (Hok okDownload videoBytes eq_refl eq_refl eq_refl) as [Hr Hl].
  subst r. rewrite Hr, Hl. split; reflexivity.
Defined.

(** ** The credential gate of the video branch *)

Section CredentialGate.

(** The credential message is one the orchestrator recognises. *)
Lemma credentialMessage_recognised :
  Js.includes "API Key not found" credentialMessage = true.
Proof. reflexivity. Qed.

(** A prompt of one space passes for non-empty but not for a description:
    the run stops at the prompt check and the credential check is never made. *)
Example blank_prompt_stops_before_gate :
  let w := videoWorld (Ok finishedOp) [] (Ok okDownload) false in
  let end_ := handleGenerate w 1 (sysOf (appWith Video topsOnly " ")) in
  log (snd end_) = [] /\
  isApiKeySelected (appState (snd end_)) = false /\
  error (appState (snd end_)) = Some "Please enter a video description.".
Proof. vm_compute. repeat split. Qed.

(** C7, as stated, fails for a non-empty prompt made of white space. *)
Lemma C7_credential_gate_counterexample :
  ~ credentialGateAsSpecified (videoWorld (Ok finishedOp) [] (Ok okDownload) false) 1
      (sysOf (appWith Video topsOnly " ")).
Proof.
  destruct blank_prompt_stops_before_gate as (Hlog & _ & _). cbv zeta in Hlog.
  intros H. destruct (H eq_refl ltac:(discriminate) eq_refl) as (Hin & _).
  rewrite Hlog in Hin. destruct Hin.
Qed.

(** C7, amended: when video mode is invoked with a prompt that is not
    blank (non-empty once trimmed) and the credential check reports no
    credential, the run opens the credential selection, sets the
    availability flag, fails with the try-again message and makes no video
    generation call; and when the credential is reported present and the
    video generation call throws the credential message of the normaliser,
    the flag is set back to false and that message is the error shown. *)
Theorem C7_credential_gate (w : World) (budget : nat) (s : Sys) (img : UploadedImage) :
  selectedImage (appState s) = Some img ->
  mode (appState s) = Video ->
  Js.truthy (Js.trim (videoPrompt (appState s))) = true ->
  let end_ := handleGenerate w budget s in
  (hasSelectedApiKey w = false ->
     fst end_ = Returned tt /\
     log (snd end_) = log s ++ [EvHasSelectedApiKey; EvOpenSelectKey] /\
     isApiKeySelected (appState (snd end_)) = true /\
     error (appState (snd end_)) = Some retryMessage /\
     generatedVideoUrl (appState (snd end_)) = None /\
     isLoading (appState (snd end_)) = false) /\
  (hasSelectedApiKey w = true ->
     fst (generateVideo w budget (base64 img) (mimeType img) (videoPrompt (appState s))
            (videoAspectRatio (appState s)) "720p" (afterKeyCheck s))
     = Threw (ErrorObj credentialMessage) ->
     fst end_ = Returned tt /\
     isApiKeySelected (appState (snd end_)) = false /\
     error (appState (snd end_)) = Some credentialMessage /\
     isLoading (appState (snd end_)) = false).
Proof.
  intros Hsel Hmode Hprompt end_. subst end_.
  rewrite (handleGenerate_selected _ _ _ _ Hsel), Hmode.
  unfold tryFinally, tryCatch, videoBranch. rewrite Hprompt. cbn [negb].
  unfold bind at 1. cbn [emit].
  split.
  - intros Hkey. rewrite Hkey. cbn. repeat split.
    now rewrite <- app_assoc.
  - intros Hkey Hthrow. rewrite Hkey. cbn [negb].
    unfold afterKeyCheck in Hthrow.
    unfold tryCatch, bind. cbn -[generateVideo]. cbn -[generateVideo] in Hthrow.
    match goal with
    | |- context [generateVideo ?a ?b ?c ?d ?e ?f ?g ?h] =>
        destruct (generateVideo a b c d e f g h) as [o sv]
    end.
    cbn [fst] in Hthrow. subst o. cbv beta iota.
    rewrite credentialMessage_recognised. cbn. repeat split.
Qed.

Lemma C7_credential_gate_witness :
  (let end_ := handleGenerate (videoWorld (Ok finishedOp) [] (Ok okDownload) false) 1
                 (sysOf (appWith Video topsOnly "walk")) in
   isApiKeySelected (appState (snd end_)) = true /\
   log (snd end_) = [EvHasSelectedApiKey; EvOpenSelectKey]) /\
  (let end_ := handleGenerate
                 (videoWorld (Fail (ErrorObj "Requested entity was not found.")) []
                    (Ok okDownload) true) 1
                 (withAppOf (withIsApiKeySelected true)
                    (sysOf (appWith Video topsOnly "walk"))) in
   isApiKeySelected (appState (snd end_)) = false /\
   error (appState (snd end_)) = Some credentialMessage).
Proof.
  split.
  - intros end_.
    pose proof (proj1 (C7_credential_gate
                         (videoWorld (Ok finishedOp) [] (Ok okDownload) false) 1
                         (sysOf (appWith Video topsOnly "walk")) photo
                         eq_refl eq_refl eq_refl) eq_refl) as H.
    destruct H as (_ & Hlog & Hflag & _). split; [exact Hflag | exact Hlog].
  - intros end_.
    pose proof (proj2 (C7_credential_gate
                         (videoWorld (Fail (ErrorObj "Requested entity was not found.")) []
                            (Ok okDownload) true) 1
                         (withAppOf (withIsApiKeySelected true)
                            (sysOf (appWith Video topsOnly "walk"))) photo
                         eq_refl eq_refl eq_refl) eq_refl eq_refl) as H.
    destruct H as (_ & Hflag & Herr & _). split; [exact Hflag | exact Herr].
Defined.

End CredentialGate.

(** ** The classification queue *)

Section Queue.

Variable w : World.

Lemma classifyClothingItem_run (b m : string) (s : Sys) :
  exists o,
    classifyClothingItem w b m s = (o, afterGenerate (classifyRequest b m) s) /\
    ((exists cat, o = Returned cat) \/ (exists msg, o = Threw (ErrorObj msg))).
Proof.
  unfold classifyClothingItem, tryCatch, bind, callGenerateContent, liftCompletion,
    rethrowFriendly, throwError, throw, ret. fold (afterGenerate (classifyRequest b m) s).
  destruct (generateContent w (nGenerate s) (classifyRequest b m)) as [resp|e].
  - destruct (parseCategory w (responseText resp)) as [[c|]|e].
    + destruct (Js.truthy c); eexists; split; try reflexivity; eauto.
    + eexists; split; try reflexivity; eauto.
    + eexists; split; try reflexivity; eauto.
  - eexists; split; try reflexivity; eauto.
Qed.

Lemma attach_error_In (id msg : string) (prev : list ClassifyingItem) (name u : string) :
  In (mkClassifying id name u (Some msg))
     (map (fun item =>
             if String.eqb (taskId item) id
             then mkClassifying (taskId item) (taskName item) (taskUrl item) (Some msg)
             else item)
          (prev ++ [mkClassifying id name u None])).
Proof.
  apply in_map_iff. exists (mkClassifying id name u None). split.
  - cbn. now rewrite String.eqb_refl.
  - apply in_or_app. right. left. reflexivity.
Qed.

Lemma processFile_segment (g : Gender) (file : File) (s : Sys) :
  exists seg s',
    processFile w g file s = (Returned tt, s') /\
    log s' = log s ++ seg /\
    FileSegment file (tempIdAt w s file) seg /\
    (forall msg, In (EvTaskFailed (tempIdAt w s file) msg) seg ->
                 In (failedTask w s file msg) (classifyingItems (appState s'))).
Proof.
  unfold processFile.
  unfold bind at 1. cbn [callDateNow]. fold (tempIdAt w s file).
  unfold bind at 1. cbn [callCreateObjectURL].
  unfold bind at 1. cbn [setClassifyingItems modifyApp].
  unfold bind at 1. cbn [emit].
  unfold bind at 1. unfold tryCatch at 1.
  unfold bind at 1. unfold readFileAsBase64.
  cbn [nRead log nGenerate nPoll nUrl nNow appState].
  destruct (readAsDataURL w (nRead s) file) as [result| |].
  - cbn [ret]. unfold bind at 1.
    match goal with
    | |- context [classifyClothingItem w ?b ?m ?s1] =>
        destruct (classifyClothingItem_run b m s1) as (o & -> & [[cat ->] | [msg ->]])
    end.
    + destruct g;
        unfold handleItemAdd, setFemaleCatalogue, setMaleCatalogue, bind, getApp;
        cbn -[addToCatalogue];
        match goal with
        | |- context [addToCatalogue ?i ?c ?m] => destruct (addToCatalogue i c m)
        end;
        cbn; (eexists; eexists; (split; [reflexivity|]); cbn [log]; split;
        [rewrite <- !app_assoc; cbn [app]; reflexivity|]);
      (split; [constructor|]);
      intros msg [H|[H|[H|[H|[H|[H|[]]]]]]]; discriminate H.
    + cbn. eexists. eexists. split; [reflexivity|]. cbn [log]. split.
      { rewrite <- !app_assoc. cbn [app]. reflexivity. }
      split; [constructor|].
      intros msg' [H|[H|[H|[H|[H|[H|[]]]]]]]; try discriminate H.
      injection H as <-. cbn [appState classifyingItems withClassifyingItems].
      apply attach_error_In.
  - cbn. eexists. eexists. split; [reflexivity|]. cbn [log]. split.
    { rewrite <- !app_assoc. cbn [app]. reflexivity. }
    split; [constructor|].
    intros msg' [H|[H|[H|[H|[H|[]]]]]]; try discriminate H.
    injection H as <-. apply attach_error_In.
  - cbn. eexists. eexists. split; [reflexivity|]. cbn [log]. split.
    { rewrite <- !app_assoc. cbn [app]. reflexivity. }
    split; [constructor|].
    intros msg' [H|[H|[H|[H|[H|[]]]]]]; try discriminate H.
    injection H as <-. apply attach_error_In.
Qed.

Lemma processFile_returns (g : Gender) (file : File) (s : Sys) :
  fst (processFile w g file s) = Returned tt.
Proof.
  destruct (processFile_segment g file s) as (seg & s' & -> & _). reflexivity.
Qed.

Lemma uploadLoop_step (g : Gender) (file : File) (rest : list File) (s : Sys) :
  uploadLoop w g (file :: rest) s = uploadLoop w g rest (snd (processFile w g file s)).
Proof.
  cbn [uploadLoop]. unfold bind.
  destruct (processFile_segment g file s) as (seg & s' & -> & _). reflexivity.
Qed.

Lemma uploadLoop_app (g : Gender) (before after : list File) :
  forall s, uploadLoop w g (before ++ after) s
            = uploadLoop w g after (snd (uploadLoop w g before s)).
Proof.
  induction before as [|f fs IH]; intros s; [reflexivity|].
  cbn [app]. rewrite !uploadLoop_step. apply IH.
Qed.

Lemma uploadLoop_trace (g : Gender) (files : list File) :
  forall s, exists tr s',
    uploadLoop w g files s = (Returned tt, s') /\
    log s' = log s ++ tr /\ BatchTrace files tr.
Proof.
  induction files as [|f fs IH]; intros s.
  - exists [], s. cbn. rewrite app_nil_r. repeat split. constructor.
  - rewrite uploadLoop_step.
    destruct (processFile_segment g f s) as (seg & s1 & E & Hlog & Hseg & _).
    rewrite E. cbn [snd].
    destruct (IH s1) as (tr & s2 & E2 & Hlog2 & Htr).
    exists (seg ++ tr), s2. split; [exact E2|]. split.
    + rewrite Hlog2, Hlog. now rewrite app_assoc.
    + econstructor; eassumption.
Qed.

End Queue.

Section BatchOrder.

Lemma split_at_event {A} (seg : list A) :
  forall rest pre ev post,
    seg ++ rest = pre ++ ev :: post ->
    (exists l, seg = pre ++ ev :: l) \/
    (exists pre', pre = seg ++ pre' /\ rest = pre' ++ ev :: post).
Proof.
  induction seg as [|x seg IH]; intros rest pre ev post H.
  - right. exists pre. split; [reflexivity | exact H].
  - destruct pre as [|p pre].
    + cbn in H. injection H as -> _. left. exists seg. reflexivity.
    + cbn in H. injection H as -> H.
      destruct (IH _ _ _ _ H) as [[l ->] | [pre' [-> ->]]].
      * left. exists l. reflexivity.
      * right. exists pre'. split; reflexivity.
Qed.

Lemma segment_request_position (file : File) (id : string) (seg : list Event) :
  FileSegment file id seg ->
  forall pre req l,
    seg = pre ++ EvGenerateContent req :: l ->
    pre = [EvCreateObjectURL; EvTaskPending id; EvReadFile file].
Proof.
  intros Hseg pre req l E.
  destruct Hseg;
    repeat (destruct pre as [|? pre]; cbn in E;
            [ try discriminate E | try discriminate E; injection E as ? E ]);
    subst; reflexivity.
Qed.

Lemma segment_ends_with_cooldown (file : File) (id : string) (seg : list Event) :
  FileSegment file id seg ->
  exists before terminal,
    seg = before ++ [terminal; cooldown] /\ terminalEvent terminal = true.
Proof.
  intros [cat req | msg req | msg].
  - exists [EvCreateObjectURL; EvTaskPending id; EvReadFile file; EvGenerateContent req],
      (EvTaskDone id cat). split; reflexivity.
  - exists [EvCreateObjectURL; EvTaskPending id; EvReadFile file; EvGenerateContent req],
      (EvTaskFailed id msg). split; reflexivity.
  - exists [EvCreateObjectURL; EvTaskPending id; EvReadFile file],
      (EvTaskFailed id msg). split; reflexivity.
Qed.

Lemma batch_ends_with_cooldown (files : list File) (tr : list Event) :
  BatchTrace files tr ->
  tr = [] \/
  exists before terminal,
    tr = before ++ [terminal; cooldown] /\ terminalEvent terminal = true.
Proof.
  induction 1 as [|file id files seg rest Hseg Hrest IH]; [left; reflexivity|].
  right. destruct IH as [-> | (before & terminal & -> & Ht)].
  - rewrite app_nil_r. eapply segment_ends_with_cooldown, Hseg.
  - exists (seg ++ before), terminal. split; [now rewrite app_assoc | exact Ht].
Qed.

Lemma batch_request_after_cooldown (files : list File) (tr : list Event) :
  BatchTrace files tr ->
  forall pre req post,
    tr = pre ++ EvGenerateContent req :: post ->
    exists earlier id file,
      pre = earlier ++ [EvCreateObjectURL; EvTaskPending id; EvReadFile file] /\
      (earlier = [] \/
       exists before terminal,
         earlier = before ++ [terminal; cooldown] /\ terminalEvent terminal = true).
Proof.
  induction 1 as [|file id files seg rest Hseg Hrest IH]; intros pre req post E.
  - destruct pre; discriminate E.
  - destruct (split_at_event _ _ _ _ _ E) as [[l Hl] | [pre' [-> Hr]]].
    + exists [], id, file. split; [|left; reflexivity].
      exact (segment_request_position _ _ _ Hseg _ _ _ Hl).
    + destruct (IH _ _ _ Hr) as (earlier & id' & file' & -> & Hearlier).
      exists (seg ++ earlier), id', file'. split; [now rewrite app_assoc|].
      right. destruct Hearlier as [-> | (before & terminal & -> & Ht)].
      * rewrite app_nil_r. eapply segment_ends_with_cooldown, Hseg.
      * exists (seg ++ before), terminal. split; [now rewrite app_assoc | exact Ht].
Qed.

End BatchOrder.

(** C8: a batch of files is processed in submission order, one file at
    a time: the events of a run are the segments of the files one after the
    other, each segment holding at most one classification request and
    ending with the task reaching [Done] or [Failed] followed by the
    cooldown; so a classification request is only ever preceded by the
    opening events of its own file and, before them, by nothing or by the
    terminal transition and the cooldown of the file before.  Each file is
    taken up in the state the file before it left; a failure attaches its
    message to the task of that file, and the files after it are processed
    all the same: the run never throws. *)
Theorem C8_classification_queue (w : World) (files : list File) (s : Sys) :
  fst (handleStyleUpload w files s) = Returned tt /\
  (exists tr,
     log (snd (handleStyleUpload w files s)) = log s ++ tr /\ BatchTrace files tr) /\
  (forall pre req post,
     log (snd (handleStyleUpload w files s)) = log s ++ pre ++ EvGenerateContent req :: post ->
     exists earlier id file,
       pre = earlier ++ [EvCreateObjectURL; EvTaskPending id; EvReadFile file] /\
       (earlier = [] \/
        exists before terminal,
          earlier = before ++ [terminal; cooldown] /\ terminalEvent terminal = true)) /\
  (forall before file after,
     files = before ++ file :: after ->
     let s1 := snd (uploadLoop w (gender (appState s)) before s) in
     let s2 := snd (processFile w (gender (appState s)) file s1) in
     fst (processFile w (gender (appState s)) file s1) = Returned tt /\
     (exists seg,
        log s2 = log s1 ++ seg /\
        FileSegment file (tempIdAt w s1 file) seg /\
        forall msg,
          In (EvTaskFailed (tempIdAt w s1 file) msg) seg ->
          In (failedTask w s1 file msg) (classifyingItems (appState s2))) /\
     handleStyleUpload w files s = uploadLoop w (gender (appState s)) after s2).
Proof.
  assert (Hrun : handleStyleUpload w files s = uploadLoop w (gender (appState s)) files s)
    by reflexivity.
  rewrite Hrun.
  destruct (uploadLoop_trace w (gender (appState s)) files s) as (tr & s' & E & Hlog & Htr).
  split; [now rewrite E|]. split; [exists tr; now rewrite E|].
  split.
  { intros pre req post Hl. rewrite E in Hl. cbn [snd] in Hl. rewrite Hlog in Hl.
    apply app_inv_head in Hl.
    exact (batch_request_after_cooldown files tr Htr pre req post Hl). }
  intros before file after -> s1 s2.
  split; [apply processFile_returns|]. split.
  - subst s2. destruct (processFile_segment w (gender (appState s)) file s1)
      as (seg & s2' & -> & Hl & Hs & Hf).
    exists seg. repeat split; assumption.
  - subst s2 s1. now rewrite uploadLoop_app, uploadLoop_step.
Qed.

(** A batch of three files whose second cannot be read and whose third is
    refused by the service: the first is classified, the other two stay in
    the pending set with their messages. *)
Lemma C8_classification_queue_witness :
  let w := uploadWorld
             [LoadEnd "data:image/png;base64,QUJD"; ReadError;
              LoadEnd "data:image/png;base64,QUJD"]
             [Ok (categoryResponse "tops"); Fail (ErrorObj "Quota exceeded")] in
  let r := handleStyleUpload w [dressFile; hatFile; bootsFile]
             (sysOf (appWith TryOn topsOnly "")) in
  fst r = Returned tt /\
  map taskError (classifyingItems (appState (snd r)))
  = [Some "There was an error reading the file."; Some quotaMessage] /\
  length (log (snd r)) = 17.
Proof.
  intros w r. split.
  - exact (proj1 (C8_classification_queue w [dressFile; hatFile; bootsFile]
                    (sysOf (appWith TryOn topsOnly "")))).
  - vm_compute. split; reflexivity.
Defined.

(** * Further properties of the code *)

Import Ui Switches Notions Scenario.

(** ** The combination engine *)

Section CartesianShape.

Context {T : Type}.

Lemma cartesianStep_In (acc : list (list T)) (val : list T) (combo : list T) :
  In combo (cartesianStep acc val) <->
  exists d e, In d acc /\ In e val /\ combo = d ++ [e].
Proof.
  unfold cartesianStep. rewrite in_flat_map. split.
  - intros (d & Hd & Hc). apply in_map_iff in Hc. destruct Hc as (e & <- & He).
    exists d, e. auto.
  - intros (d & e & Hd & He & ->). exists d. split; [exact Hd|].
    apply in_map_iff. exists e. auto.
Qed.

Lemma fold_cartesianStep_picks (arrays : list (list T)) :
  forall (acc : list (list T)) (combo : list T),
    In combo (fold_left cartesianStep arrays acc) <->
    exists d picks, In d acc /\ oneFromEach picks arrays /\ combo = d ++ picks.
Proof.
  induction arrays as [|val arrays IH]; intros acc combo; cbn [fold_left].
  - split.
    + intros H. exists combo, []. repeat split; [exact H | constructor | now rewrite app_nil_r].
    + intros (d & picks & Hd & Hp & ->). inversion Hp. now rewrite app_nil_r.
  - rewrite IH. split.
    + intros (d' & picks & Hd' & Hp & ->).
      apply cartesianStep_In in Hd'. destruct Hd' as (d & e & Hd & He & ->).
      exists d, (e :: picks). repeat split; [exact Hd | now constructor |].
      now rewrite <- app_assoc.
    + intros (d & picks & Hd & Hp & ->). inversion Hp as [|e arr picks' arrs He Hp']; subst.
      exists (d ++ [e]), picks'. repeat split; [| exact Hp' | now rewrite <- app_assoc].
      apply cartesianStep_In. exists d, e. auto.
Qed.

Lemma nonEmptyArrays_nil_length (arrays : list (list T)) :
  (length (nonEmptyArrays arrays) =? 0)%nat = true -> nonEmptyArrays arrays = [].
Proof. destruct (nonEmptyArrays arrays); [reflexivity | discriminate]. Qed.

Lemma cartesian_oneFromEach (arrays : list (list T)) (combo : list T) :
  In combo (cartesian arrays) <-> oneFromEach combo (nonEmptyArrays arrays).
Proof.
  unfold cartesian. fold (nonEmptyArrays arrays).
  destruct (length (nonEmptyArrays arrays) =? 0)%nat eqn:E.
  - rewrite (nonEmptyArrays_nil_length _ E). split.
    + intros [<- | []]. constructor.
    + intros H. inversion H. left. reflexivity.
  - rewrite fold_cartesianStep_picks. split.
    + intros (d & picks & [<- | []] & Hp & ->). exact Hp.
    + intros Hp. exists [], combo. repeat split; [left; reflexivity | exact Hp].
Qed.

Lemma cartesianStep_length (acc : list (list T)) (val : list T) :
  length (cartesianStep acc val) = length acc * length val.
Proof.
  unfold cartesianStep. induction acc as [|d acc IH]; cbn; [reflexivity|].
  rewrite List.length_app, length_map, IH. reflexivity.
Qed.

Lemma fold_cartesianStep_length (arrays : list (list T)) :
  forall acc, length (fold_left cartesianStep arrays acc)
              = length acc * fold_right Nat.mul 1 (map (@length T) arrays).
Proof.
  induction arrays as [|val arrays IH]; intros acc; cbn [fold_left map fold_right].
  - lia.
  - rewrite IH, cartesianStep_length. lia.
Qed.

Lemma nonEmpty_product (arrays : list (list T)) :
  fold_right Nat.mul 1 (map (@length T) (nonEmptyArrays arrays))
  = fold_right Nat.mul 1 (map choices arrays).
Proof.
  induction arrays as [|arr arrays IH]; [reflexivity|].
  unfold nonEmptyArrays in *. destruct arr as [|x arr]; simpl.
  - rewrite IH. lia.
  - rewrite IH. reflexivity.
Qed.

Lemma cartesian_length (arrays : list (list T)) :
  length (cartesian arrays) = fold_right Nat.mul 1 (map choices arrays).
Proof.
  rewrite <- nonEmpty_product. unfold cartesian. fold (nonEmptyArrays arrays).
  destruct (length (nonEmptyArrays arrays) =? 0)%nat eqn:E.
  - now rewrite (nonEmptyArrays_nil_length _ E).
  - rewrite fold_cartesianStep_length. cbn [length]. lia.
Qed.

Lemma cartesian_nonempty (arrays : list (list T)) : cartesian arrays <> [].
Proof.
  intros E. apply (f_equal (@length _)) in E. rewrite cartesian_length in E.
  cbn in E. revert E. induction arrays as [|arr arrays IH]; cbn; [discriminate|].
  unfold choices at 1. intros E. apply IH. nia.
Qed.

Lemma oneFromEach_exists (arrays : list (list T)) :
  exists picks, oneFromEach picks (nonEmptyArrays arrays).
Proof.
  induction arrays as [|arr arrays [picks IH]]; [exists []; constructor|].
  unfold nonEmptyArrays in *. destruct arr as [|x arr]; simpl.
  - exists picks. exact IH.
  - exists (x :: picks). constructor; [left; reflexivity | exact IH].
Qed.

Lemma oneFromEach_covers (arrays : list (list T)) (arr : list T) (x : T) :
  In arr arrays -> In x arr ->
  exists picks, oneFromEach picks (nonEmptyArrays arrays) /\ In x picks.
Proof.
  induction arrays as [|a arrays IH]; intros Ha Hx; [destruct Ha|].
  unfold nonEmptyArrays in *. destruct Ha as [-> | Ha].
  - destruct (oneFromEach_exists arrays) as [picks Hp].
    destruct arr as [|y arr]; [destruct Hx|]. simpl.
    exists (x :: picks). split; [constructor; assumption | left; reflexivity].
  - destruct (IH Ha Hx) as (picks & Hp & Hin).
    destruct a as [|y a]; simpl.
    + exists picks. auto.
    + exists (y :: picks). split; [constructor; [left; reflexivity | exact Hp] | right; exact Hin].
Qed.

Lemma cartesian_covers (arrays : list (list T)) (arr : list T) (x : T) :
  In arr arrays -> In x arr ->
  exists combo, In combo (cartesian arrays) /\ In x combo.
Proof.
  intros Ha Hx. destruct (oneFromEach_covers _ _ _ Ha Hx) as (picks & Hp & Hin).
  exists picks. split; [apply cartesian_oneFromEach, Hp | exact Hin].
Qed.

End CartesianShape.

(** X1: the combinations of [cartesian] are exactly the ways of taking
    one element from each non-empty array, in the order of the arrays; there
    are as many as the product of the sizes of the non-empty arrays, and
    never none. *)
Theorem X1_cartesian_picks {T : Type} (arrays : list (list T)) :
  (forall combo, In combo (cartesian arrays) <-> oneFromEach combo (nonEmptyArrays arrays)) /\
  length (cartesian arrays) = fold_right Nat.mul 1 (map choices arrays) /\
  cartesian arrays <> [].
Proof.
  split; [intros combo; apply cartesian_oneFromEach|].
  split; [apply cartesian_length | apply cartesian_nonempty].
Qed.

Section EngineShape.

Lemma baseItems_nonempty (sel : SelectedItems) : baseItems sel <> [].
Proof.
  unfold baseItems. destruct (outfits sel) as [|o os]; cbn [length Nat.ltb Nat.leb].
  - apply cartesian_nonempty.
  - discriminate.
Qed.

(** The [baseItems.length === 0] branch is never taken. *)
Lemma generate_by_base (sel : SelectedItems) :
  generateOutfitCombinations sel
  = flat_map (fun b => map (fun combo => b ++ combo) (accessoryCombos sel)) (baseItems sel).
Proof.
  unfold generateOutfitCombinations.
  pose proof (baseItems_nonempty sel) as H.
  destruct (baseItems sel); [congruence | reflexivity].
Qed.

Lemma generate_In (sel : SelectedItems) (combo : list TryOnItem) :
  In combo (generateOutfitCombinations sel) <->
  exists b acc, In b (baseItems sel) /\ In acc (accessoryCombos sel) /\ combo = b ++ acc.
Proof.
  rewrite generate_by_base, in_flat_map. split.
  - intros (b & Hb & Hc). apply in_map_iff in Hc. destruct Hc as (acc & <- & Hacc).
    exists b, acc. auto.
  - intros (b & acc & Hb & Hacc & ->). exists b. split; [exact Hb|].
    apply in_map_iff. exists acc. auto.
Qed.

Lemma flat_map_length_const {A B} (f : A -> list B) (k : nat) (l : list A) :
  (forall x, length (f x) = k) -> length (flat_map f l) = length l * k.
Proof.
  intros Hf. induction l as [|x l IH]; cbn; [reflexivity|].
  rewrite List.length_app, IH, Hf. reflexivity.
Qed.

Lemma choices_map {A B} (f : A -> B) (l : list A) : choices (map f l) = choices l.
Proof. unfold choices. now rewrite length_map. Qed.

Lemma generate_length (sel : SelectedItems) :
  length (generateOutfitCombinations sel)
  = match outfits sel with
    | [] => choices (tops sel) * choices (bottoms sel)
    | _ :: _ => length (outfits sel)
    end
    * (choices (footwear sel) * choices (headwear sel) * choices (accessories sel)).
Proof.
  rewrite generate_by_base.
  rewrite (flat_map_length_const _ (length (accessoryCombos sel)))
    by (intros b; apply length_map).
  unfold accessoryCombos. rewrite cartesian_length. cbn [map fold_right].
  rewrite !choices_map. f_equal; [|lia].
  unfold baseItems. destruct (outfits sel) as [|o os] eqn:E; cbn [length Nat.ltb Nat.leb].
  - rewrite cartesian_length. cbn [map fold_right]. rewrite !choices_map. lia.
  - now rewrite length_map.
Qed.

(** The categories of the picks from tagged arrays. *)
Lemma picks_tags (cats : list (list FilterItem * string)) :
  forall picks,
    oneFromEach picks
      (nonEmptyArrays (map (fun c => map (fun item => toTryOnItem item (snd c)) (fst c)) cats)) ->
    map category picks = flat_map (fun c => tagIf (fst c) (snd c)) cats.
Proof.
  induction cats as [|[l t] cats IH]; intros picks Hp.
  - inversion Hp. reflexivity.
  - unfold nonEmptyArrays in *. destruct l as [|x l]; simpl in Hp |- *.
    + apply IH, Hp.
    + inversion Hp as [|p arr picks' arrs Hin Hp']; subst. cbn [map]. f_equal.
      * destruct Hin as [<- | Hin]; [reflexivity|].
        apply in_map_iff in Hin. destruct Hin as (item & <- & _). reflexivity.
      * apply IH, Hp'.
Qed.

Lemma accessoryCombos_signature (sel : SelectedItems) (acc : list TryOnItem) :
  In acc (accessoryCombos sel) ->
  map category acc
  = tagIf (footwear sel) "footwear" ++ tagIf (headwear sel) "headwear"
    ++ tagIf (accessories sel) "accessories".
Proof.
  intros H. unfold accessoryCombos in H. apply cartesian_oneFromEach in H.
  rewrite (picks_tags [(footwear sel, "footwear"); (headwear sel, "headwear");
                       (accessories sel, "accessories")] acc H).
  cbn. now rewrite app_nil_r.
Qed.

Lemma baseItems_signature (sel : SelectedItems) (b : list TryOnItem) :
  In b (baseItems sel) ->
  map category b
  = match outfits sel with
    | _ :: _ => ["outfits"]
    | [] => tagIf (tops sel) "tops" ++ tagIf (bottoms sel) "bottoms"
    end.
Proof.
  unfold baseItems. destruct (outfits sel) as [|o os]; cbn [length Nat.ltb Nat.leb].
  - intros H. apply cartesian_oneFromEach in H.
    rewrite (picks_tags [(tops sel, "tops"); (bottoms sel, "bottoms")] b H).
    cbn. now rewrite app_nil_r.
  - intros H. apply in_map_iff in H. destruct H as (item & <- & _). reflexivity.
Qed.

Lemma generate_signature (sel : SelectedItems) (combo : list TryOnItem) :
  In combo (generateOutfitCombinations sel) -> map category combo = signature sel.
Proof.
  intros H. apply generate_In in H. destruct H as (b & acc & Hb & Hacc & ->).
  rewrite map_app, (baseItems_signature _ _ Hb), (accessoryCombos_signature _ _ Hacc).
  reflexivity.
Qed.

Lemma signature_nil (sel : SelectedItems) : signature sel = [] <-> itemsToTryOn sel = [].
Proof.
  unfold signature, itemsToTryOn.
  destruct (outfits sel), (tops sel), (bottoms sel), (footwear sel), (headwear sel),
    (accessories sel); cbn; split; intros H; try reflexivity; discriminate H.
Qed.

End EngineShape.

(** X2: the number of combinations, hence of render requests of a try-on
    run, is the number of outfits (or, without outfits, of tops times
    bottoms) times footwear times headwear times accessories, an empty
    category counting for one. *)
Theorem X2_combination_count (sel : SelectedItems) :
  length (generateOutfitCombinations sel)
  = match outfits sel with
    | [] => choices (tops sel) * choices (bottoms sel)
    | _ :: _ => length (outfits sel)
    end
    * (choices (footwear sel) * choices (headwear sel) * choices (accessories sel)).
Proof. exact (generate_length sel). Qed.

Lemma signature_NoDup (sel : SelectedItems) : List.NoDup (signature sel).
Proof.
  unfold signature.
  destruct (outfits sel), (tops sel), (bottoms sel), (footwear sel), (headwear sel),
    (accessories sel); cbn;
    repeat (apply List.NoDup_cons; [cbn; intuition discriminate|]); apply List.NoDup_nil.
Qed.

(** X3: all the combinations of one selection have the same make-up: the
    categories of their items, in order, are the selected categories in the
    order outfits (or else tops, bottoms), footwear, headwear, accessories;
    so a combination never holds two items of one category. *)
Theorem X3_combination_signature (sel : SelectedItems) (combo : list TryOnItem) :
  In combo (generateOutfitCombinations sel) ->
  map category combo = signature sel /\ List.NoDup (map category combo).
Proof.
  intros H. rewrite (generate_signature sel combo H).
  split; [reflexivity | apply signature_NoDup].
Qed.

Lemma X3_combination_signature_witness :
  In [toTryOnItem itA "tops"; toTryOnItem itC "bottoms"]
     (generateOutfitCombinations twoTopsOneBottom) /\
  map category [toTryOnItem itA "tops"; toTryOnItem itC "bottoms"] = ["tops"; "bottoms"].
Proof.
  assert (H : In [toTryOnItem itA "tops"; toTryOnItem itC "bottoms"]
                 (generateOutfitCombinations twoTopsOneBottom)) by (left; reflexivity).
  split; [exact H|].
  exact (proj1 (X3_combination_signature twoTopsOneBottom _ H)).
Defined.

Lemma generate_nonempty (sel : SelectedItems) :
  generateOutfitCombinations sel <> [] /\ baseItems sel <> [].
Proof.
  split; [|apply baseItems_nonempty].
  intros E. apply (f_equal (@length _)) in E. rewrite generate_length in E.
  cbn [length] in E. unfold choices in E.
  destruct (outfits sel); cbn [length] in E; nia.
Qed.

(** X4: the engine never returns the empty list.  With nothing selected
    it returns the one empty combination; as soon as something is selected,
    which is what enables the button in try-on mode, every combination holds
    at least one item. *)
Theorem X4_never_no_combination (sel : SelectedItems) :
  generateOutfitCombinations sel <> [] /\
  baseItems sel <> [] /\
  (itemsToTryOn sel = [] -> generateOutfitCombinations sel = [[]]) /\
  (itemsToTryOn sel <> [] ->
     Forall (fun combo => combo <> []) (generateOutfitCombinations sel)) /\
  (forall st, selectedItems st = sel -> mode st = TryOn -> isGenerateDisabled st = false ->
              Forall (fun combo => combo <> []) (generateOutfitCombinations sel)).
Proof.
  assert (Hne : generateOutfitCombinations sel <> []).
  { intros E. apply (f_equal (@length _)) in E. rewrite generate_length in E.
    cbn [length] in E. unfold choices in E.
    destruct (outfits sel); cbn [length] in E; nia. }
  assert (Hsome : itemsToTryOn sel <> [] ->
                  Forall (fun combo => combo <> []) (generateOutfitCombinations sel)).
  { intros Hsel. apply List.Forall_forall. intros combo Hc ->.
    apply generate_signature in Hc. cbn in Hc. symmetry in Hc.
    apply signature_nil in Hc. contradiction. }
  split; [exact Hne|]. split; [apply baseItems_nonempty|]. split.
  - unfold itemsToTryOn. intros H.
    apply app_eq_nil in H. destruct H as [Ho H].
    apply app_eq_nil in H. destruct H as [Ht H].
    apply app_eq_nil in H. destruct H as [Hb H].
    apply app_eq_nil in H. destruct H as [Hf H].
    apply app_eq_nil in H. destruct H as [Hh Ha].
    unfold generateOutfitCombinations, baseItems, accessoryCombos.
    rewrite Ho, Ht, Hb, Hf, Hh, Ha. reflexivity.
  - split; [exact Hsome|].
    intros st Hsel Hmode Hen. apply Hsome. intros E.
    unfold isGenerateDisabled in Hen. rewrite Hmode, Hsel, E in Hen. cbn in Hen.
    rewrite !orb_true_r in Hen. discriminate Hen.
Qed.

Lemma X4_never_no_combination_witness :
  Forall (fun combo => combo <> []) (generateOutfitCombinations twoTopsOneBottom).
Proof.
  exact (proj1 (proj2 (proj2 (proj2 (X4_never_no_combination twoTopsOneBottom))))
           ltac:(cbn; discriminate)).
Defined.

(** X5: no selected item is left out.  Every footwear, headwear and
    accessories item selected is in some combination; so is every outfit
    when outfits are selected, and every top and bottom when none is. *)
Theorem X5_every_item_used (sel : SelectedItems) :
  (forall item, In item (footwear sel) ->
     exists combo, In combo (generateOutfitCombinations sel) /\
                   In (toTryOnItem item "footwear") combo) /\
  (forall item, In item (headwear sel) ->
     exists combo, In combo (generateOutfitCombinations sel) /\
                   In (toTryOnItem item "headwear") combo) /\
  (forall item, In item (accessories sel) ->
     exists combo, In combo (generateOutfitCombinations sel) /\
                   In (toTryOnItem item "accessories") combo) /\
  (forall item, In item (outfits sel) ->
     exists combo, In combo (generateOutfitCombinations sel) /\
                   In (toTryOnItem item "outfits") combo) /\
  (outfits sel = [] ->
   (forall item, In item (tops sel) ->
      exists combo, In combo (generateOutfitCombinations sel) /\
                    In (toTryOnItem item "tops") combo) /\
   (forall item, In item (bottoms sel) ->
      exists combo, In combo (generateOutfitCombinations sel) /\
                    In (toTryOnItem item "bottoms") combo)).
Proof.
  assert (Hacc : forall arr x,
             In arr [map (fun item => toTryOnItem item "footwear") (footwear sel);
                     map (fun item => toTryOnItem item "headwear") (headwear sel);
                     map (fun item => toTryOnItem item "accessories") (accessories sel)] ->
             In x arr ->
             exists combo, In combo (generateOutfitCombinations sel) /\ In x combo).
  { intros arr x Ha Hx.
    destruct (cartesian_covers _ _ _ Ha Hx) as (acc & Hacc & Hin).
    destruct (baseItems sel) as [|b bs] eqn:Eb; [now apply baseItems_nonempty in Eb|].
    exists (b ++ acc). split; [|apply in_or_app; right; exact Hin].
    apply generate_In. exists b, acc. rewrite Eb. repeat split; [left; reflexivity | exact Hacc]. }
  assert (Hbase : forall b x, In b (baseItems sel) -> In x b ->
             exists combo, In combo (generateOutfitCombinations sel) /\ In x combo).
  { intros b x Hb Hx.
    destruct (accessoryCombos sel) as [|acc accs] eqn:Ea;
      [now apply cartesian_nonempty in Ea|].
    exists (b ++ acc). split; [|apply in_or_app; left; exact Hx].
    apply generate_In. exists b, acc. rewrite Ea. repeat split; [exact Hb | left; reflexivity]. }
  split.
  { intros item Hi.
    apply (Hacc (map (fun i => toTryOnItem i "footwear") (footwear sel)));
      [left; reflexivity | exact (in_map (fun i => toTryOnItem i "footwear") _ _ Hi)]. }
  split.
  { intros item Hi.
    apply (Hacc (map (fun i => toTryOnItem i "headwear") (headwear sel)));
      [right; left; reflexivity | exact (in_map (fun i => toTryOnItem i "headwear") _ _ Hi)]. }
  split.
  { intros item Hi.
    apply (Hacc (map (fun i => toTryOnItem i "accessories") (accessories sel)));
      [right; right; left; reflexivity
      | exact (in_map (fun i => toTryOnItem i "accessories") _ _ Hi)]. }
  split.
  - intros item Hi. apply (Hbase [toTryOnItem item "outfits"]); [|left; reflexivity].
    unfold baseItems. destruct (outfits sel) as [|o os]; [destruct Hi|].
    cbn [length Nat.ltb Nat.leb].
    apply (in_map (fun item => [toTryOnItem item "outfits"])). exact Hi.
  - intros Ho.
    assert (Hb : baseItems sel
                 = cartesian [map (fun item => toTryOnItem item "tops") (tops sel);
                              map (fun item => toTryOnItem item "bottoms") (bottoms sel)]).
    { unfold baseItems. now rewrite Ho. }
    split; intros item Hi.
    + destruct (cartesian_covers
                  [map (fun item => toTryOnItem item "tops") (tops sel);
                   map (fun item => toTryOnItem item "bottoms") (bottoms sel)]
                  _ (toTryOnItem item "tops") (or_introl eq_refl)
                  (in_map (fun i => toTryOnItem i "tops") _ _ Hi)) as (b & Hin & Hx).
      apply (Hbase b); [now rewrite Hb | exact Hx].
    + destruct (cartesian_covers
                  [map (fun item => toTryOnItem item "tops") (tops sel);
                   map (fun item => toTryOnItem item "bottoms") (bottoms sel)]
                  _ (toTryOnItem item "bottoms") (or_intror (or_introl eq_refl))
                  (in_map (fun i => toTryOnItem i "bottoms") _ _ Hi)) as (b & Hin & Hx).
      apply (Hbase b); [now rewrite Hb | exact Hx].
Qed.

Lemma X5_every_item_used_witness :
  exists combo, In combo (generateOutfitCombinations twoTopsOneBottom) /\
                In (toTryOnItem itB "tops") combo.
Proof.
  exact (proj1 (proj2 (proj2 (proj2 (proj2 (X5_every_item_used twoTopsOneBottom)))) eq_refl)
           itB ltac:(cbn; tauto)).
Defined.

(** ** The service functions *)

Section Friendly.

Lemma parseGeminiError_friendly (e : Thrown) : In (parseGeminiError e) friendlyMessages.
Proof.
  unfold parseGeminiError, friendlyMessages. destruct e as [msg|]; cbn [In]; [|tauto].
  destruct (Js.includes "api key not valid" (Js.toLowerCase msg)); [tauto|].
  destruct (Js.includes "requested entity was not found" (Js.toLowerCase msg)); [tauto|].
  destruct (Js.includes "quota" (Js.toLowerCase msg)); [tauto|].
  destruct (Js.includes "503" (Js.toLowerCase msg) || Js.includes "unavailable" (Js.toLowerCase msg));
    [tauto|].
  destruct (Js.includes "invalid argument" (Js.toLowerCase msg)
            || Js.includes "request was blocked" (Js.toLowerCase msg)); tauto.
Qed.

Lemma tryCatch_rethrow {A} (body : Exec A) (s : Sys) (e : Thrown) :
  fst (tryCatch body rethrowFriendly s) = Threw e ->
  exists raw, e = ErrorObj (parseGeminiError raw).
Proof.
  unfold tryCatch, rethrowFriendly, throwError, throw.
  destruct (body s) as [[a|raw|] s']; cbn; intros H; try discriminate H.
  injection H as <-. exists raw. reflexivity.
Qed.

Lemma thrown_friendly {A} (body : Exec A) (s : Sys) (e : Thrown) :
  fst (tryCatch body rethrowFriendly s) = Threw e ->
  exists msg, e = ErrorObj msg /\ In msg friendlyMessages.
Proof.
  intros H. destruct (tryCatch_rethrow body s e H) as [raw ->].
  eexists. split; [reflexivity | apply parseGeminiError_friendly].
Qed.

End Friendly.

(** X6: whatever goes wrong inside [classifyClothingItem], [virtualTryOn],
    [editImage] or [generateVideo], what they throw is an [Error] whose
    message is one of the six messages of [parseGeminiError]; the messages
    these functions raise themselves (no category, no image, no download
    link) are not among the six, so none of them ever leaves. *)
Theorem X6_only_friendly_errors (w : World) (s : Sys) (e : Thrown) :
  (forall b m, fst (classifyClothingItem w b m s) = Threw e ->
               exists msg, e = ErrorObj msg /\ In msg friendlyMessages) /\
  (forall b m outfit g, fst (virtualTryOn w b m outfit g s) = Threw e ->
                        exists msg, e = ErrorObj msg /\ In msg friendlyMessages) /\
  (forall b m prompt, fst (editImage w b m prompt s) = Threw e ->
                      exists msg, e = ErrorObj msg /\ In msg friendlyMessages) /\
  (forall budget b m prompt ratio res,
     fst (generateVideo w budget b m prompt ratio res s) = Threw e ->
     exists msg, e = ErrorObj msg /\ In msg friendlyMessages) /\
  ~ In noCategoryMessage friendlyMessages /\
  ~ In noImageTryOnMessage friendlyMessages /\
  ~ In noImageEditMessage friendlyMessages /\
  ~ In noDownloadLinkMessage friendlyMessages.
Proof.
  split; [intros b m; apply thrown_friendly|].
  split; [intros b m outfit g; apply thrown_friendly|].
  split; [intros b m prompt; apply thrown_friendly|].
  split; [intros budget b m prompt ratio res; apply thrown_friendly|].
  repeat split; cbn; intros H;
    repeat (destruct H as [H|H]; [vm_compute in H; discriminate H|]); exact H.
Qed.

Lemma X6_only_friendly_errors_witness :
  exists msg,
    fst (virtualTryOn (scriptedWorld [Ok textOnlyResponse] DuringNextRender)
           (base64 photo) (mimeType photo) [] female (sysOf (appWith TryOn topsOnly "")))
    = Threw (ErrorObj msg) /\
    In msg friendlyMessages.
Proof.
  destruct (proj1 (proj2 (X6_only_friendly_errors
                            (scriptedWorld [Ok textOnlyResponse] DuringNextRender)
                            (sysOf (appWith TryOn topsOnly "")) (ErrorObj unexpectedMessage)))
              (base64 photo) (mimeType photo) [] female eq_refl) as (msg & E & Hin).
  exists msg. split; [|exact Hin]. injection E as <-. reflexivity.
Defined.

Section PollerStuck.

Variable w : World.

Lemma pollUntilDone_stuck :
  (forall i op, exists op', getVideosOperation w i op = Ok op' /\ done op' = false) ->
  forall budget operation s,
    done operation = false ->
    exists s',
      pollUntilDone w budget operation s = (Waiting, s') /\
      nPoll s' = nPoll s + budget /\
      length (log s') = length (log s) + 2 * budget /\
      List.filter isSleep (log s') = List.filter isSleep (log s) ++ repeat (EvSleep 10000%N) budget /\
      appState s' = appState s.
Proof.
  intros Hstuck. induction budget as [|budget IH]; intros operation s Hnd.
  - exists s. cbn [pollUntilDone]. rewrite Hnd. cbn [repeat]. rewrite app_nil_r.
    repeat split; lia.
  - cbn [pollUntilDone]. rewrite Hnd. unfold bind at 1. cbn [emit].
    unfold bind at 1. unfold callGetVideosOperation. cbn [nPoll].
    destruct (Hstuck (nPoll s) operation) as (op' & -> & Hnd').
    cbn [liftCompletion ret].
    match goal with
    | |- context [pollUntilDone w budget op' ?s1] =>
        destruct (IH op' s1 Hnd') as (s' & -> & Hn & Hl & Hf & Ha)
    end.
    exists s'. cbn in Hn, Hl, Hf, Ha. split; [reflexivity|].
    split; [lia|]. split.
    + rewrite Hl, !List.length_app. cbn [length]. lia.
    + split; [|exact Ha]. rewrite Hf, !List.filter_app. cbn [List.filter isSleep].
      rewrite <- !app_assoc. reflexivity.
Qed.

End PollerStuck.

(** X7: the poller has no timeout.  When the operation never reports
    completion, [generateVideo] is still waiting after any number of polling
    rounds: it has polled that many times, slept 10000 ms before each poll,
    and neither returned nor thrown; a [handleGenerate] run in video mode is
    then still loading, with no error shown. *)
Theorem X7_poller_no_timeout (w : World) (budget : nat) (s : Sys) (img : UploadedImage)
    (op0 : VideoOperation) :
  (forall i op, exists op', getVideosOperation w i op = Ok op' /\ done op' = false) ->
  generateVideos w (videoRequest (base64 img) (mimeType img) (videoPrompt (appState s))
                      (videoAspectRatio (appState s)) "720p") = Ok op0 ->
  done op0 = false ->
  selectedImage (appState s) = Some img ->
  mode (appState s) = Video ->
  Js.truthy (Js.trim (videoPrompt (appState s))) = true ->
  hasSelectedApiKey w = true ->
  let end_ := handleGenerate w budget s in
  fst end_ = Waiting /\
  nPoll (snd end_) = nPoll s + budget /\
  List.filter isSleep (log (snd end_))
  = List.filter isSleep (log s) ++ repeat (EvSleep 10000%N) budget /\
  isLoading (appState (snd end_)) = true /\
  error (appState (snd end_)) = None /\
  generatedVideoUrl (appState (snd end_)) = None.
Proof.
  intros Hstuck Hgen Hnd Hsel Hmode Hprompt Hkey end_.
  enough (exists s', end_ = (Waiting, s') /\
                     nPoll s' = nPoll s + budget /\
                     List.filter isSleep (log s')
                     = List.filter isSleep (log s) ++ repeat (EvSleep 10000%N) budget /\
                     appState s' = started (appState s))
    as (s' & -> & Hn & Hf & Ha).
  { cbn [fst snd]. rewrite Ha. repeat split; assumption. }
  subst end_.
  rewrite (handleGenerate_selected _ _ _ _ Hsel), Hmode.
  unfold tryFinally, tryCatch, videoBranch. rewrite Hprompt, Hkey. cbn [negb].
  unfold bind at 1. cbn [emit]. unfold bind at 1. unfold generateVideo, tryCatch.
  unfold bind at 1. cbn [emit]. unfold bind at 1. rewrite Hgen.
  cbn [liftCompletion ret]. unfold bind at 1.
  match goal with
  | |- context [pollUntilDone w budget op0 ?s1] =>
      destruct (pollUntilDone_stuck w Hstuck budget op0 s1 Hnd)
        as (s' & -> & Hn & _ & Hf & Ha)
  end.
  cbn in Hn, Hf, Ha. exists s'. split; [reflexivity|].
  split; [exact Hn|]. split; [|exact Ha].
  rewrite Hf, !List.filter_app. cbn. now rewrite !app_nil_r.
Qed.

Lemma X7_poller_no_timeout_witness :
  fst (handleGenerate stuckWorld 25 (sysOf (appWith Video topsOnly "walk"))) = Waiting /\
  nPoll (snd (handleGenerate stuckWorld 25 (sysOf (appWith Video topsOnly "walk")))) = 25.
Proof.
  pose proof (X7_poller_no_timeout stuckWorld 25 (sysOf (appWith Video topsOnly "walk"))
                photo pendingOp
                (fun _ _ => ex_intro _ pendingOp (conj eq_refl eq_refl))
                eq_refl eq_refl eq_refl eq_refl eq_refl eq_refl) as H.
  cbv zeta in H. destruct H as (Hw & Hn & _). split; [exact Hw | exact Hn].
Defined.

(** ** [handleGenerate]: how a run ends *)

Section Settles.

Variable w : World.

Lemma imageCallOutcome_settles (noImage : string) (c : Completion GenerateContentResponse) :
  imageCallOutcome noImage c <> Waiting.
Proof.
  unfold imageCallOutcome. destruct c as [resp|e]; [|discriminate].
  destruct (firstInlineData (responseParts resp)); discriminate.
Qed.

Lemma tryOnLoop_settles (img : UploadedImage) (g : Gender) (outfits : list (list TryOnItem)) :
  forall results s, fst (tryOnLoop w img g outfits results s) <> Waiting.
Proof.
  induction outfits as [|outfit rest IH]; intros results s; [discriminate|].
  cbn [tryOnLoop]. unfold bind at 1. rewrite virtualTryOn_run.
  pose proof (imageCallOutcome_settles noImageTryOnMessage
                (generateContent w (nGenerate s)
                   (tryOnRequest (base64 img) (mimeType img) outfit g))) as Hs.
  destruct (imageCallOutcome _ _) as [[r|]|e|].
  - destruct (Js.truthy r); [|apply IH].
    unfold bind. cbn [setGeneratedImages modifyApp]. apply IH.
  - apply IH.
  - discriminate.
  - congruence.
Qed.

Lemma materialize_settles (img : UploadedImage) (results : list string) :
  forall index newItems s, fst (materialize w img results index newItems s) <> Waiting.
Proof.
  induction results as [|r rs IH]; intros index newItems s; [discriminate|].
  cbn [materialize]. unfold bind at 1. unfold base64ToBlob, bind at 1.
  destruct (atob w r) as [bytes|e]; [|discriminate].
  cbn [liftCompletion ret]. unfold bind at 1. cbn [callCreateObjectURL]. apply IH.
Qed.

Lemma tryOnBranch_settles (st : AppState) (img : UploadedImage) (s : Sys) :
  fst (tryOnBranch w st img s) <> Waiting.
Proof.
  unfold tryOnBranch.
  destruct (length (generateOutfitCombinations (selectedItems st)) =? 0)%nat; [discriminate|].
  destruct (existsb _ _); [discriminate|].
  unfold bind at 1.
  pose proof (tryOnLoop_settles img (gender st)
                (generateOutfitCombinations (selectedItems st)) [] s) as Hl.
  destruct (tryOnLoop w img (gender st) _ [] s) as [[results|e|] s1];
    cbn [fst] in Hl; try discriminate; try congruence.
  destruct (0 <? length results)%nat; [|discriminate].
  unfold bind at 1.
  pose proof (materialize_settles img results 0 [] s1) as Hm.
  destruct (materialize w img results 0 [] s1) as [[newItems|e|] s2];
    cbn [fst] in Hm; try discriminate; try congruence.
  rewrite publishNewItems_run. discriminate.
Qed.

Lemma editBranch_settles (st : AppState) (img : UploadedImage) (s : Sys) :
  fst (editBranch w st img s) <> Waiting.
Proof.
  unfold editBranch. destruct (negb _); [discriminate|].
  unfold bind at 1. rewrite editImage_run.
  pose proof (imageCallOutcome_settles noImageEditMessage
                (generateContent w (nGenerate s)
                   (editRequest (base64 img) (mimeType img) (editPrompt st)))) as Hs.
  destruct (imageCallOutcome _ _) as [[r|]|e|]; [| discriminate | discriminate | congruence].
  destruct (Js.truthy r); [|discriminate].
  unfold bind at 1. cbn [setGeneratedImages modifyApp].
  unfold bind at 1. unfold base64ToBlob, bind at 1.
  destruct (atob w r) as [bytes|e]; [|discriminate].
  cbn [liftCompletion ret]. unfold bind at 1. cbn [callCreateObjectURL].
  unfold bind at 1. cbn [setWorkspaceItems modifyApp]. discriminate.
Qed.

Lemma handleGenerate_outcome (budget : nat) (s : Sys) :
  exists s',
    (handleGenerate w budget s = (Returned tt, s') /\
     (selectedImage (appState s) <> None -> isLoading (appState s') = false))
    \/ (handleGenerate w budget s = (Waiting, s') /\ mode (appState s) = Video).
Proof.
  destruct (selectedImage (appState s)) as [img|] eqn:Hsel.
  - rewrite (handleGenerate_selected w budget s img Hsel).
    unfold tryFinally, tryCatch.
    pose proof (tryOnBranch_settles (appState s) img (withAppOf started s)) as Ht.
    pose proof (editBranch_settles (appState s) img (withAppOf started s)) as He.
    destruct (mode (appState s)).
    + destruct (tryOnBranch w (appState s) img (withAppOf started s)) as [[[]|e|] s1];
        cbn [fst] in Ht; try congruence; eexists; left; split; reflexivity.
    + destruct (editBranch w (appState s) img (withAppOf started s)) as [[[]|e|] s1];
        cbn [fst] in He; try congruence; eexists; left; split; reflexivity.
    + destruct (videoBranch w budget (appState s) img (withAppOf started s))
        as [[[]|e|] s1].
      * eexists; left; split; reflexivity.
      * eexists; left; split; reflexivity.
      * eexists; right; split; reflexivity.
  - eexists. left. split; [|congruence].
    unfold handleGenerate, bind. cbn [getApp]. rewrite Hsel. reflexivity.
Qed.

End Settles.

(** X8: [handleGenerate] never throws: whatever the service, the decoder
    or the reader do, every exception ends as the [error] of the component.
    In try-on and edit mode a run always finishes; in every mode a finished
    run on a selected photo leaves [isLoading] false. *)
Theorem X8_generate_never_throws (w : World) (budget : nat) (s : Sys) :
  (fst (handleGenerate w budget s) = Returned tt \/
   fst (handleGenerate w budget s) = Waiting) /\
  (mode (appState s) <> Video -> fst (handleGenerate w budget s) = Returned tt) /\
  (fst (handleGenerate w budget s) = Returned tt ->
   selectedImage (appState s) <> None ->
   isLoading (appState (snd (handleGenerate w budget s))) = false).
Proof.
  destruct (handleGenerate_outcome w budget s) as [s' [[-> Hl] | [-> Hv]]]; cbn [fst snd].
  - split; [left; reflexivity|]. split; [reflexivity|]. intros _. exact Hl.
  - split; [right; reflexivity|]. split; [congruence|]. discriminate.
Qed.

Lemma X8_generate_never_throws_witness :
  fst (handleGenerate (scriptedWorld [] DuringNextRender) 0
         (sysOf (appWith TryOn topsOnly ""))) = Returned tt.
Proof.
  exact (proj1 (proj2 (X8_generate_never_throws (scriptedWorld [] DuringNextRender) 0
                         (sysOf (appWith TryOn topsOnly ""))))
           ltac:(discriminate)).
Defined.

Section Validation.

Variable w : World.
Variable budget : nat.

Lemma handleGenerate_no_photo (s : Sys) :
  selectedImage (appState s) = None ->
  handleGenerate w budget s
  = (Returned tt,
     withAppOf (withError (Some "Please select a photo from the workspace first.")) s).
Proof.
  intros Hsel. unfold handleGenerate, bind. cbn [getApp]. rewrite Hsel. reflexivity.
Qed.

Lemma handleGenerate_placeholder (s : Sys) (img : UploadedImage) :
  selectedImage (appState s) = Some img ->
  mode (appState s) = TryOn ->
  noPlaceholder (generateOutfitCombinations (selectedItems (appState s))) = false ->
  handleGenerate w budget s
  = (Returned tt,
     withAppOf (withIsLoading false)
       (withAppOf
          (withError (Some "A selected style is a placeholder. Please upload real clothing items."))
          (withAppOf started s))).
Proof.
  intros Hsel Hmode Hp. rewrite (handleGenerate_selected _ _ _ _ Hsel), Hmode.
  unfold tryFinally, tryCatch, tryOnBranch.
  pose proof (proj1 (generate_nonempty (selectedItems (appState s)))) as Hne.
  destruct (generateOutfitCombinations (selectedItems (appState s))) as [|c cs] eqn:E;
    [congruence|].
  cbn [length Nat.eqb]. unfold noPlaceholder in Hp. apply negb_false_iff in Hp.
  rewrite Hp. reflexivity.
Qed.

End Validation.

Section ValidationMore.

Variable w : World.
Variable budget : nat.

Lemma handleGenerate_blank_edit (s : Sys) (img : UploadedImage) :
  selectedImage (appState s) = Some img ->
  mode (appState s) = Edit ->
  Js.truthy (Js.trim (editPrompt (appState s))) = false ->
  handleGenerate w budget s
  = (Returned tt,
     withAppOf (withIsLoading false)
       (withAppOf (withError (Some "Please enter an edit description."))
          (withAppOf started s))).
Proof.
  intros Hsel Hmode Hp. rewrite (handleGenerate_selected _ _ _ _ Hsel), Hmode.
  unfold tryFinally, tryCatch, editBranch. rewrite Hp. reflexivity.
Qed.

Lemma handleGenerate_blank_video (s : Sys) (img : UploadedImage) :
  selectedImage (appState s) = Some img ->
  mode (appState s) = Video ->
  Js.truthy (Js.trim (videoPrompt (appState s))) = false ->
  handleGenerate w budget s
  = (Returned tt,
     withAppOf (withIsLoading false)
       (withAppOf (withError (Some "Please enter a video description."))
          (withAppOf started s))).
Proof.
  intros Hsel Hmode Hp. rewrite (handleGenerate_selected _ _ _ _ Hsel), Hmode.
  unfold tryFinally, tryCatch, videoBranch. rewrite Hp. reflexivity.
Qed.

End ValidationMore.

(** X9: a run that fails validation makes no call to the outside.  With
    no photo selected the run only sets the select-a-photo message (results
    and loading flag are left as they were); with a photo, a placeholder item
    in a combination (try-on), a blank edit description (edit) or a blank
    video description (video) ends the run with the matching message, the
    results cleared, and neither a service call nor a credential check
    made. *)
Theorem X9_validation_makes_no_call (w : World) (budget : nat) (s : Sys) :
  let end_ := handleGenerate w budget s in
  (selectedImage (appState s) = None ->
     fst end_ = Returned tt /\ log (snd end_) = log s /\
     error (appState (snd end_)) = Some "Please select a photo from the workspace first." /\
     generatedImages (appState (snd end_)) = generatedImages (appState s) /\
     isLoading (appState (snd end_)) = isLoading (appState s)) /\
  (forall img,
     selectedImage (appState s) = Some img ->
     (mode (appState s) = TryOn ->
      noPlaceholder (generateOutfitCombinations (selectedItems (appState s))) = false ->
      fst end_ = Returned tt /\ log (snd end_) = log s /\
      nGenerate (snd end_) = nGenerate s /\
      error (appState (snd end_))
      = Some "A selected style is a placeholder. Please upload real clothing items." /\
      generatedImages (appState (snd end_)) = [] /\
      isLoading (appState (snd end_)) = false) /\
     (mode (appState s) = Edit ->
      Js.truthy (Js.trim (editPrompt (appState s))) = false ->
      fst end_ = Returned tt /\ log (snd end_) = log s /\
      nGenerate (snd end_) = nGenerate s /\
      error (appState (snd end_)) = Some "Please enter an edit description." /\
      isLoading (appState (snd end_)) = false) /\
     (mode (appState s) = Video ->
      Js.truthy (Js.trim (videoPrompt (appState s))) = false ->
      fst end_ = Returned tt /\ log (snd end_) = log s /\
      error (appState (snd end_)) = Some "Please enter a video description." /\
      isApiKeySelected (appState (snd end_)) = isApiKeySelected (appState s) /\
      isLoading (appState (snd end_)) = false)).
Proof.
  intros end_. subst end_. split.
  - intros Hsel. rewrite (handleGenerate_no_photo w budget s Hsel). cbn. repeat split.
  - intros img Hsel. split; [|split].
    + intros Hmode Hp. rewrite (handleGenerate_placeholder w budget s img Hsel Hmode Hp).
      cbn. repeat split.
    + intros Hmode Hp. rewrite (handleGenerate_blank_edit w budget s img Hsel Hmode Hp).
      cbn. repeat split.
    + intros Hmode Hp. rewrite (handleGenerate_blank_video w budget s img Hsel Hmode Hp).
      cbn. repeat split.
Qed.

Lemma X9_validation_makes_no_call_witness :
  let end_ := handleGenerate (scriptedWorld [Ok (imageResponse "r1")] DuringNextRender) 0
                (sysOf (appWith TryOn (mkSelected [placeholderItem] [] [] [itA] [] []) "")) in
  log (snd end_) = [] /\
  error (appState (snd end_))
  = Some "A selected style is a placeholder. Please upload real clothing items.".
Proof.
  intros end_.
  pose proof (proj1 (proj2 (X9_validation_makes_no_call
                              (scriptedWorld [Ok (imageResponse "r1")] DuringNextRender) 0
                              (sysOf (appWith TryOn (mkSelected [placeholderItem] [] [] [itA] [] []) "")))
                       photo eq_refl) eq_refl eq_refl) as H.
  destruct H as (_ & Hlog & _ & Herr & _). split; [exact Hlog | exact Herr].
Defined.

(** ** The edit branch *)

Section EditRun.

Variable w : World.
Variable budget : nat.





End EditRun.



(** ** Results with no usable data, and results that do not decode *)

Section LoopData.

Variable w : World.
Variable img : UploadedImage.
Variable g : Gender.

Lemma kept_truthy (datas : list (option string)) (r : string) :
  In r (kept datas) -> Js.truthy r = true /\ In (Some r) datas.
Proof.
  induction datas as [|[x|] ds IH]; cbn; [tauto | | ].
  - destruct (Js.truthy x) eqn:E.
    + intros [->|H]; [split; [exact E | now left] |].
      destruct (IH H). split; [assumption | now right].
    + intros H. destruct (IH H). split; [assumption | now right].
  - intros H. destruct (IH H). split; [assumption | now right].
Qed.

Lemma tryOnLoop_data (outfits : list (list TryOnItem)) :
  forall (datas : list (option string)) (results : list string) (s : Sys),
    generatedImages (appState s) = results ->
    rendersData w (nGenerate s) img g outfits datas ->
    tryOnLoop w img g outfits results s
    = (Returned (results ++ kept datas),
       afterRenders img g outfits (results ++ kept datas) s).
Proof.
  induction outfits as [|outfit os IH]; intros datas results s Hinv Hr.
  - destruct datas; [|contradiction]. cbn [tryOnLoop kept ret]. rewrite app_nil_r.
    f_equal. unfold afterRenders. simpl.
    rewrite (withGeneratedImages_same _ _ Hinv), app_nil_r, Nat.add_0_r.
    destruct s; reflexivity.
  - destruct datas as [|d ds]; [contradiction|].
    destruct Hr as [(resp & Hc & Hd) Hrest].
    cbn [tryOnLoop]. unfold bind at 1.
    rewrite virtualTryOn_run. fold (renderRequest img g outfit).
    rewrite Hc. unfold imageCallOutcome. rewrite Hd.
    assert (Hskip :
      tryOnLoop w img g os results (afterGenerate (renderRequest img g outfit) s)
      = (Returned (results ++ kept ds),
         afterRenders img g (outfit :: os) (results ++ kept ds) s)).
    { rewrite (IH ds results); [| exact Hinv | exact Hrest].
      f_equal. unfold afterRenders, afterGenerate. cbn.
      rewrite <- app_assoc. cbn [app]. now rewrite Nat.add_succ_r. }
    destruct d as [r|]; [| exact Hskip].
    cbn [kept]. destruct (Js.truthy r); [| exact Hskip].
    unfold bind at 1. cbn [setGeneratedImages modifyApp].
    rewrite (IH ds (results ++ [r])); [| reflexivity | exact Hrest].
    rewrite <- app_assoc. cbn [app].
    f_equal. unfold afterRenders, afterGenerate. cbn.
    rewrite <- app_assoc. cbn [app]. now rewrite Nat.add_succ_r.
Qed.

Lemma materialize_undecodable (pre : list string) :
  forall (bad : string) (post : list string) (e : Thrown) (index : nat)
         (newItems : list UploadedImage) (s : Sys),
    decodable w pre = true ->
    atob w bad = Fail e ->
    materialize w img (pre ++ bad :: post) index newItems s
    = (Threw e, afterMaterialize pre s).
Proof.
  induction pre as [|r rs IH]; intros bad post e index newItems s Hd Hbad.
  - cbn [app materialize]. unfold bind at 1. unfold base64ToBlob, bind at 1.
    rewrite Hbad. cbn. unfold afterMaterialize. cbn.
    rewrite app_nil_r, Nat.add_0_r. destruct s; reflexivity.
  - cbn in Hd. apply andb_prop in Hd. destruct Hd as [Hr Hrs].
    cbn [app materialize]. unfold bind at 1. unfold base64ToBlob, bind at 1.
    destruct (atob w r) as [bytes|e']; [|discriminate].
    cbn [liftCompletion ret]. unfold bind at 1. cbn [callCreateObjectURL].
    rewrite (IH bad post e) by assumption.
    f_equal. unfold afterMaterialize. cbn.
    rewrite <- app_assoc. cbn [app]. now rewrite Nat.add_succ_r.
Qed.

End LoopData.

Section GenerateData.

Variable w : World.
Variable budget : nat.

Lemma handleGenerate_loop_data (s : Sys) (img : UploadedImage)
    (datas : list (option string)) :
  selectedImage (appState s) = Some img ->
  mode (appState s) = TryOn ->
  noPlaceholder (generateOutfitCombinations (selectedItems (appState s))) = true ->
  rendersData w (nGenerate s) img (gender (appState s))
    (generateOutfitCombinations (selectedItems (appState s))) datas ->
  handleGenerate w budget s
  = tryFinally
      (tryCatch
         (fun s1 =>
            (if (0 <? length (kept datas))%nat
             then bind (materialize w img (kept datas) 0 [])
                       (fun newItems => publishNewItems w newItems)
             else ret tt) s1)
         (fun err => setError (Some (errorMessageOr "An unknown error occurred." err))))
      (setIsLoading false)
      (afterRenders img (gender (appState s))
         (generateOutfitCombinations (selectedItems (appState s))) (kept datas)
         (withAppOf started s)).
Proof.
  intros Hsel Hmode Hp Hr.
  rewrite (handleGenerate_selected _ _ _ _ Hsel), Hmode.
  unfold tryFinally, tryCatch.
  rewrite tryOnBranch_loop; [| apply generate_nonempty | exact Hp].
  unfold bind at 1.
  rewrite (tryOnLoop_data w img (gender (appState s)) _ datas [] (withAppOf started s)
             eq_refl Hr).
  reflexivity.
Qed.

Lemma handleGenerate_kept (s : Sys) (img : UploadedImage) (datas : list (option string)) :
  selectedImage (appState s) = Some img ->
  mode (appState s) = TryOn ->
  noPlaceholder (generateOutfitCombinations (selectedItems (appState s))) = true ->
  rendersData w (nGenerate s) img (gender (appState s))
    (generateOutfitCombinations (selectedItems (appState s))) datas ->
  decodable w (kept datas) = true ->
  handleGenerate w budget s
  = (Returned tt,
     withAppOf (withIsLoading false)
       (if (0 <? length (kept datas))%nat
        then withAppOf (published w (workspaceEntries w img 0 (nUrl s) (kept datas)))
               (afterMaterialize (kept datas)
                  (afterRenders img (gender (appState s))
                     (generateOutfitCombinations (selectedItems (appState s))) (kept datas)
                     (withAppOf started s)))
        else afterRenders img (gender (appState s))
               (generateOutfitCombinations (selectedItems (appState s))) (kept datas)
               (withAppOf started s))).
Proof.
  intros Hsel Hmode Hp Hr Hd.
  rewrite (handleGenerate_loop_data s img datas Hsel Hmode Hp Hr).
  unfold tryFinally, tryCatch.
  destruct (0 <? length (kept datas))%nat.
  - unfold bind at 1. rewrite materialize_run by exact Hd.
    cbn [app]. rewrite publishNewItems_run. reflexivity.
  - reflexivity.
Qed.

Lemma handleGenerate_undecodable (s : Sys) (img : UploadedImage)
    (datas : list (option string)) (pre post : list string) (bad : string) (e : Thrown) :
  selectedImage (appState s) = Some img ->
  mode (appState s) = TryOn ->
  noPlaceholder (generateOutfitCombinations (selectedItems (appState s))) = true ->
  rendersData w (nGenerate s) img (gender (appState s))
    (generateOutfitCombinations (selectedItems (appState s))) datas ->
  kept datas = pre ++ bad :: post ->
  decodable w pre = true ->
  atob w bad = Fail e ->
  handleGenerate w budget s
  = (Returned tt,
     withAppOf (withIsLoading false)
       (withAppOf (withError (Some (errorMessageOr "An unknown error occurred." e)))
          (afterMaterialize pre
             (afterRenders img (gender (appState s))
                (generateOutfitCombinations (selectedItems (appState s))) (kept datas)
                (withAppOf started s))))).
Proof.
  intros Hsel Hmode Hp Hr Hk Hd Hbad.
  rewrite (handleGenerate_loop_data s img datas Hsel Hmode Hp Hr).
  unfold tryFinally, tryCatch.
  assert (Hlen : (0 <? length (kept datas))%nat = true).
  { apply Nat.ltb_lt. rewrite Hk, List.length_app. cbn. lia. }
  rewrite Hlen. unfold bind at 1. rewrite Hk at 1.
  rewrite (materialize_undecodable w img pre bad post e 0 [] _ Hd Hbad).
  reflexivity.
Qed.

End GenerateData.

(** X11: render calls that answer with an image part carrying no data,
    or empty data, are passed over in silence.  When every call is answered
    with an image part, a try-on run makes one call per combination, shows no
    error, and result buffer and new workspace entries hold exactly the
    non-empty data, in call order; when no call brought any, the run ends
    with nothing shown: no result, no error, workspace and selection as they
    were. *)
Theorem X11_unusable_results_skipped (w : World) (budget : nat) (s : Sys)
    (img : UploadedImage) (datas : list (option string)) :
  selectedImage (appState s) = Some img ->
  mode (appState s) = TryOn ->
  noPlaceholder (generateOutfitCombinations (selectedItems (appState s))) = true ->
  rendersData w (nGenerate s) img (gender (appState s))
    (generateOutfitCombinations (selectedItems (appState s))) datas ->
  decodable w (kept datas) = true ->
  let end_ := handleGenerate w budget s in
  fst end_ = Returned tt /\
  nGenerate (snd end_)
  = nGenerate s + length (generateOutfitCombinations (selectedItems (appState s))) /\
  error (appState (snd end_)) = None /\
  isLoading (appState (snd end_)) = false /\
  generatedImages (appState (snd end_)) = kept datas /\
  workspaceItems (appState (snd end_))
  = rev (workspaceEntries w img 0 (nUrl s) (kept datas)) ++ workspaceItems (appState s) /\
  (kept datas = [] -> selectedImage (appState (snd end_)) = Some img).
Proof.
  intros Hsel Hmode Hp Hr Hd end_. subst end_.
  rewrite (handleGenerate_kept w budget s img datas Hsel Hmode Hp Hr Hd).
  destruct (kept datas) as [|r rs] eqn:E.
  - cbn. repeat split. intros _. exact Hsel.
  - replace (0 <? length (r :: rs))%nat with true by reflexivity.
    cbn -[published workspaceEntries rev generateOutfitCombinations].
    rewrite published_workspace, published_error, published_generatedImages.
    cbn -[workspaceEntries rev generateOutfitCombinations].
    repeat split. discriminate.
Qed.

Lemma X11_unusable_results_skipped_witness :
  let end_ := handleGenerate
                (scriptedWorld [Ok hollowResponse; Ok (imageResponse "r2")] DuringNextRender) 0
                (sysOf (appWith TryOn topsOnly "")) in
  nGenerate (snd end_) = 2 /\
  error (appState (snd end_)) = None /\
  generatedImages (appState (snd end_)) = ["r2"].
Proof.
  intros end_.
  assert (Hr : rendersData
                 (scriptedWorld [Ok hollowResponse; Ok (imageResponse "r2")] DuringNextRender)
                 0 photo female (generateOutfitCombinations topsOnly) [None; Some "r2"]).
  { cbn. repeat split; eexists; split; reflexivity. }
  pose proof (X11_unusable_results_skipped
                (scriptedWorld [Ok hollowResponse; Ok (imageResponse "r2")] DuringNextRender) 0
                (sysOf (appWith TryOn topsOnly "")) photo [None; Some "r2"]
                eq_refl eq_refl eq_refl Hr eq_refl) as H.
  destruct H as (_ & Hn & He & _ & Hg & _).
  split; [exact Hn | split; [exact He | exact Hg]].
Defined.

(** X12: a result that does not decode stops the materialisation.
    When the kept results are [pre ++ bad :: post] and [atob] refuses [bad],
    the run shows the decoder's message, the result buffer still holds every
    kept result, and the workspace gets no entry at all and the selection
    stays, although an object URL was minted for each result of [pre]. *)
Theorem X12_undecodable_result (w : World) (budget : nat) (s : Sys)
    (img : UploadedImage) (datas : list (option string))
    (pre post : list string) (bad : string) (e : Thrown) :
  selectedImage (appState s) = Some img ->
  mode (appState s) = TryOn ->
  noPlaceholder (generateOutfitCombinations (selectedItems (appState s))) = true ->
  rendersData w (nGenerate s) img (gender (appState s))
    (generateOutfitCombinations (selectedItems (appState s))) datas ->
  kept datas = pre ++ bad :: post ->
  decodable w pre = true ->
  atob w bad = Fail e ->
  let end_ := handleGenerate w budget s in
  fst end_ = Returned tt /\
  error (appState (snd end_)) = Some (errorMessageOr "An unknown error occurred." e) /\
  isLoading (appState (snd end_)) = false /\
  generatedImages (appState (snd end_)) = kept datas /\
  workspaceItems (appState (snd end_)) = workspaceItems (appState s) /\
  selectedImage (appState (snd end_)) = Some img /\
  nUrl (snd end_) = nUrl s + length pre.
Proof.
  intros Hsel Hmode Hp Hr Hk Hd Hbad end_. subst end_.
  rewrite (handleGenerate_undecodable w budget s img datas pre post bad e
             Hsel Hmode Hp Hr Hk Hd Hbad).
  cbn. repeat split. exact Hsel.
Qed.

Lemma X12_undecodable_result_witness :
  let end_ := handleGenerate
                (pickyWorld [Ok (imageResponse "r1"); Ok (imageResponse "r2")] "r2") 0
                (sysOf (appWith TryOn topsOnly "")) in
  error (appState (snd end_)) = Some "The string to be decoded is not correctly encoded." /\
  generatedImages (appState (snd end_)) = ["r1"; "r2"] /\
  workspaceItems (appState (snd end_)) = [photo] /\
  nUrl (snd end_) = 1.
Proof.
  intros end_.
  assert (Hr : rendersData
                 (pickyWorld [Ok (imageResponse "r1"); Ok (imageResponse "r2")] "r2")
                 0 photo female (generateOutfitCombinations topsOnly) [Some "r1"; Some "r2"]).
  { cbn. repeat split; eexists; split; reflexivity. }
  pose proof (X12_undecodable_result
                (pickyWorld [Ok (imageResponse "r1"); Ok (imageResponse "r2")] "r2") 0
                (sysOf (appWith TryOn topsOnly "")) photo [Some "r1"; Some "r2"]
                ["r1"] [] "r2" _
                eq_refl eq_refl eq_refl Hr eq_refl eq_refl eq_refl) as H.
  destruct H as (_ & He & _ & Hg & Hw & _ & Hu).
  split; [exact He | split; [exact Hg | split; [exact Hw | exact Hu]]].
Defined.

(** ** What the result panel shows after a try-on run *)

Section Panel.

Lemma parseGeminiError_truthy (e : Thrown) : Js.truthy (parseGeminiError e) = true.
Proof.
  pose proof (parseGeminiError_friendly e) as H.
  unfold friendlyMessages in H. cbn [In] in H.
  destruct H as [<-|[<-|[<-|[<-|[<-|[<-|[]]]]]]]; reflexivity.
Qed.

Lemma ResultDisplay_settled (st : AppState) :
  isLoading st = false ->
  generatedVideoUrl st = None ->
  ResultDisplay st
  = match error st with
    | Some message =>
        if Js.truthy message then ErrorPanel message
        else if (0 <? length (generatedImages st))%nat
             then ImageGrid (generatedImages st) false else Placeholder
    | None =>
        if (0 <? length (generatedImages st))%nat
        then ImageGrid (generatedImages st) false else Placeholder
    end.
Proof.
  intros Hl Hv. unfold ResultDisplay. rewrite Hl, Hv. cbn [andb].
  destruct (error st) as [m|]; cbn [Js.truthyOpt]; [|reflexivity].
  destruct (Js.truthy m); reflexivity.
Qed.

Lemma published_video (w : World) (entries : list UploadedImage) (st : AppState) :
  generatedVideoUrl (published w entries st) = generatedVideoUrl st.
Proof.
  unfold published.
  destruct (match updaterRun w with
            | DuringSetState => rev entries
            | DuringNextRender => entries
            end); reflexivity.
Qed.

End Panel.

(** X13: what the result panel shows once a try-on run is over.  After
    a run stopped by a failing render call the panel is the error panel with
    the normalised message: the images of the calls that went through are in
    the result buffer but are not shown.  After a run whose calls all handed
    back an image that decodes, the panel is the grid of these images,
    without the generating-more line. *)
Theorem X13_panel_after_try_on (w : World) (budget : nat) (s : Sys) (img : UploadedImage) :
  selectedImage (appState s) = Some img ->
  mode (appState s) = TryOn ->
  noPlaceholder (generateOutfitCombinations (selectedItems (appState s))) = true ->
  let end_ := handleGenerate w budget s in
  (forall before failing after imgs raw,
     generateOutfitCombinations (selectedItems (appState s)) = before ++ failing :: after ->
     rendersImages w (nGenerate s) img (gender (appState s)) before imgs = true ->
     rawFailure noImageTryOnMessage
       (generateContent w (nGenerate s + length before)
          (renderRequest img (gender (appState s)) failing)) = Some raw ->
     generatedImages (appState (snd end_)) = imgs /\
     ResultDisplay (appState (snd end_)) = ErrorPanel (parseGeminiError raw)) /\
  (forall imgs,
     rendersImages w (nGenerate s) img (gender (appState s))
       (generateOutfitCombinations (selectedItems (appState s))) imgs = true ->
     decodable w imgs = true ->
     ResultDisplay (appState (snd end_)) = ImageGrid imgs false).
Proof.
  intros Hsel Hmode Hp end_. subst end_. split.
  - intros before failing after imgs raw Hc Hr Hraw.
    rewrite Hc in Hp.
    rewrite (handleGenerate_fail_fast w budget s img before failing after imgs raw
               Hsel Hmode Hc Hp Hr Hraw).
    split; [reflexivity|].
    rewrite ResultDisplay_settled by reflexivity.
    cbn [snd withAppOf appState afterGenerate afterRenders withIsLoading withError error].
    now rewrite parseGeminiError_truthy.
  - intros imgs Hr Hd.
    rewrite (handleGenerate_all_rendered w budget s img imgs Hsel Hmode
               (proj1 (generate_nonempty _)) Hp Hr Hd).
    assert (Hlen : (0 <? length imgs)%nat = true).
    { apply Nat.ltb_lt. rewrite (rendersImages_length _ _ _ _ _ _ Hr).
      pose proof (proj1 (generate_nonempty (selectedItems (appState s)))) as Hne.
      destruct (generateOutfitCombinations (selectedItems (appState s)));
        [congruence | cbn; lia]. }
    rewrite ResultDisplay_settled.
    + cbn -[published workspaceEntries generateOutfitCombinations].
      rewrite published_error, published_generatedImages.
      destruct imgs as [|r rs]; [discriminate Hlen | reflexivity].
    + reflexivity.
    + cbn -[published workspaceEntries generateOutfitCombinations].
      now rewrite published_video.
Qed.

Lemma X13_panel_after_try_on_witness :
  let w := scriptedWorld [Ok (imageResponse "r1"); Fail (ErrorObj "Quota exceeded")]
             DuringNextRender in
  let end_ := handleGenerate w 0 (sysOf (appWith TryOn twoTopsOneBottom "")) in
  generatedImages (appState (snd end_)) = ["r1"] /\
  ResultDisplay (appState (snd end_)) = ErrorPanel quotaMessage.
Proof.
  intros w end_.
  exact (proj1 (X13_panel_after_try_on w 0 (sysOf (appWith TryOn twoTopsOneBottom "")) photo
                  eq_refl eq_refl eq_refl)
           [[toTryOnItem itA "tops"; toTryOnItem itC "bottoms"]]
           [toTryOnItem itB "tops"; toTryOnItem itC "bottoms"] []
           ["r1"] (ErrorObj "Quota exceeded") eq_refl eq_refl eq_refl).
Defined.

(** ** A video run *)

Section VideoRun.

Variable w : World.

Lemma pollUntilDone_appState (budget : nat) :
  forall operation s, appState (snd (pollUntilDone w budget operation s)) = appState s.
Proof.
  induction budget as [|budget IH]; intros operation s; cbn [pollUntilDone].
  - destruct (done operation); reflexivity.
  - destruct (done operation); [reflexivity|].
    unfold bind at 1. cbn [emit]. unfold bind at 1. unfold callGetVideosOperation.
    destruct (getVideosOperation w _ operation) as [op'|e]; cbn [liftCompletion ret throw].
    + rewrite IH. reflexivity.
    + reflexivity.
Qed.

Lemma download_appState (operation : VideoOperation) (s : Sys) :
  appState (snd (download w operation s)) = appState s.
Proof.
  unfold download. destruct (uri operation) as [link|]; [|reflexivity].
  destruct (Js.truthy link); [|reflexivity].
  unfold bind at 1. cbn [emit]. unfold bind at 1.
  destruct (fetch w (downloadTarget w link)) as [response|e]; [|reflexivity].
  cbn [liftCompletion ret]. destruct (ok response); [|reflexivity].
  unfold bind at 1. destruct (body response); reflexivity.
Qed.

Lemma generateVideo_appState (budget : nat) (b m prompt : string) (ratio : AspectRatio)
    (res : string) (s : Sys) :
  appState (snd (generateVideo w budget b m prompt ratio res s)) = appState s.
Proof.
  unfold generateVideo, tryCatch. unfold bind at 1. cbn [emit]. unfold bind at 1.
  destruct (generateVideos w (videoRequest b m prompt ratio res)) as [op0|e];
    [|reflexivity].
  cbn [liftCompletion ret]. unfold bind at 1.
  match goal with
  | |- context [pollUntilDone w budget op0 ?s0] =>
      pose proof (pollUntilDone_appState budget op0 s0) as Hp;
      destruct (pollUntilDone w budget op0 s0) as [[op|e|] s1]
  end; cbn [snd appState] in Hp.
  - pose proof (download_appState op s1) as Hd.
    destruct (download w op s1) as [[u|e|] s2]; cbn [snd] in Hd |- *;
      unfold rethrowFriendly, throwError, throw; cbn [snd]; congruence.
  - unfold rethrowFriendly, throwError, throw; cbn [snd]. exact Hp.
  - cbn [snd]. exact Hp.
Qed.

Lemma friendly_credential (msg : string) :
  In msg friendlyMessages ->
  Js.includes "API Key not found" msg = String.eqb msg credentialMessage.
Proof.
  unfold friendlyMessages. cbn [In].
  intros [<-|[<-|[<-|[<-|[<-|[<-|[]]]]]]]; reflexivity.
Qed.

Lemma handleGenerate_video_call (budget : nat) (s : Sys) (img : UploadedImage) :
  selectedImage (appState s) = Some img ->
  mode (appState s) = Video ->
  Js.truthy (Js.trim (videoPrompt (appState s))) = true ->
  hasSelectedApiKey w = true ->
  handleGenerate w budget s
  = match generateVideo w budget (base64 img) (mimeType img) (videoPrompt (appState s))
            (videoAspectRatio (appState s)) "720p" (afterKeyCheck s) with
    | (Returned videoUrl, sv) =>
        (Returned tt,
         withAppOf (withIsLoading false)
           (withAppOf (withGeneratedVideoUrl (Some videoUrl)) sv))
    | (Threw (ErrorObj msg), sv) =>
        (Returned tt,
         withAppOf (withIsLoading false)
           (withAppOf (withError (Some msg))
              (if Js.includes "API Key not found" msg
               then withAppOf (withIsApiKeySelected false) sv else sv)))
    | (Threw NonError, sv) =>
        (Returned tt,
         withAppOf (withIsLoading false)
           (withAppOf (withError (Some "An unknown error occurred.")) sv))
    | (Waiting, sv) => (Waiting, sv)
    end.
Proof.
  intros Hsel Hmode Hprompt Hkey.
  rewrite (handleGenerate_selected _ _ _ _ Hsel), Hmode.
  unfold tryFinally, tryCatch, videoBranch. rewrite Hprompt. cbn [negb].
  unfold bind at 1. cbn [emit]. rewrite Hkey. cbn [negb].
  unfold afterKeyCheck. unfold tryCatch, bind. cbn -[generateVideo].
  match goal with
  | |- context [generateVideo ?a ?b ?c ?d ?e ?f ?g ?h] =>
      destruct (generateVideo a b c d e f g h) as [[u|[msg|]|] sv]
  end; cbv beta iota; try reflexivity.
  destruct (Js.includes "API Key not found" msg); reflexivity.
Qed.

End VideoRun.

(** X14: a video run with a non-blank description and the credential
    reported present, read off the outcome of the [generateVideo] call it
    makes.  If the call returns a URL, that URL becomes the video result, no
    error is shown, and workspace, selection and image buffer get nothing
    (a video is not added to the workspace).  If the call throws, the message
    is one of the six of the normaliser and is shown as it is, and the
    credential flag is cleared exactly when it is the credential message,
    and kept otherwise (also for an invalid key). *)
Theorem X14_video_run (w : World) (budget : nat) (s : Sys) (img : UploadedImage) :
  selectedImage (appState s) = Some img ->
  mode (appState s) = Video ->
  Js.truthy (Js.trim (videoPrompt (appState s))) = true ->
  hasSelectedApiKey w = true ->
  let call := generateVideo w budget (base64 img) (mimeType img) (videoPrompt (appState s))
                (videoAspectRatio (appState s)) "720p" (afterKeyCheck s) in
  let end_ := handleGenerate w budget s in
  (forall videoUrl,
     fst call = Returned videoUrl ->
     fst end_ = Returned tt /\
     log (snd end_) = log (snd call) /\
     generatedVideoUrl (appState (snd end_)) = Some videoUrl /\
     error (appState (snd end_)) = None /\
     isLoading (appState (snd end_)) = false /\
     isApiKeySelected (appState (snd end_)) = isApiKeySelected (appState s) /\
     generatedImages (appState (snd end_)) = [] /\
     workspaceItems (appState (snd end_)) = workspaceItems (appState s) /\
     selectedImage (appState (snd end_)) = Some img) /\
  (forall e,
     fst call = Threw e ->
     exists msg,
       e = ErrorObj msg /\ In msg friendlyMessages /\
       fst end_ = Returned tt /\
       log (snd end_) = log (snd call) /\
       error (appState (snd end_)) = Some msg /\
       generatedVideoUrl (appState (snd end_)) = None /\
       isLoading (appState (snd end_)) = false /\
       isApiKeySelected (appState (snd end_))
       = if String.eqb msg credentialMessage then false
         else isApiKeySelected (appState s)).
Proof.
  intros Hsel Hmode Hprompt Hkey call end_. subst end_.
  rewrite (handleGenerate_video_call w budget s img Hsel Hmode Hprompt Hkey).
  pose proof (generateVideo_appState w budget (base64 img) (mimeType img)
                (videoPrompt (appState s)) (videoAspectRatio (appState s)) "720p"
                (afterKeyCheck s)) as Happ.
  pose proof (fun e => thrown_friendly
                (let req := videoRequest (base64 img) (mimeType img)
                              (videoPrompt (appState s)) (videoAspectRatio (appState s))
                              "720p" in
                 bind (emit (EvGenerateVideos req))
                   (fun _ => bind (liftCompletion (generateVideos w req))
                      (fun operation0 => bind (pollUntilDone w budget operation0)
                         (fun operation => download w operation))))
                (afterKeyCheck s) e) as Hfr.
  change (tryCatch _ rethrowFriendly (afterKeyCheck s)) with call in Hfr.
  fold call in Happ. fold call.
  destruct call as [o sv]. cbn [fst snd] in *. cbn [afterKeyCheck appState] in Happ.
  split.
  - intros videoUrl ->. cbn [fst snd withAppOf appState log].
    rewrite Happ. cbn. repeat split. exact Hsel.
  - intros e ->. destruct (Hfr e eq_refl) as (msg & -> & Hin).
    exists msg. split; [reflexivity|]. split; [exact Hin|].
    rewrite (friendly_credential msg Hin).
    destruct (String.eqb msg credentialMessage);
      cbn [fst snd withAppOf appState log]; rewrite Happ; cbn; repeat split.
Qed.

Lemma X14_video_run_witness :
  let w := videoWorld (Ok pendingOp) [Ok pendingOp; Ok finishedOp] (Ok okDownload) true in
  let end_ := handleGenerate w 2 (sysOf (appWith Video topsOnly "walk")) in
  generatedVideoUrl (appState (snd end_)) = Some "blob:generated-0" /\
  workspaceItems (appState (snd end_)) = [photo].
Proof.
  intros w end_.
  pose proof (proj1 (X14_video_run w 2 (sysOf (appWith Video topsOnly "walk")) photo
                       eq_refl eq_refl eq_refl eq_refl) "blob:generated-0" eq_refl) as H.
  destruct H as (_ & _ & Hv & _ & _ & _ & _ & Hw & _).
  split; [exact Hv | exact Hw].
Defined.

(** ** Uploading styles *)

Section Upload.

Variable w : World.

Lemma classifyClothingItem_answer (b m : string) (s : Sys) :
  classifyClothingItem w b m s
  = (match classifyAnswer w (generateContent w (nGenerate s) (classifyRequest b m)) with
     | inl cat => Returned cat
     | inr msg => Threw (ErrorObj msg)
     end,
     afterGenerate (classifyRequest b m) s).
Proof.
  unfold classifyClothingItem, classifyAnswer, tryCatch, bind, callGenerateContent,
    liftCompletion, rethrowFriendly, throwError, throw, ret.
  fold (afterGenerate (classifyRequest b m) s).
  destruct (generateContent w (nGenerate s) (classifyRequest b m)) as [resp|e];
    [|reflexivity].
  destruct (parseCategory w (responseText resp)) as [[c|]|e]; try reflexivity.
  destruct (Js.truthy c); reflexivity.
Qed.

Ltac upload_state :=
  unfold bind, tryCatch, setClassifyingItems, modifyApp, unmount, emit, throwError, throw,
    ret, uploadEnd, filedUpload, unfiledUpload, failedUpload, withCatalogue, dropTask,
    attachError, pendingTask, uploadedItem, cooldown, afterGenerate, errorMessageOr;
  cbn; rewrite <- ?app_assoc; cbn; rewrite ?Nat.add_1_r, ?Nat.add_0_r; reflexivity.

Lemma processFile_run (g : Gender) (file : File) (s : Sys) :
  processFile w g file s = (Returned tt, afterFile w g file s).
Proof.
  unfold processFile, afterFile.
  unfold bind at 1. cbn [callDateNow]. fold (tempIdAt w s file).
  unfold bind at 1. cbn [callCreateObjectURL].
  unfold bind at 1. cbn [setClassifyingItems modifyApp].
  unfold bind at 1. cbn [emit].
  unfold bind at 1. unfold tryCatch at 1.
  unfold bind at 1. unfold readFileAsBase64.
  cbn [nRead log nGenerate nPoll nUrl nNow appState].
  destruct (readAsDataURL w (nRead s) file) as [result| |]; cbn [readAnswer].
  - cbn [ret]. unfold bind at 1. rewrite classifyClothingItem_answer.
    cbn [nGenerate].
    destruct (classifyAnswer w _) as [cat|msg].
    + fold (uploadedItem w s file (nth 1 (split "," result) EmptyString)).
      unfold bind at 1.
      destruct g; unfold handleItemAdd, setFemaleCatalogue, setMaleCatalogue;
        unfold bind at 1; cbn [getApp afterGenerate appState withClassifyingItems
                                 femaleCatalogue maleCatalogue catalogueOf];
        destruct (addToCatalogue _ cat _) as [next|]; upload_state.
    + upload_state.
  - upload_state.
  - upload_state.
Qed.

End Upload.

Section UploadFacts.

Variable w : World.

Lemma dropTask_pending (id : string) (tasks : list ClassifyingItem) (name u : string)
    (e : option string) :
  dropTask id (tasks ++ [mkClassifying id name u e]) = dropTask id tasks.
Proof.
  unfold dropTask. rewrite List.filter_app. cbn. rewrite String.eqb_refl. cbn.
  apply app_nil_r.
Qed.

Lemma attachError_pending (id msg : string) (tasks : list ClassifyingItem)
    (name u : string) (e : option string) :
  attachError id msg (tasks ++ [mkClassifying id name u e])
  = attachError id msg tasks ++ [mkClassifying id name u (Some msg)].
Proof.
  unfold attachError. rewrite map_app. cbn. now rewrite String.eqb_refl.
Qed.

Lemma addToCatalogue_fileable (item : FilterItem) (cat : string)
    (catalogue : gmap string (list FilterItem)) :
  fileable cat catalogue = true ->
  addToCatalogue item cat catalogue
  = Some (<[cat := default [] (catalogue !! cat) ++ [item]]> catalogue).
Proof.
  unfold fileable, addToCatalogue. destruct (catalogue !! cat) as [entries|]; [reflexivity|].
  intros H. apply negb_true_iff in H. now rewrite H.
Qed.

Lemma addToCatalogue_throws (item : FilterItem) (cat : string)
    (catalogue : gmap string (list FilterItem)) :
  fileable cat catalogue = false -> addToCatalogue item cat catalogue = None.
Proof.
  unfold fileable, addToCatalogue. destruct (catalogue !! cat) as [entries|]; [discriminate|].
  intros H. apply negb_false_iff in H. now rewrite H.
Qed.

(** Whatever the updater does, it only appends: under every key the old
    entries stay, followed by at most one new one. *)
Lemma addToCatalogue_appends (item : FilterItem) (cat : string)
    (catalogue next : gmap string (list FilterItem)) (k : string) :
  addToCatalogue item cat catalogue = Some next ->
  exists added,
    default [] (next !! k) = default [] (catalogue !! k) ++ added /\ length added <= 1.
Proof.
  intros H.
  assert (Hnext : next = <[cat := default [] (catalogue !! cat) ++ [item]]> catalogue).
  { unfold addToCatalogue in H. destruct (catalogue !! cat) as [entries|].
    - now injection H as <-.
    - destruct (Js.inherited cat); [discriminate|]. now injection H as <-. }
  subst next. destruct (String.eqb_spec k cat) as [->|Hne].
  - exists [item]. rewrite lookup_insert_eq. split; [reflexivity | cbn; lia].
  - exists []. rewrite lookup_insert_ne by congruence.
    split; [now rewrite app_nil_r | cbn; lia].
Qed.

Lemma classifyAnswer_inl (c : Completion GenerateContentResponse) (cat : string) :
  classifyAnswer w c = inl cat ->
  exists response,
    c = Ok response /\ parseCategory w (responseText response) = Ok (Some cat).
Proof.
  unfold classifyAnswer. destruct c as [response|e]; [|discriminate].
  destruct (parseCategory w (responseText response)) as [[c|]|e] eqn:Hparse;
    try discriminate.
  destruct (Js.truthy c); [|discriminate]. intros [= ->].
  exists response. split; [reflexivity | exact Hparse].
Qed.

Lemma afterFile_classified (g : Gender) (file : File) (s : Sys) (result cat : string)
    (response : GenerateContentResponse) :
  readAsDataURL w (nRead s) file = LoadEnd result ->
  generateContent w (nGenerate s)
    (classifyRequest (nth 1 (split "," result) EmptyString) (fileType file)) = Ok response ->
  parseCategory w (responseText response) = Ok (Some cat) ->
  Js.truthy cat = true ->
  afterFile w g file s
  = let b64 := nth 1 (split "," result) EmptyString in
    match addToCatalogue (uploadedItem w s file b64) cat (catalogueOf g (appState s)) with
    | Some next =>
        uploadEnd w s file [classifyRequest b64 (fileType file)]
          (filedUpload w g s file next) (EvTaskDone (tempIdAt w s file) cat) (unmounted s)
    | None =>
        uploadEnd w s file [classifyRequest b64 (fileType file)]
          (unfiledUpload w s file) (EvTaskDone (tempIdAt w s file) cat) true
    end.
Proof.
  intros Hread Hgen Hparse Htruthy. unfold afterFile.
  rewrite Hread. cbn [readAnswer]. rewrite Hgen. unfold classifyAnswer.
  rewrite Hparse, Htruthy. reflexivity.
Qed.

Lemma processFile_failed (g : Gender) (file : File) (s : Sys) (msg : string)
    (calls : list GenerateContentRequest) :
  (readAnswer (readAsDataURL w (nRead s) file) = inr msg /\ calls = []) \/
  (exists b64,
     readAnswer (readAsDataURL w (nRead s) file) = inl b64 /\
     classifyAnswer w (generateContent w (nGenerate s) (classifyRequest b64 (fileType file)))
     = inr msg /\
     calls = [classifyRequest b64 (fileType file)]) ->
  processFile w g file s
  = (Returned tt,
     uploadEnd w s file calls (failedUpload w s file msg)
       (EvTaskFailed (tempIdAt w s file) msg) (unmounted s)).
Proof.
  rewrite processFile_run. unfold afterFile.
  intros [[-> ->] | (b64 & -> & -> & ->)]; reflexivity.
Qed.

Lemma failedUpload_facts (g : Gender) (file : File) (s : Sys) (msg : string)
    (calls : list GenerateContentRequest) :
  let end_ := uploadEnd w s file calls (failedUpload w s file msg)
                (EvTaskFailed (tempIdAt w s file) msg) (unmounted s) in
  femaleCatalogue (appState end_) = femaleCatalogue (appState s) /\
  maleCatalogue (appState end_) = maleCatalogue (appState s) /\
  classifyingItems (appState end_)
  = attachError (tempIdAt w s file) msg (classifyingItems (appState s))
    ++ [failedTask w s file msg] /\
  nGenerate end_ = nGenerate s + length calls /\
  log end_
  = log s ++ [EvCreateObjectURL; EvTaskPending (tempIdAt w s file); EvReadFile file]
          ++ map EvGenerateContent calls
          ++ [EvTaskFailed (tempIdAt w s file) msg; cooldown].
Proof.
  intros end_. subst end_. unfold uploadEnd, failedUpload, pendingTask. cbn [appState log nGenerate].
  split; [reflexivity|]. split; [reflexivity|].
  split; [cbn [withClassifyingItems classifyingItems]; apply attachError_pending|].
  split; reflexivity.
Qed.

End UploadFacts.

Ltac catalogue_fields :=
  cbn [catalogueOf withCatalogue withClassifyingItems withFemaleCatalogue
       withMaleCatalogue femaleCatalogue maleCatalogue].

(** X15: a file that is read and classified, and what becomes of it.
    The handler goes on to the cooldown in any case, after one request.
    Where the category the service named can be filed (the catalogue of the
    gender the handler was built for has an entry under it, or it is no
    property name of [Object.prototype]), the item built from the file
    (identifier from the clock and the file name, name from [styleName], the
    data after the comma of the data URL) is appended at the end of the
    entries of that category, listed in the schema or not; other categories
    and the other catalogue are untouched, and the pending set loses the
    tasks carrying the identifier of the file.  Where it cannot (a name such
    as [constructor] or [toString] with no entry of its own), the updater
    throws: nothing is filed and the tree is unmounted. *)
Theorem X15_upload_files_item (w : World) (g : Gender) (file : File) (s : Sys)
    (result cat : string) (response : GenerateContentResponse) :
  readAsDataURL w (nRead s) file = LoadEnd result ->
  generateContent w (nGenerate s)
    (classifyRequest (nth 1 (split "," result) EmptyString) (fileType file)) = Ok response ->
  parseCategory w (responseText response) = Ok (Some cat) ->
  Js.truthy cat = true ->
  let b64 := nth 1 (split "," result) EmptyString in
  let end_ := processFile w g file s in
  fst end_ = Returned tt /\
  log (snd end_)
  = log s ++ [EvCreateObjectURL; EvTaskPending (tempIdAt w s file); EvReadFile file;
              EvGenerateContent (classifyRequest b64 (fileType file));
              EvTaskDone (tempIdAt w s file) cat; cooldown] /\
  (fileable cat (catalogueOf g (appState s)) = true ->
   unmounted (snd end_) = unmounted s /\
   catalogueOf g (appState (snd end_)) !! cat
   = Some (default [] (catalogueOf g (appState s) !! cat) ++ [uploadedItem w s file b64]) /\
   (forall k, k <> cat ->
              catalogueOf g (appState (snd end_)) !! k = catalogueOf g (appState s) !! k) /\
   catalogueOf (otherGender g) (appState (snd end_))
   = catalogueOf (otherGender g) (appState s) /\
   classifyingItems (appState (snd end_))
   = dropTask (tempIdAt w s file) (classifyingItems (appState s))) /\
  (fileable cat (catalogueOf g (appState s)) = false ->
   unmounted (snd end_) = true /\
   femaleCatalogue (appState (snd end_)) = femaleCatalogue (appState s) /\
   maleCatalogue (appState (snd end_)) = maleCatalogue (appState s)).
Proof.
  intros Hread Hgen Hparse Htruthy b64 end_. subst end_.
  rewrite processFile_run.
  rewrite (afterFile_classified w g file s result cat response Hread Hgen Hparse Htruthy).
  cbv zeta. fold b64. cbn [fst snd].
  split; [reflexivity|]. split.
  { destruct (addToCatalogue _ cat _); reflexivity. }
  split.
  - intros Hf. rewrite (addToCatalogue_fileable _ _ _ Hf).
    unfold uploadEnd, filedUpload. cbn [appState unmounted].
    split; [reflexivity|].
    split; [destruct g; catalogue_fields; apply lookup_insert_eq|].
    split; [intros k Hk; destruct g; catalogue_fields; apply lookup_insert_ne; congruence|].
    split; [destruct g; reflexivity|].
    destruct g; cbn [withCatalogue withClassifyingItems classifyingItems
                     withFemaleCatalogue withMaleCatalogue];
      apply dropTask_pending.
  - intros Hf. rewrite (addToCatalogue_throws _ _ _ Hf).
    unfold uploadEnd, unfiledUpload. cbn. repeat split.
Qed.

Lemma X15_upload_files_item_witness :
  (let w := uploadWorld [LoadEnd "data:image/png;base64,QUJD"] [Ok (categoryResponse "socks")] in
   let end_ := processFile w female dressFile (sysOf (appWith TryOn topsOnly "")) in
   option_map (map (fun item => base64 (image item)))
     (femaleCatalogue (appState (snd end_)) !! "socks") = Some ["QUJD"] /\
   classifyingItems (appState (snd end_)) = [] /\
   unmounted (snd end_) = false) /\
  (let w := uploadWorld [LoadEnd "data:image/png;base64,QUJD"]
              [Ok (categoryResponse "constructor")] in
   let end_ := processFile w female dressFile (sysOf (appWith TryOn topsOnly "")) in
   femaleCatalogue (appState (snd end_)) = emptyCatalogue /\
   unmounted (snd end_) = true).
Proof.
  split.
  - intros w end_.
    pose proof (X15_upload_files_item w female dressFile (sysOf (appWith TryOn topsOnly ""))
                  "data:image/png;base64,QUJD" "socks" (categoryResponse "socks")
                  eq_refl eq_refl eq_refl eq_refl) as H.
    cbv zeta in H. destruct H as (_ & _ & Hfiled & _).
    destruct (Hfiled eq_refl) as (Hm & Hcat & _ & _ & Htasks).
    subst end_. split; [|split; [exact Htasks | exact Hm]].
    change (femaleCatalogue ?st) with (catalogueOf female st). rewrite Hcat. reflexivity.
  - intros w end_.
    pose proof (X15_upload_files_item w female dressFile (sysOf (appWith TryOn topsOnly ""))
                  "data:image/png;base64,QUJD" "constructor" (categoryResponse "constructor")
                  eq_refl eq_refl eq_refl eq_refl) as H.
    cbv zeta in H. destruct H as (_ & _ & _ & Hthrown).
    destruct (Hthrown eq_refl) as (Hm & Hf & _). split; [exact Hf | exact Hm].
Defined.

(** X16: a file that cannot be read or classified files nothing.  When
    the reader fails no classification request is sent; when the request is
    refused, or its answer names no category, one request was sent.  Either
    way both catalogues stay as they were, the task of the file stays in the
    pending set with the message attached (the reader's own message, or the
    normalised message of the service; an answer without category gives the
    generic message), and the cooldown is waited for all the same. *)
Theorem X16_failed_upload_files_nothing (w : World) (g : Gender) (file : File) (s : Sys) :
  let end_ := snd (processFile w g file s) in
  let failedWith (msg : string) (calls : list GenerateContentRequest) :=
    femaleCatalogue (appState end_) = femaleCatalogue (appState s) /\
    maleCatalogue (appState end_) = maleCatalogue (appState s) /\
    classifyingItems (appState end_)
    = attachError (tempIdAt w s file) msg (classifyingItems (appState s))
      ++ [failedTask w s file msg] /\
    nGenerate end_ = nGenerate s + length calls /\
    log end_
    = log s ++ [EvCreateObjectURL; EvTaskPending (tempIdAt w s file); EvReadFile file]
            ++ map EvGenerateContent calls
            ++ [EvTaskFailed (tempIdAt w s file) msg; cooldown] in
  (readAsDataURL w (nRead s) file = ReadError ->
   failedWith "There was an error reading the file." []) /\
  (readAsDataURL w (nRead s) file = LoadEndNoString ->
   failedWith "Failed to read file as a data URL string." []) /\
  (forall result,
     readAsDataURL w (nRead s) file = LoadEnd result ->
     let req := classifyRequest (nth 1 (split "," result) EmptyString) (fileType file) in
     (forall e, generateContent w (nGenerate s) req = Fail e ->
                failedWith (parseGeminiError e) [req]) /\
     (forall response e,
        generateContent w (nGenerate s) req = Ok response ->
        parseCategory w (responseText response) = Fail e ->
        failedWith (parseGeminiError e) [req]) /\
     (forall response,
        generateContent w (nGenerate s) req = Ok response ->
        (parseCategory w (responseText response) = Ok None \/
         exists c, parseCategory w (responseText response) = Ok (Some c) /\
                   Js.truthy c = false) ->
        failedWith unexpectedMessage [req])).
Proof.
  intros end_ failedWith.
  assert (Hcase : forall msg calls,
            ((readAnswer (readAsDataURL w (nRead s) file) = inr msg /\ calls = []) \/
             (exists b64,
                readAnswer (readAsDataURL w (nRead s) file) = inl b64 /\
                classifyAnswer w
                  (generateContent w (nGenerate s) (classifyRequest b64 (fileType file)))
                = inr msg /\
                calls = [classifyRequest b64 (fileType file)])) ->
            failedWith msg calls).
  { intros msg calls H. subst failedWith end_. cbv beta.
    rewrite (processFile_failed w g file s msg calls H). cbn [snd].
    apply (failedUpload_facts w g). }
  split; [|split].
  - intros Hr. apply Hcase. left. rewrite Hr. split; reflexivity.
  - intros Hr. apply Hcase. left. rewrite Hr. split; reflexivity.
  - intros result Hr req. split; [|split].
    + intros e Hg. apply Hcase. right. eexists. rewrite Hr. cbn [readAnswer].
      split; [reflexivity|]. fold req. rewrite Hg. split; reflexivity.
    + intros response e Hg Hp. apply Hcase. right. eexists. rewrite Hr. cbn [readAnswer].
      split; [reflexivity|]. fold req. rewrite Hg. cbn [classifyAnswer]. rewrite Hp.
      split; reflexivity.
    + intros response Hg Hp. apply Hcase. right. eexists. rewrite Hr. cbn [readAnswer].
      split; [reflexivity|]. fold req. rewrite Hg. cbn [classifyAnswer].
      destruct Hp as [-> | (c & -> & ->)]; split; reflexivity.
Qed.

Lemma X16_failed_upload_files_nothing_witness :
  let end_ := snd (processFile (uploadWorld [ReadError] []) female hatFile
                     (sysOf (appWith TryOn topsOnly ""))) in
  femaleCatalogue (appState end_) = emptyCatalogue /\
  map taskError (classifyingItems (appState end_))
  = [Some "There was an error reading the file."] /\
  nGenerate end_ = 0.
Proof.
  intros end_.
  destruct (proj1 (X16_failed_upload_files_nothing (uploadWorld [ReadError] []) female hatFile
                     (sysOf (appWith TryOn topsOnly ""))) eq_refl)
    as (Hf & _ & Ht & Hn & _).
  split; [exact Hf|]. split; [|exact Hn].
  subst end_. rewrite Ht. reflexivity.
Defined.

Section BatchFrame.

Variable w : World.

Lemma uploadFrame_refl (g : Gender) (s : Sys) : uploadFrame g 0 s s.
Proof.
  unfold uploadFrame. split; [reflexivity|]. split.
  - intros k. exists []. split; [now rewrite app_nil_r | cbn; lia].
  - split; [repeat split|]. split; [lia|]. split; lia.
Qed.

Lemma uploadFrame_trans (g : Gender) (n m : nat) (s1 s2 s3 : Sys) :
  uploadFrame g n s1 s2 -> uploadFrame g m s2 s3 -> uploadFrame g (n + m) s1 s3.
Proof.
  intros (Ho1 & Hk1 & (Hw1 & Hs1 & Hg1 & Hi1 & He1) & Hn1 & Hu1 & Hc1)
         (Ho2 & Hk2 & (Hw2 & Hs2 & Hg2 & Hi2 & He2) & Hn2 & Hu2 & Hc2).
  unfold uploadFrame. split; [congruence|]. split.
  - intros k. destruct (Hk1 k) as (a1 & E1 & L1). destruct (Hk2 k) as (a2 & E2 & L2).
    exists (a1 ++ a2). split.
    + rewrite E2, E1. now rewrite app_assoc.
    + rewrite List.length_app. lia.
  - split; [repeat split; congruence|]. split; [lia|]. split; lia.
Qed.

Lemma afterFile_frame (g : Gender) (file : File) (s : Sys) :
  uploadFrame g 1 s (afterFile w g file s).
Proof.
  assert (Hsleep : forall calls final,
            isSleep final = false ->
            length (List.filter isSleep
                      (log s ++ [EvCreateObjectURL; EvTaskPending (tempIdAt w s file);
                                 EvReadFile file]
                             ++ map EvGenerateContent calls ++ [final; cooldown]))
            = length (List.filter isSleep (log s)) + 1).
  { intros calls final Hf. rewrite !List.filter_app, !List.length_app. cbn.
    rewrite Hf. cbn.
    assert (Hc : List.filter isSleep (map EvGenerateContent calls) = []).
    { induction calls as [|c cs IH]; [reflexivity | exact IH]. }
    rewrite Hc. cbn. lia. }
  assert (Hsame : forall calls tasks final gone,
            isSleep final = false -> length calls <= 1 ->
            uploadFrame g 1 s
              (uploadEnd w s file calls (withClassifyingItems tasks (appState s)) final gone)).
  { intros calls tasks final gone Hf Hcalls.
    unfold uploadFrame, uploadEnd. cbn [appState log nGenerate nUrl].
    split; [destruct g; reflexivity|]. split.
    - intros k. exists []. split; [|cbn; lia]. rewrite app_nil_r. destruct g; reflexivity.
    - split; [repeat split|]. split; [lia|]. split; [lia|]. now apply Hsleep. }
  unfold afterFile.
  destruct (readAnswer (readAsDataURL w (nRead s) file)) as [b64|msg].
  - destruct (classifyAnswer w _) as [cat|msg].
    + destruct (addToCatalogue _ cat _) as [next|] eqn:Hadd.
      * unfold uploadFrame, uploadEnd, filedUpload. cbn [appState log nGenerate nUrl].
        split; [destruct g; reflexivity|]. split.
        -- intros k.
           destruct (addToCatalogue_appends _ _ _ _ k Hadd) as (added & E & L).
           exists added. split; [|exact L].
           destruct g; catalogue_fields; exact E.
        -- split; [destruct g; repeat split|]. split; [cbn; lia|]. split; [lia|].
           now apply Hsleep.
      * apply Hsame; [reflexivity | cbn; lia].
    + apply Hsame; [reflexivity | cbn; lia].
  - apply Hsame; [reflexivity | cbn; lia].
Qed.

Lemma uploadLoop_frame (g : Gender) (files : list File) :
  forall s, uploadFrame g (length files) s (snd (uploadLoop w g files s)).
Proof.
  induction files as [|f fs IH]; intros s.
  - apply uploadFrame_refl.
  - rewrite uploadLoop_step, processFile_run. cbn [snd length].
    change (S (length fs)) with (1 + length fs).
    eapply uploadFrame_trans; [apply afterFile_frame | apply IH].
Qed.

Lemma afterFile_mounted (g : Gender) (file : File) (s : Sys) :
  (forall i req response cat,
     generateContent w i req = Ok response ->
     parseCategory w (responseText response) = Ok (Some cat) ->
     Js.inherited cat = false) ->
  unmounted (afterFile w g file s) = unmounted s.
Proof.
  intros Hschema. unfold afterFile.
  destruct (readAnswer (readAsDataURL w (nRead s) file)) as [b64|msg]; [|reflexivity].
  destruct (classifyAnswer w _) as [cat|msg] eqn:Hanswer; [|reflexivity].
  destruct (classifyAnswer_inl w _ _ Hanswer) as (response & Hgen & Hparse).
  assert (Hf : fileable cat (catalogueOf g (appState s)) = true).
  { unfold fileable. destruct (catalogueOf g (appState s) !! cat); [reflexivity|].
    now rewrite (Hschema _ _ _ _ Hgen Hparse). }
  now rewrite (addToCatalogue_fileable _ _ _ Hf).
Qed.

Lemma uploadLoop_mounted (g : Gender) (files : list File) :
  (forall i req response cat,
     generateContent w i req = Ok response ->
     parseCategory w (responseText response) = Ok (Some cat) ->
     Js.inherited cat = false) ->
  forall s, unmounted (snd (uploadLoop w g files s)) = unmounted s.
Proof.
  intros Hschema. induction files as [|f fs IH]; intros s; [reflexivity|].
  rewrite uploadLoop_step, processFile_run. cbn [snd].
  rewrite IH. now apply afterFile_mounted.
Qed.

End BatchFrame.

(** X17: what a batch upload can and cannot change.  Whatever reader
    and service do, [handleStyleUpload] on [n] files mints one object URL per
    file, sends at most one request per file, and waits the cooldown once per
    file, after the last file and after failures too.  As long as the tree
    is still mounted when the batch ends, the batch has only appended to the
    catalogue of the current gender: under every category the entries that
    were there stay, in order, followed by at most [n] new ones; and the
    other catalogue, the workspace, the selection, the result buffer and the
    error of the generation runs are untouched.  The tree stays mounted when
    the service names no property name of [Object.prototype] as a
    category. *)
Theorem X17_batch_only_appends (w : World) (files : list File) (s : Sys) :
  let g := gender (appState s) in
  let end_ := snd (handleStyleUpload w files s) in
  (nGenerate end_ <= nGenerate s + length files /\
   nUrl end_ = nUrl s + length files /\
   length (List.filter isSleep (log end_))
   = length (List.filter isSleep (log s)) + length files) /\
  (unmounted end_ = false ->
   catalogueOf (otherGender g) (appState end_) = catalogueOf (otherGender g) (appState s) /\
   (forall k, exists added,
       default [] (catalogueOf g (appState end_) !! k)
       = default [] (catalogueOf g (appState s) !! k) ++ added /\
       length added <= length files) /\
   workspaceItems (appState end_) = workspaceItems (appState s) /\
   selectedImage (appState end_) = selectedImage (appState s) /\
   generatedImages (appState end_) = generatedImages (appState s) /\
   selectedItems (appState end_) = selectedItems (appState s) /\
   error (appState end_) = error (appState s)) /\
  ((forall i req response cat,
      generateContent w i req = Ok response ->
      parseCategory w (responseText response) = Ok (Some cat) ->
      Js.inherited cat = false) ->
   unmounted end_ = unmounted s).
Proof.
  intros g end_.
  destruct (uploadLoop_frame w (gender (appState s)) files s)
    as (Hother & Hkeys & Hrun & Hn & Hu & Hc).
  split; [split; [exact Hn | split; [exact Hu | exact Hc]]|].
  split.
  - intros _. split; [exact Hother|]. split; [exact Hkeys | exact Hrun].
  - intros Hschema. exact (uploadLoop_mounted w (gender (appState s)) files Hschema s).
Qed.

Lemma X17_batch_only_appends_witness :
  let w := uploadWorld
             [LoadEnd "data:image/png;base64,QUJD"; ReadError;
              LoadEnd "data:image/png;base64,QUJD"]
             [Ok (categoryResponse "tops"); Ok (categoryResponse "tops")] in
  let end_ := snd (handleStyleUpload w [dressFile; hatFile; bootsFile]
                     (sysOf (appWith TryOn topsOnly ""))) in
  unmounted end_ = false /\
  maleCatalogue (appState end_) = emptyCatalogue /\
  workspaceItems (appState end_) = [photo] /\
  length (List.filter isSleep (log end_)) = 3.
Proof.
  intros w end_.
  destruct (X17_batch_only_appends w [dressFile; hatFile; bootsFile]
              (sysOf (appWith TryOn topsOnly ""))) as ((_ & _ & Hc) & Hframe & _).
  destruct (Hframe eq_refl) as (Hother & _ & Hws & _).
  split; [reflexivity|]. split; [exact Hother|]. split; [exact Hws | exact Hc].
Defined.

(** ** The first call of a try-on run *)

Section FirstCall.

Variable w : World.
Variable budget : nat.

Lemma extends_refl (s : Sys) : extends s s.
Proof. exists []. now rewrite app_nil_r. Qed.

Lemma extends_trans (s1 s2 s3 : Sys) : extends s1 s2 -> extends s2 s3 -> extends s1 s3.
Proof.
  intros [e1 H1] [e2 H2]. exists (e1 ++ e2). now rewrite H2, H1, app_assoc.
Qed.

Lemma extends_app (s s' : Sys) (f : AppState -> AppState) :
  extends s s' -> extends s (withAppOf f s').
Proof. intros [evs H]. exists evs. exact H. Qed.

Lemma tryOnLoop_extends (img : UploadedImage) (g : Gender)
    (outfits : list (list TryOnItem)) :
  forall results s, extends s (snd (tryOnLoop w img g outfits results s)).
Proof.
  induction outfits as [|outfit rest IH]; intros results s; [apply extends_refl|].
  cbn [tryOnLoop]. unfold bind at 1. rewrite virtualTryOn_run.
  assert (Hreq : extends s (afterGenerate (tryOnRequest (base64 img) (mimeType img) outfit g) s)).
  { eexists. reflexivity. }
  destruct (imageCallOutcome _ _) as [[r|]|e|]; try exact Hreq.
  - destruct (Js.truthy r).
    + unfold bind. cbn [setGeneratedImages modifyApp].
      eapply extends_trans; [|apply IH]. destruct Hreq as [evs H]. exists evs. exact H.
    + eapply extends_trans; [exact Hreq | apply IH].
  - eapply extends_trans; [exact Hreq | apply IH].
Qed.

Lemma tryOnLoop_first (img : UploadedImage) (g : Gender) (first : list TryOnItem)
    (others : list (list TryOnItem)) (results : list string) (s : Sys) :
  exists evs,
    log (snd (tryOnLoop w img g (first :: others) results s))
    = log s ++ EvGenerateContent (renderRequest img g first) :: evs.
Proof.
  cbn [tryOnLoop]. unfold bind at 1. rewrite virtualTryOn_run.
  fold (renderRequest img g first).
  assert (Hrest : forall s2, extends (afterGenerate (renderRequest img g first) s) s2 ->
            exists evs, log s2 = log s ++ EvGenerateContent (renderRequest img g first) :: evs).
  { intros s2 [evs H]. exists evs. rewrite H. cbn. now rewrite <- app_assoc. }
  destruct (imageCallOutcome _ _) as [[r|]|e|]; try (apply Hrest; apply extends_refl).
  - destruct (Js.truthy r).
    + unfold bind. cbn [setGeneratedImages modifyApp]. apply Hrest.
      eapply extends_trans; [|apply tryOnLoop_extends]. exists []. cbn. now rewrite app_nil_r.
    + apply Hrest, tryOnLoop_extends.
  - apply Hrest, tryOnLoop_extends.
Qed.

Lemma materialize_extends (img : UploadedImage) (results : list string) :
  forall index newItems s, extends s (snd (materialize w img results index newItems s)).
Proof.
  induction results as [|r rs IH]; intros index newItems s; [apply extends_refl|].
  cbn [materialize]. unfold bind at 1. unfold base64ToBlob, bind at 1.
  destruct (atob w r) as [bytes|e]; [|apply extends_refl].
  cbn [liftCompletion ret]. unfold bind at 1. cbn [callCreateObjectURL].
  eapply extends_trans; [|apply IH]. eexists. reflexivity.
Qed.

Lemma handleGenerate_first_call (s : Sys) (img : UploadedImage)
    (first : list TryOnItem) (others : list (list TryOnItem)) :
  selectedImage (appState s) = Some img ->
  mode (appState s) = TryOn ->
  generateOutfitCombinations (selectedItems (appState s)) = first :: others ->
  noPlaceholder (first :: others) = true ->
  exists evs,
    log (snd (handleGenerate w budget s))
    = log s ++ EvGenerateContent (renderRequest img (gender (appState s)) first) :: evs.
Proof.
  intros Hsel Hmode Hc Hp.
  rewrite (handleGenerate_selected _ _ _ _ Hsel), Hmode.
  unfold tryFinally, tryCatch.
  rewrite tryOnBranch_loop; [| rewrite Hc; discriminate | now rewrite Hc].
  rewrite Hc. unfold bind at 1.
  destruct (tryOnLoop_first img (gender (appState s)) first others [] (withAppOf started s))
    as [evs Hlog].
  cbn [withAppOf log] in Hlog.
  destruct (tryOnLoop w img (gender (appState s)) (first :: others) [] (withAppOf started s))
    as [[results|e|] s2]; cbn [snd] in Hlog.
  - destruct (0 <? length results)%nat.
    + unfold bind at 1.
      destruct (materialize_extends img results 0 [] s2) as [evs' Hm].
      destruct (materialize w img results 0 [] s2) as [[items|e|] s3]; cbn [snd] in Hm.
      * rewrite publishNewItems_run. cbn. rewrite Hm, Hlog, <- app_assoc. cbn. eauto.
      * cbn. rewrite Hm, Hlog, <- app_assoc. cbn. eauto.
      * cbn. rewrite Hm, Hlog, <- app_assoc. cbn. eauto.
    + cbn. eauto.
  - cbn. eauto.
  - cbn. eauto.
Qed.

End FirstCall.

(** X18: the first thing a try-on run does.  With a photo selected and
    no placeholder among the items, a run always sends a render request, for
    the first combination of the engine: the check for an empty combination
    list never stops it.  When the button is enabled that combination holds
    an item; when the handler runs with nothing selected, the request is sent
    all the same, with the photo and no item. *)
Theorem X18_first_render_call (w : World) (budget : nat) (s : Sys) (img : UploadedImage) :
  selectedImage (appState s) = Some img ->
  mode (appState s) = TryOn ->
  noPlaceholder (generateOutfitCombinations (selectedItems (appState s))) = true ->
  exists first others evs,
    generateOutfitCombinations (selectedItems (appState s)) = first :: others /\
    log (snd (handleGenerate w budget s))
    = log s ++ EvGenerateContent (renderRequest img (gender (appState s)) first) :: evs /\
    (isGenerateDisabled (appState s) = false -> first <> []) /\
    (itemsToTryOn (selectedItems (appState s)) = [] -> first = [] /\ others = []).
Proof.
  intros Hsel Hmode Hp.
  destruct (generateOutfitCombinations (selectedItems (appState s))) as [|first others] eqn:Hc.
  - destruct (proj1 (generate_nonempty (selectedItems (appState s))) Hc).
  - destruct (handleGenerate_first_call w budget s img first others Hsel Hmode Hc Hp)
      as [evs Hlog].
    exists first, others, evs. split; [reflexivity|]. split; [exact Hlog|]. split.
    + intros Hbtn ->. unfold isGenerateDisabled in Hbtn. rewrite Hmode, Hsel in Hbtn.
      apply orb_false_iff in Hbtn. destruct Hbtn as [_ Hbtn]. cbn [andb] in Hbtn.
      apply Nat.eqb_neq in Hbtn.
      assert (Hin : In [] (generateOutfitCombinations (selectedItems (appState s))))
        by (rewrite Hc; now left).
      apply generate_signature in Hin. cbn [map] in Hin. symmetry in Hin.
      apply signature_nil in Hin. rewrite Hin in Hbtn. now apply Hbtn.
    + intros Hnone.
      assert (Hsingle : generateOutfitCombinations (selectedItems (appState s)) = [[]]).
      { unfold itemsToTryOn in Hnone.
        apply app_eq_nil in Hnone. destruct Hnone as [Ho Hnone].
        apply app_eq_nil in Hnone. destruct Hnone as [Ht Hnone].
        apply app_eq_nil in Hnone. destruct Hnone as [Hb Hnone].
        apply app_eq_nil in Hnone. destruct Hnone as [Hf Hnone].
        apply app_eq_nil in Hnone. destruct Hnone as [Hh Ha].
        unfold generateOutfitCombinations, baseItems, accessoryCombos.
        rewrite Ho, Ht, Hb, Hf, Hh, Ha. reflexivity. }
      rewrite Hsingle in Hc. injection Hc as <- <-. split; reflexivity.
Qed.

Lemma X18_first_render_call_witness :
  exists evs,
    log (snd (handleGenerate (scriptedWorld [] DuringNextRender) 0
                (sysOf (appWith TryOn nothingSelected ""))))
    = EvGenerateContent (renderRequest photo female []) :: evs.
Proof.
  destruct (X18_first_render_call (scriptedWorld [] DuringNextRender) 0
              (sysOf (appWith TryOn nothingSelected "")) photo eq_refl eq_refl eq_refl)
    as (first & others & evs & Hc & Hlog & _ & Hnone).
  destruct (Hnone eq_refl) as [-> _]. exists evs. exact Hlog.
Defined.

(** ** File names and data URLs *)

Section Splitting.

Variable sep : ascii.

Lemma split_nonempty (s : string) : split sep s <> [].
Proof.
  destruct s as [|c s]; cbn [split]; [discriminate|].
  destruct (Ascii.eqb c sep); [discriminate|].
  destruct (split sep s); discriminate.
Qed.

Lemma split_lacks (s : string) : lacks sep s = true -> split sep s = [s].
Proof.
  induction s as [|c s IH]; [reflexivity|]. cbn [lacks split]. intros H.
  apply andb_prop in H. destruct H as [Hc Hs]. apply negb_true_iff in Hc.
  rewrite Hc, (IH Hs). reflexivity.
Qed.

Lemma split_app_first (pre rest : string) :
  lacks sep pre = true ->
  split sep (pre ++ String sep rest) = pre :: split sep rest.
Proof.
  induction pre as [|c pre IH]; simpl.
  - intros _. now rewrite Ascii.eqb_refl.
  - intros H. apply andb_prop in H. destruct H as [Hc Hs]. apply negb_true_iff in Hc.
    rewrite Hc, (IH Hs). reflexivity.
Qed.

Lemma split_app_last (stem ext : string) :
  lacks sep ext = true ->
  split sep (stem ++ String sep ext) = split sep stem ++ [ext].
Proof.
  intros Hext. induction stem as [|c stem IH]; simpl.
  - rewrite Ascii.eqb_refl, (split_lacks ext Hext). reflexivity.
  - destruct (Ascii.eqb c sep); [now rewrite IH|].
    rewrite IH. pose proof (split_nonempty stem) as Hne.
    destruct (split sep stem) as [|seg segs]; [congruence | reflexivity].
Qed.

Lemma concat_split (s : string) :
  String.concat (String sep EmptyString) (split sep s) = s.
Proof.
  induction s as [|c s IH]; [reflexivity|]. cbn [split].
  pose proof (split_nonempty s) as Hne.
  destruct (Ascii.eqb_spec c sep) as [->|Hc].
  - destruct (split sep s) as [|seg segs] eqn:E; [congruence|].
    change (String.concat (String sep EmptyString) (EmptyString :: seg :: segs))
      with (String sep (String.concat (String sep EmptyString) (seg :: segs))).
    now rewrite IH.
  - destruct (split sep s) as [|seg segs] eqn:E; [congruence|].
    destruct segs as [|seg' segs'].
    + cbn in IH |- *. now rewrite IH.
    + change (String.concat (String sep EmptyString) (String c seg :: seg' :: segs'))
        with (String c (String.concat (String sep EmptyString) (seg :: seg' :: segs'))).
      now rewrite IH.
Qed.

End Splitting.

Section Names.

Lemma styleName_stem (stem ext : string) :
  lacks "." ext = true ->
  styleName (stem ++ "." ++ ext) = if Js.truthy stem then stem else "Style Item".
Proof.
  intros Hext. unfold styleName.
  change (stem ++ "." ++ ext)%string with (stem ++ String "." ext)%string.
  rewrite (split_app_last "." stem ext Hext), removelast_last.
  now rewrite (concat_split "." stem).
Qed.

Lemma styleName_plain (name : string) :
  lacks "." name = true -> styleName name = "Style Item".
Proof.
  intros H. unfold styleName. rewrite (split_lacks "." name H). reflexivity.
Qed.

End Names.

(** X19: the name given to an uploaded style.  A file name is cut at
    its last full stop: [stem ++ "." ++ ext], with no full stop in [ext],
    gives [stem], whatever full stops [stem] holds itself; a name that starts
    with its only full stop, and a name with no full stop at all, give
    [Style Item]. *)
Theorem X19_style_name :
  (forall stem ext,
     lacks "." ext = true ->
     styleName (stem ++ "." ++ ext) = if Js.truthy stem then stem else "Style Item") /\
  (forall name, lacks "." name = true -> styleName name = "Style Item").
Proof.
  split; [exact styleName_stem | exact styleName_plain].
Qed.

Lemma X19_style_name_witness :
  styleName "summer.dress.png" = "summer.dress" /\ styleName ".png" = "Style Item".
Proof.
  split.
  - exact (proj1 X19_style_name "summer.dress" "png" eq_refl).
  - exact (proj1 X19_style_name "" "png" eq_refl).
Defined.

(** X20: what [readFileAsBase64] takes from a data URL.  When the
    reader gives [prefix ++ "," ++ payload] with no comma in [prefix], the
    call returns the payload up to its first comma, hence all of it when it
    holds none (as base64 does); the file is read exactly once. *)
Theorem X20_reader_payload (w : World) (file : File) (s : Sys) (prefix payload : string) :
  readAsDataURL w (nRead s) file = LoadEnd (prefix ++ "," ++ payload) ->
  lacks "," prefix = true ->
  let r := readFileAsBase64 w file s in
  fst r = Returned (nth 0 (split "," payload) EmptyString) /\
  (lacks "," payload = true -> fst r = Returned payload) /\
  log (snd r) = log s ++ [EvReadFile file] /\
  nRead (snd r) = S (nRead s) /\
  appState (snd r) = appState s.
Proof.
  intros Hread Hprefix r. subst r. unfold readFileAsBase64. rewrite Hread.
  change (prefix ++ "," ++ payload)%string with (prefix ++ String "," payload)%string.
  rewrite (split_app_first "," prefix payload Hprefix). cbn [nth ret fst snd log nRead appState].
  split; [reflexivity|]. split; [|repeat split].
  intros Hp. now rewrite (split_lacks "," payload Hp).
Qed.

Lemma X20_reader_payload_witness :
  fst (readFileAsBase64 (uploadWorld [LoadEnd "data:image/png;base64,QUJD"] []) dressFile
         (sysOf (appWith TryOn topsOnly "")))
  = Returned "QUJD".
Proof.
  exact (proj1 (proj2 (X20_reader_payload
                         (uploadWorld [LoadEnd "data:image/png;base64,QUJD"] []) dressFile
                         (sysOf (appWith TryOn topsOnly "")) "data:image/png;base64" "QUJD"
                         eq_refl eq_refl)) eq_refl).
Defined.

(** ** Switching mode, gender and photo *)

Section Switching.

Lemma sameMode_eq (a b : CreativeMode) : sameMode a b = true <-> a = b.
Proof. destruct a, b; cbn; split; congruence. Qed.

Lemma sameGender_eq (a b : Gender) : sameGender a b = true <-> a = b.
Proof. destruct a, b; cbn; split; congruence. Qed.

Lemma handleModeChange_run (newMode : CreativeMode) (s : Sys) :
  handleModeChange newMode s
  = (Returned tt,
     if sameMode (mode (appState s)) newMode then s
     else withAppOf (fun st => withError None (withGeneratedVideoUrl None
                                 (withGeneratedImages [] (withMode newMode st)))) s).
Proof.
  unfold handleModeChange, bind. cbn [getApp].
  destruct (sameMode (mode (appState s)) newMode); reflexivity.
Qed.

Lemma handleGenderChange_run (newGender : Gender) (s : Sys) :
  handleGenderChange newGender s
  = (Returned tt,
     if sameGender (gender (appState s)) newGender then s
     else withAppOf (fun st => withError None (withSelectedItems initialSelected
                                 (withGender newGender st))) s).
Proof.
  unfold handleGenderChange, bind. cbn [getApp].
  destruct (sameGender (gender (appState s)) newGender); reflexivity.
Qed.

End Switching.

(** X21: switching never leaves something stale behind.  Changing to
    another mode while no run is loading empties the result panel (no image,
    video or error of the mode left is shown) and keeps workspace, selection
    and chosen items; changing to another gender drops the chosen items, so
    that the button is disabled in try-on mode, and keeps both catalogues;
    adding a photo selects it and empties the panel as well.  Switching to the mode or gender already set changes
    nothing. *)
Theorem X21_switches_clear (s : Sys) :
  (forall newMode,
     let end_ := snd (handleModeChange newMode s) in
     (newMode = mode (appState s) -> end_ = s) /\
     (newMode <> mode (appState s) ->
      mode (appState end_) = newMode /\
      (isLoading (appState s) = false -> ResultDisplay (appState end_) = Placeholder) /\
      workspaceItems (appState end_) = workspaceItems (appState s) /\
      selectedImage (appState end_) = selectedImage (appState s) /\
      selectedItems (appState end_) = selectedItems (appState s))) /\
  (forall newGender,
     let end_ := snd (handleGenderChange newGender s) in
     (newGender = gender (appState s) -> end_ = s) /\
     (newGender <> gender (appState s) ->
      gender (appState end_) = newGender /\
      itemsToTryOn (selectedItems (appState end_)) = [] /\
      (mode (appState s) = TryOn -> isGenerateDisabled (appState end_) = true) /\
      error (appState end_) = None /\
      femaleCatalogue (appState end_) = femaleCatalogue (appState s) /\
      maleCatalogue (appState end_) = maleCatalogue (appState s) /\
      generatedImages (appState end_) = generatedImages (appState s))) /\
  (forall img,
     let end_ := snd (handleImageAdd img s) in
     selectedImage (appState end_) = Some img /\
     workspaceItems (appState end_) = img :: workspaceItems (appState s) /\
     (isLoading (appState s) = false -> ResultDisplay (appState end_) = Placeholder)).
Proof.
  split; [|split].
  - intros newMode end_. subst end_. rewrite handleModeChange_run. cbn [snd]. split.
    + intros ->. now rewrite (proj2 (sameMode_eq _ _) eq_refl).
    + intros Hne. destruct (sameMode (mode (appState s)) newMode) eqn:E.
      * apply sameMode_eq in E. congruence.
      * cbn. repeat split. intros Hl. unfold ResultDisplay. cbn. now rewrite Hl.
  - intros newGender end_. subst end_. rewrite handleGenderChange_run. cbn [snd]. split.
    + intros ->. now rewrite (proj2 (sameGender_eq _ _) eq_refl).
    + intros Hne. destruct (sameGender (gender (appState s)) newGender) eqn:E.
      * apply sameGender_eq in E. congruence.
      * cbn. repeat split. intros Hm. unfold isGenerateDisabled. cbn. rewrite Hm.
        cbn. now rewrite !orb_true_r.
  - intros img end_. subst end_. cbn. repeat split.
    intros Hl. unfold ResultDisplay. cbn. now rewrite Hl.
Qed.

Lemma X21_switches_clear_witness :
  let s := withAppOf (withGeneratedImages ["r1"]) (sysOf (appWith TryOn topsOnly "")) in
  ResultDisplay (appState s) = ImageGrid ["r1"] false /\
  ResultDisplay (appState (snd (handleModeChange Edit s))) = Placeholder /\
  isGenerateDisabled (appState (snd (handleGenderChange male s))) = true.
Proof.
  intros s. split; [reflexivity|]. split.
  - exact (proj1 (proj2 (proj2 (proj1 (X21_switches_clear s) Edit) ltac:(discriminate)))
             eq_refl).
  - exact (proj1 (proj2 (proj2 (proj2 (proj1 (proj2 (X21_switches_clear s)) male)
                                  ltac:(discriminate))))
             eq_refl).
Defined.
